(** * Doodot task service: the hierarchical todo entity and its controllers

    A shallow embedding of [models/todo.model.js], [controllers/todo.controller.js],
    [middlewares/todo.validator.js] and of the route table [routes/todo.route.js],
    followed by the properties of the task specification that were checked
    against them.

    Conventions of the embedding:
    - a MongoDB collection is a finite map from [_id] to document, and [save]
      writes the whole document;
    - ObjectIds are compared through [toString()], so they are strings; the id
      the driver gives a new document or sub-document is the argument [newId];
    - a [Date] is its number of milliseconds since the epoch, [new Date()] is
      the argument [now] of every operation that reads the clock;
    - the enumerated paths ([status], [priority], [permissions], [action]) are
      inductive types, the other paths of a request body are optional slots;
    - a thrown error is the left injection of a sum, so an operation that
      throws leaves the collection as it was;
    - of Mongoose, the model keeps the schema defaults, the [trim] setters, the
      [required], [maxlength] and [enum] validators, the [timestamps] option
      and the two [pre('save')] hooks of the schema. *)

From Stdlib Require Import Ascii String.
From stdpp Require Import base option list strings pretty gmap sorting.

Local Open Scope string_scope.
Local Open Scope list_scope.
Local Open Scope Z_scope.

(** ** Enumerations of the schema *)

Inductive Status := St_todo | St_in_progress | St_completed | St_blocked | St_on_hold.
Inductive Priority := Low | Medium | High | Urgent.
Inductive Permission := View | Edit | Admin.
Inductive Action :=
  | Created | Updated | Commented | Completed | Status_changed | Assigned | Priority_changed.

Global Instance Status_eq_dec : EqDecision Status.
Proof. solve_decision. Defined.
Global Instance Priority_eq_dec : EqDecision Priority.
Proof. solve_decision. Defined.
Global Instance Permission_eq_dec : EqDecision Permission.
Proof. solve_decision. Defined.
Global Instance Action_eq_dec : EqDecision Action.
Proof. solve_decision. Defined.

(** ** Strings, as the schema's [trim: true] setter and JavaScript see them *)

(** The ASCII white space that [String.prototype.trim] removes. *)
Definition is_space (c : ascii) : bool :=
  bool_decide (c ∈ [" "; "009"; "010"; "011"; "012"; "013"]%char).

Fixpoint trimStart (s : string) : string :=
  match s with
  | String c r => if is_space c then trimStart r else s
  | EmptyString => EmptyString
  end.

Fixpoint trimEnd (s : string) : string :=
  match s with
  | String c r =>
      match trimEnd r with
      | EmptyString => if is_space c then EmptyString else String c EmptyString
      | r' => String c r'
      end
  | EmptyString => EmptyString
  end.

Definition trim (s : string) : string := trimEnd (trimStart s).

(** A string is truthy when it is not empty. *)
Definition truthy (s : string) : bool := negb (bool_decide (s = EmptyString)).

(** ** The recursive sub-todo schema ([subTodoSchema])

    The paths of a sub-todo that a controller or a hook reads or writes, and
    the defaults beside them; [attachments], [comments], [assignee] and
    [reminder] are touched by no code and are left out. *)

Record SubFields := mkSubFields {
  s_id : string;
  s_title : string;
  s_description : string;
  s_status : Status;
  s_priority : Priority;
  s_completed : bool;
  s_completedAt : option Z;
  s_dueDate : option Z;
  s_estimatedTime : Z;
  s_actualTime : Z;
  s_tags : list string;
  s_isArchived : bool;
  s_order : Z
}.

(** [subtasks: [this]]: a node holds an ordered array of nodes. The induction
    principle that reaches the children is [SubTodo_forest_ind] below. *)
Unset Elimination Schemes.
Inductive SubTodo := SubDoc (f : SubFields) (subtasks : list SubTodo).
Set Elimination Schemes.

Definition s_fields (t : SubTodo) : SubFields := let 'SubDoc f _ := t in f.
Definition s_subtasks (t : SubTodo) : list SubTodo := let 'SubDoc _ l := t in l.

Global Instance SubFields_eq_dec : EqDecision SubFields.
Proof. solve_decision. Defined.

Global Instance SubTodo_eq_dec : EqDecision SubTodo.
Proof.
  refine (fix go (x y : SubTodo) {struct x} : Decision (x = y) :=
    let _ : EqDecision SubTodo := go in
    match x, y with
    | SubDoc f1 l1, SubDoc f2 l2 => cast_if_and (decide (f1 = f2)) (decide (l1 = l2))
    end); abstract congruence.
Defined.

(** ** The main todo schema ([todoSchema]) *)

(** [activityLog.changes] is [Mixed]; these are the values the controllers
    put there. *)
Inductive Val :=
  | VStr (s : string)
  | VNum (n : Z)
  | VStatus (s : Status)
  | VPriority (p : Priority)
  | VDate (d : option Z)
  | VTags (l : list string)
  | VLabel (l : option string).

Inductive Change :=
  | OldNew (old new : Val)
  | Plain (v : Val).

Record ActivityEntry := mkActivityEntry {
  action : Action;
  a_userId : string;
  changes : option (list (string * Change));
  timestamp : Z
}.

Record ShareEntry := mkShareEntry {
  sh_userId : string;
  permissions : Permission;
  sharedAt : Z
}.

Record Comment := mkComment {
  c_id : string;
  c_userId : string;
  c_text : string;
  c_mentions : list string;
  c_createdAt : Z;
  c_updatedAt : option Z
}.

Record Attachment := mkAttachment {
  at_id : string;
  url : string;
  fileName : string;
  fileType : string;
  fileSize : Z;
  uploadedBy : string;
  uploadedAt : Z
}.

Record Progress := mkProgress { p_total : nat; p_completed : nat }.

(** [startDate], [reminder], [recurring], [relatedTodos], [customFields],
    [isPublic], [order] and [notificationSettings] keep their defaults in
    every controller and are left out. *)
Record Todo := mkTodo {
  _id : string;
  userId : string;
  title : string;
  description : string;
  status : Status;
  priority : Priority;
  completed : bool;
  completedAt : option Z;
  dueDate : option Z;
  estimatedTime : Z;
  actualTime : Z;
  category : string;
  tags : list string;
  assignee : option string;
  watchers : list string;
  attachments : list Attachment;
  comments : list Comment;
  activityLog : list ActivityEntry;
  subtasks : list SubTodo;
  parentId : option string;
  checklistProgress : Progress;
  sharedWith : list ShareEntry;
  isArchived : bool;
  isDeleted : bool;
  deletedAt : option Z;
  label : option string;
  createdAt : Z;
  updatedAt : Z
}.

Global Instance Val_eq_dec : EqDecision Val.
Proof. solve_decision. Defined.
Global Instance Change_eq_dec : EqDecision Change.
Proof. solve_decision. Defined.
Global Instance ActivityEntry_eq_dec : EqDecision ActivityEntry.
Proof. solve_decision. Defined.
Global Instance ShareEntry_eq_dec : EqDecision ShareEntry.
Proof. solve_decision. Defined.
Global Instance Comment_eq_dec : EqDecision Comment.
Proof. solve_decision. Defined.
Global Instance Attachment_eq_dec : EqDecision Attachment.
Proof. solve_decision. Defined.
Global Instance Progress_eq_dec : EqDecision Progress.
Proof. solve_decision. Defined.
Global Instance Todo_eq_dec : EqDecision Todo.
Proof. solve_decision. Defined.

(** *** Assignment to a path of a document

    [doc <| path := v |>] is the document after [doc.path = v]; every other
    path keeps its value. A setter is read off the eta-expansion of the
    record, with the assigned projection replaced by the new value. *)

Class Setter {T A : Type} (proj : T -> A) := set_field : A -> T -> T.
Global Arguments set_field {T A} proj {Setter} v t.

#[warnings="-postfix-notation-not-level-1"]
Notation "t <| p := v |>" := (set_field p v t)
  (at level 12, left associativity, format "t  <| p  :=  v |>").

Definition Todo_eta (t : Todo) : Todo :=
  mkTodo (_id t) (userId t) (title t) (description t) (status t) (priority t)
    (completed t) (completedAt t) (dueDate t) (estimatedTime t) (actualTime t)
    (category t) (tags t) (assignee t) (watchers t) (attachments t) (comments t)
    (activityLog t) (subtasks t) (parentId t) (checklistProgress t) (sharedWith t)
    (isArchived t) (isDeleted t) (deletedAt t) (label t) (createdAt t) (updatedAt t).

Definition SubFields_eta (f : SubFields) : SubFields :=
  mkSubFields (s_id f) (s_title f) (s_description f) (s_status f) (s_priority f)
    (s_completed f) (s_completedAt f) (s_dueDate f) (s_estimatedTime f)
    (s_actualTime f) (s_tags f) (s_isArchived f) (s_order f).

Ltac derive_setter eta proj :=
  let v := fresh "v" in
  let t := fresh "t" in
  intros v t;
  let body := eval cbv beta delta [eta] in (eta t) in
  match eval pattern (proj t) in body with
  | ?F _ => let r := eval cbv beta in (F v) in exact r
  end.

Global Instance set_title : Setter title.
Proof. derive_setter Todo_eta title. Defined.
Global Instance set_description : Setter description.
Proof. derive_setter Todo_eta description. Defined.
Global Instance set_status : Setter status.
Proof. derive_setter Todo_eta status. Defined.
Global Instance set_priority : Setter priority.
Proof. derive_setter Todo_eta priority. Defined.
Global Instance set_completed : Setter completed.
Proof. derive_setter Todo_eta completed. Defined.
Global Instance set_completedAt : Setter completedAt.
Proof. derive_setter Todo_eta completedAt. Defined.
Global Instance set_dueDate : Setter dueDate.
Proof. derive_setter Todo_eta dueDate. Defined.
Global Instance set_estimatedTime : Setter estimatedTime.
Proof. derive_setter Todo_eta estimatedTime. Defined.
Global Instance set_actualTime : Setter actualTime.
Proof. derive_setter Todo_eta actualTime. Defined.
Global Instance set_category : Setter category.
Proof. derive_setter Todo_eta category. Defined.
Global Instance set_tags : Setter tags.
Proof. derive_setter Todo_eta tags. Defined.
Global Instance set_assignee : Setter assignee.
Proof. derive_setter Todo_eta assignee. Defined.
Global Instance set_watchers : Setter watchers.
Proof. derive_setter Todo_eta watchers. Defined.
Global Instance set_attachments : Setter attachments.
Proof. derive_setter Todo_eta attachments. Defined.
Global Instance set_comments : Setter comments.
Proof. derive_setter Todo_eta comments. Defined.
Global Instance set_activityLog : Setter activityLog.
Proof. derive_setter Todo_eta activityLog. Defined.
Global Instance set_subtasks : Setter subtasks.
Proof. derive_setter Todo_eta subtasks. Defined.
Global Instance set_checklistProgress : Setter checklistProgress.
Proof. derive_setter Todo_eta checklistProgress. Defined.
Global Instance set_sharedWith : Setter sharedWith.
Proof. derive_setter Todo_eta sharedWith. Defined.
Global Instance set_isArchived : Setter isArchived.
Proof. derive_setter Todo_eta isArchived. Defined.
Global Instance set_isDeleted : Setter isDeleted.
Proof. derive_setter Todo_eta isDeleted. Defined.
Global Instance set_deletedAt : Setter deletedAt.
Proof. derive_setter Todo_eta deletedAt. Defined.
Global Instance set_label : Setter label.
Proof. derive_setter Todo_eta label. Defined.
Global Instance set_updatedAt : Setter updatedAt.
Proof. derive_setter Todo_eta updatedAt. Defined.

Global Instance set_s_title : Setter s_title.
Proof. derive_setter SubFields_eta s_title. Defined.
Global Instance set_s_description : Setter s_description.
Proof. derive_setter SubFields_eta s_description. Defined.
Global Instance set_s_status : Setter s_status.
Proof. derive_setter SubFields_eta s_status. Defined.
Global Instance set_s_priority : Setter s_priority.
Proof. derive_setter SubFields_eta s_priority. Defined.
Global Instance set_s_dueDate : Setter s_dueDate.
Proof. derive_setter SubFields_eta s_dueDate. Defined.
Global Instance set_s_completed : Setter s_completed.
Proof. derive_setter SubFields_eta s_completed. Defined.
Global Instance set_s_completedAt : Setter s_completedAt.
Proof. derive_setter SubFields_eta s_completedAt. Defined.

(** ** Errors

    The controllers and validators throw [ApiError(statusCode, message)];
    Mongoose throws its own [ValidationError] from [save] and [create], and
    the driver a duplicate-key error. The global [errorHandler] turns what is
    not an [ApiError] into a 500. *)

Inductive Error :=
  | ApiError (statusCode : Z) (message : string)
  | ValidationError (path : string)
  | DuplicateKey (key : string).

Definition errorHandler (err : Error) : Z :=
  match err with
  | ApiError statusCode _ => statusCode
  | ValidationError _ | DuplicateKey _ => 500
  end.

Definition Result (A : Type) : Type := Error + A.

Notation "x <- e ;; k" := (match e with inl err => inl err | inr x => k end)
  (at level 100, e at next level, k at level 200, right associativity).

(** [if (cond) throw err] *)
Definition throwIf (cond : bool) (err : Error) : Result unit :=
  if cond then inl err else inr tt.

Definition orNotFound {A : Type} (found : option A) (msg : string) : Result A :=
  match found with
  | Some a => inr a
  | None => inl (ApiError 404 msg)
  end.

(** ** The collections *)

Record DB := mkDB {
  todos : gmap string Todo;   (* the [Todo] collection, by [_id] *)
  users : gset string         (* the [_id]s of the [User] collection *)
}.

Definition withTodos (db : DB) (m : gmap string Todo) : DB :=
  {| todos := m; users := users db |}.

(** [Model.find(filter)]: the documents that match. *)
Definition find (db : DB) (P : Todo -> bool) : gmap string Todo :=
  filter (λ kv, P kv.2 = true) (todos db).

Definition countDocuments (db : DB) (P : Todo -> bool) : nat := size (find db P).

(** *** Sort orders of the listings ([.sort({ path: ±1 })]) *)

Inductive SortSpec :=
  | Unsorted | CreatedAtDesc | UpdatedAtDesc | DueDateAsc | PriorityDesc.

(** A missing date sorts before every date. *)
Definition date_le (a b : option Z) : Prop :=
  match a, b with
  | None, _ => True
  | Some _, None => False
  | Some x, Some y => x ≤ y
  end.

Global Instance date_le_dec a b : Decision (date_le a b).
Proof. destruct a, b; simpl; apply _. Defined.

(** [priority] is stored as a string, and strings sort by code unit:
    "high" < "low" < "medium" < "urgent". *)
Definition priorityRank (p : Priority) : Z :=
  match p with High => 0 | Low => 1 | Medium => 2 | Urgent => 3 end.

Definition createdAt_desc (a b : Todo) : Prop := createdAt b ≤ createdAt a.
Definition updatedAt_desc (a b : Todo) : Prop := updatedAt b ≤ updatedAt a.
Definition dueDate_asc (a b : Todo) : Prop := date_le (dueDate a) (dueDate b).
Definition priority_desc (a b : Todo) : Prop :=
  priorityRank (priority b) ≤ priorityRank (priority a).

Global Instance createdAt_desc_dec : RelDecision createdAt_desc.
Proof. intros a b; unfold createdAt_desc; apply _. Defined.
Global Instance updatedAt_desc_dec : RelDecision updatedAt_desc.
Proof. intros a b; unfold updatedAt_desc; apply _. Defined.
Global Instance dueDate_asc_dec : RelDecision dueDate_asc.
Proof. intros a b; unfold dueDate_asc; apply _. Defined.
Global Instance priority_desc_dec : RelDecision priority_desc.
Proof. intros a b; unfold priority_desc; apply _. Defined.

Definition sortDocs (spec : SortSpec) (docs : list Todo) : list Todo :=
  match spec with
  | Unsorted => docs
  | CreatedAtDesc => merge_sort createdAt_desc docs
  | UpdatedAtDesc => merge_sort updatedAt_desc docs
  | DueDateAsc => merge_sort dueDate_asc docs
  | PriorityDesc => merge_sort priority_desc docs
  end.

Definition exec (spec : SortSpec) (found : gmap string Todo) : list Todo :=
  sortDocs spec (map_to_list found).*2.

(** ** [pre('save')] hook: [calculateProgress]

    [visitTask] is the callback handed to [tasks.forEach]; the two counters it
    increments are the accumulator. *)

Fixpoint visitTask (acc : Progress) (task : SubTodo) {struct task} : Progress :=
  match task with
  | SubDoc f kids =>
      let acc1 :=
        {| p_total := S (p_total acc);
           p_completed :=
             if s_completed f then S (p_completed acc) else p_completed acc |} in
      match kids with
      | [] => acc1
      | _ :: _ =>
          let progress := fold_left visitTask kids (mkProgress 0 0) in
          {| p_total := (p_total acc1 + p_total progress)%nat;
             p_completed := (p_completed acc1 + p_completed progress)%nat |}
      end
  end.

Definition calculateProgress (tasks : list SubTodo) : Progress :=
  fold_left visitTask tasks (mkProgress 0 0).

Definition progressHook (doc : Todo) : Todo :=
  doc <| checklistProgress := calculateProgress (subtasks doc) |>.

(** The virtual [totalSubtasks]: [countSubtasks]. *)
Fixpoint countSubtasks_at (task : SubTodo) : nat :=
  match task with
  | SubDoc _ kids =>
      match kids with
      | [] => 0%nat
      | _ :: _ => (length kids + fold_left (λ count k, count + countSubtasks_at k) kids 0)%nat
      end
  end.

Definition countSubtasks (tasks : list SubTodo) : nat :=
  (length tasks + fold_left (λ count k, count + countSubtasks_at k) tasks 0)%nat.

(** ** Schema validation, run by [save] and [create]

    The [required], [maxlength] and [enum] validators of the two schemas on
    the modelled paths. [status], [priority], [permissions] and [action] are
    enumerations by type. *)

Definition labelEnum : list string :=
  ["red"; "blue"; "green"; "yellow"; "purple"; "orange"; "pink"; "gray"].

Definition validSubFields (f : SubFields) : bool :=
  truthy (s_title f)
  && bool_decide (String.length (s_title f) ≤ 200)%nat
  && bool_decide (String.length (s_description f) ≤ 1000)%nat.

Fixpoint validSubTodo (task : SubTodo) : bool :=
  match task with
  | SubDoc f kids => validSubFields f && forallb validSubTodo kids
  end.

Definition validateDoc (doc : Todo) : Result unit :=
  _ <- throwIf (negb (truthy (title doc))) (ValidationError "title");;
  _ <- throwIf (negb (bool_decide (String.length (title doc) ≤ 200)%nat))
         (ValidationError "title");;
  _ <- throwIf (negb (bool_decide (String.length (description doc) ≤ 2000)%nat))
         (ValidationError "description");;
  _ <- throwIf (negb (forallb (λ tag, bool_decide (String.length tag ≤ 50)%nat) (tags doc)))
         (ValidationError "tags");;
  _ <- throwIf (negb (from_option (λ l, bool_decide (l ∈ labelEnum)) true (label doc)))
         (ValidationError "label");;
  _ <- throwIf (negb (forallb (λ a, truthy (url a)) (attachments doc)))
         (ValidationError "attachments");;
  _ <- throwIf (negb (forallb (λ c, truthy (c_text c)
                                    && bool_decide (String.length (c_text c) ≤ 1000)%nat)
                        (comments doc)))
         (ValidationError "comments");;
  _ <- throwIf (negb (forallb validSubTodo (subtasks doc))) (ValidationError "subtasks");;
  inr tt.

(** ** [save] and [create]

    [isModified()] holds when some path differs from the document as it was
    loaded, which is the stored one; [isNew] holds for a document made by
    [create]. The [timestamps: true] option stamps [updatedAt] before the
    schema's own hooks run, in the order they were registered. *)

Definition isModified (snapshot : option Todo) (doc : Todo) : bool :=
  bool_decide (snapshot ≠ Some doc).

Definition timestampsHook (isNew : bool) (snapshot : option Todo) (now : Z) (doc : Todo) : Todo :=
  if isNew || isModified snapshot doc then doc <| updatedAt := now |> else doc.

Definition activityHook (isNew : bool) (snapshot : option Todo) (now : Z) (doc : Todo) : Todo :=
  if isModified snapshot doc && negb isNew
  then doc <| activityLog :=
         activityLog doc ++ [mkActivityEntry Updated (userId doc) None now] |>
  else doc.

Definition preSave (isNew : bool) (snapshot : option Todo) (now : Z) (doc : Todo) : Todo :=
  activityHook isNew snapshot now (progressHook (timestampsHook isNew snapshot now doc)).

Definition save (now : Z) (db : DB) (doc : Todo) : Result (Todo * DB) :=
  _ <- validateDoc doc;;
  let doc := preSave false (todos db !! _id doc) now doc in
  inr (doc, withTodos db (<[_id doc := doc]> (todos db))).

(** The schema defaults of a new document; [newId] is the ObjectId the driver
    generates. *)
Definition newTodo (newId : string) (now : Z) (owner ttl descr : string) : Todo :=
  {| _id := newId; userId := owner; title := ttl; description := descr;
     status := St_todo; priority := Medium; completed := false; completedAt := None;
     dueDate := None; estimatedTime := 0; actualTime := 0; category := "general";
     tags := []; assignee := None; watchers := []; attachments := []; comments := [];
     activityLog := []; subtasks := []; parentId := None;
     checklistProgress := mkProgress 0 0; sharedWith := []; isArchived := false;
     isDeleted := false; deletedAt := None; label := None;
     createdAt := now; updatedAt := now |}.

(** The [trim: true] setters of [todoSchema], which a new document goes
    through. On a loaded document a controller assigns one path at a time,
    and the setter is written at the assignment. The sub-documents handed to
    [create] are read back from a stored todo and are taken as they are. *)
Definition schemaSetters (doc : Todo) : Todo :=
  doc <| title := trim (title doc) |>
      <| description := trim (description doc) |>
      <| category := trim (category doc) |>
      <| tags := trim <$> tags doc |>.

Definition create (now : Z) (db : DB) (doc : Todo) : Result (Todo * DB) :=
  let doc := schemaSetters doc in
  _ <- validateDoc doc;;
  let doc := preSave true None now doc in
  _ <- throwIf (bool_decide (is_Some (todos db !! _id doc))) (DuplicateKey (_id doc));;
  inr (doc, withTodos db (<[_id doc := doc]> (todos db))).

(** ** Instance methods *)

Definition complete (now : Z) (db : DB) (doc : Todo) : Result (Todo * DB) :=
  save now db (doc <| completed := true |> <| status := St_completed |>
                   <| completedAt := Some now |>).

Definition incomplete (now : Z) (db : DB) (doc : Todo) : Result (Todo * DB) :=
  save now db (doc <| completed := false |> <| status := St_todo |>
                   <| completedAt := None |>).

(** [getAllSubtasks]: [collect] is the [forEach] callback, [result] the array
    it pushes to. *)
Fixpoint collect (result : list SubTodo) (task : SubTodo) {struct task} : list SubTodo :=
  match task with
  | SubDoc _ kids =>
      let result := result ++ [task] in
      match kids with
      | [] => result
      | _ :: _ => fold_left collect kids result
      end
  end.

Definition getAllSubtasks (tasks : list SubTodo) : list SubTodo :=
  fold_left collect tasks [].

(** ** Static methods *)

Definition findByUserAndStatus (db : DB) (owner : string) (st : Status) : gmap string Todo :=
  find db (λ t, bool_decide (userId t = owner) && bool_decide (status t = st)
                && bool_decide (isDeleted t = false)).

Definition findOverdue (now : Z) (db : DB) (owner : string) : gmap string Todo :=
  find db (λ t, bool_decide (userId t = owner)
                && from_option (λ d, bool_decide (d < now)) false (dueDate t)
                && bool_decide (completed t = false)
                && bool_decide (isDeleted t = false)).

Definition findByPriority (db : DB) (owner : string) (p : Priority) : gmap string Todo :=
  find db (λ t, bool_decide (userId t = owner) && bool_decide (priority t = p)
                && bool_decide (isDeleted t = false)).

(** [findByIdAndUpdate] runs no hook and no validator; [timestamps] still
    stamps [updatedAt]. *)
Definition softDelete (now : Z) (db : DB) (todoId : string) : DB :=
  withTodos db
    (alter (λ t, t <| isDeleted := true |> <| deletedAt := Some now |> <| updatedAt := now |>)
       todoId (todos db)).

(** ** Request bodies

    [req.body] after [express.json()], one optional slot per path a validator
    or a controller reads; [None] is [undefined]. A date arrives as a string
    and is held as the instant [new Date(dueDate)] denotes. *)

Record TodoBody := mkTodoBody {
  b_title : option string;
  b_description : option string;
  b_status : option Status;
  b_priority : option Priority;
  b_dueDate : option Z;
  b_category : option string;
  b_tags : option (list string);
  b_label : option (option string);
  b_estimatedTime : option Z
}.

Record SubtaskBody := mkSubtaskBody {
  sb_title : option string;
  sb_description : option string;
  sb_status : option Status;
  sb_priority : option Priority;
  sb_dueDate : option Z;
  sb_completed : option bool;
  sb_estimatedTime : option Z
}.

(** [value || fallback] on an optional string. *)
Definition orElse (value : option string) (fallback : string) : string :=
  match value with
  | Some s => if truthy s then s else fallback
  | None => fallback
  end.

(** [if (value !== undefined) { if (cond) throw err }] *)
Definition whenDefined {A : Type} (value : option A) (check : A -> Result unit) : Result unit :=
  match value with
  | Some a => check a
  | None => inr tt
  end.

(** ** [middlewares/todo.validator.js]

    The [typeof] and [includes] checks on enumerated paths hold by type. *)

(** [tags.forEach((tag, index) => { ... })] of [validateTodo] *)
Fixpoint validateTags (index : nat) (tags : list string) : Result unit :=
  match tags with
  | [] => inr tt
  | tag :: rest =>
      _ <- throwIf (bool_decide (String.length (trim tag) = 0%nat))
             (ApiError 400 ("Tag at index " +:+ pretty index +:+ " cannot be empty"));;
      _ <- throwIf (bool_decide (50 < String.length tag)%nat)
             (ApiError 400
                ("Tag at index " +:+ pretty index +:+ " cannot exceed 50 characters"));;
      validateTags (S index) rest
  end.

Definition validateTodo (now : Z) (body : TodoBody) : Result unit :=
  let title := default EmptyString (b_title body) in
  _ <- throwIf (negb (truthy title)) (ApiError 400 "Todo title is required");;
  _ <- throwIf (bool_decide (String.length (trim title) = 0%nat))
         (ApiError 400 "Title cannot be empty");;
  _ <- throwIf (bool_decide (String.length title < 3)%nat)
         (ApiError 400 "Title must be at least 3 characters long");;
  _ <- throwIf (bool_decide (200 < String.length title)%nat)
         (ApiError 400 "Title cannot exceed 200 characters");;
  _ <- whenDefined (b_description body) (λ description,
         throwIf (bool_decide (2000 < String.length description)%nat)
           (ApiError 400 "Description cannot exceed 2000 characters"));;
  _ <- whenDefined (b_dueDate body) (λ dueDateObj,
         throwIf (bool_decide (dueDateObj < now))
           (ApiError 400 "Due date cannot be in the past"));;
  _ <- whenDefined (b_category body) (λ category,
         throwIf (bool_decide (50 < String.length category)%nat)
           (ApiError 400 "Category cannot exceed 50 characters"));;
  _ <- whenDefined (b_tags body) (λ tags,
         _ <- throwIf (bool_decide (20 < length tags)%nat)
                (ApiError 400 "Cannot have more than 20 tags");;
         validateTags 0 tags);;
  _ <- whenDefined (b_estimatedTime body) (λ estimatedTime,
         _ <- throwIf (bool_decide (estimatedTime < 0))
                (ApiError 400 "Estimated time cannot be negative");;
         throwIf (bool_decide (525600 < estimatedTime))
           (ApiError 400 "Estimated time seems too large"));;
  inr tt.

Definition validateSubtask (body : SubtaskBody) : Result unit :=
  let title := default EmptyString (sb_title body) in
  _ <- throwIf (negb (truthy title)) (ApiError 400 "Subtask title is required");;
  _ <- throwIf (bool_decide (String.length (trim title) = 0%nat))
         (ApiError 400 "Subtask title cannot be empty");;
  _ <- throwIf (bool_decide (String.length title < 3)%nat)
         (ApiError 400 "Subtask title must be at least 3 characters long");;
  _ <- throwIf (bool_decide (200 < String.length title)%nat)
         (ApiError 400 "Subtask title cannot exceed 200 characters");;
  _ <- whenDefined (sb_description body) (λ description,
         throwIf (bool_decide (1000 < String.length description)%nat)
           (ApiError 400 "Subtask description cannot exceed 1000 characters"));;
  _ <- whenDefined (sb_estimatedTime body) (λ estimatedTime,
         throwIf (bool_decide (estimatedTime < 0))
           (ApiError 400 "Estimated time cannot be negative"));;
  inr tt.

(** [typeof timeSpent !== 'number'] and [Number.isInteger] hold by type. *)
Definition validateTimeTracking (timeSpent : option Z) : Result unit :=
  match timeSpent with
  | None => inl (ApiError 400 "Time spent is required")
  | Some timeSpent =>
      _ <- throwIf (bool_decide (timeSpent ≤ 0))
             (ApiError 400 "Time spent must be greater than 0");;
      _ <- throwIf (bool_decide (1440 < timeSpent))
             (ApiError 400 "Time spent cannot exceed 24 hours (1440 minutes)");;
      inr tt
  end.

(** ** [controllers/todo.controller.js]: reads *)

Definition isOwner (todo : Todo) (reqUserId : string) : bool :=
  bool_decide (userId todo = reqUserId).

Definition isSharedWith (todo : Todo) (reqUserId : string) : bool :=
  existsb (λ s, bool_decide (sh_userId s = reqUserId)) (sharedWith todo).

Definition sortObj (sortBy : string) : SortSpec :=
  if bool_decide (sortBy = "dueDate") then DueDateAsc
  else if bool_decide (sortBy = "priority") then PriorityDesc
  else if bool_decide (sortBy = "createdAt") then CreatedAtDesc
  else Unsorted.

Definition getAllTodos (db : DB) (reqUserId : string)
    (q_status : option Status) (q_priority : option Priority)
    (q_category : option string) (sortBy : option string) : list Todo :=
  exec (sortObj (default "createdAt" sortBy))
    (find db (λ t,
       bool_decide (userId t = reqUserId)
       && bool_decide (isDeleted t = false)
       && bool_decide (parentId t = None)
       && from_option (λ st, bool_decide (status t = st)) true q_status
       && from_option (λ p, bool_decide (priority t = p)) true q_priority
       && (if truthy (default EmptyString q_category)
           then bool_decide (Some (category t) = q_category) else true))).

Definition getTodosByStatus (db : DB) (reqUserId : string) (st : Status) : list Todo :=
  exec CreatedAtDesc (findByUserAndStatus db reqUserId st).

Definition getOverdueTodos (now : Z) (db : DB) (reqUserId : string) : list Todo :=
  exec DueDateAsc (findOverdue now db reqUserId).

Definition getTodosByPriority (db : DB) (reqUserId : string) (p : Priority) : list Todo :=
  exec DueDateAsc (findByPriority db reqUserId p).

Definition getArchivedTodos (db : DB) (reqUserId : string) : list Todo :=
  exec UpdatedAtDesc
    (find db (λ t, bool_decide (userId t = reqUserId) && bool_decide (isArchived t = true)
                   && bool_decide (isDeleted t = false))).

(** The counts of [getTodoStats]; [completionPercentage] is a rounded
    floating-point quotient of two of them and is not carried. *)
Record Stats := mkStats {
  st_total : nat;
  st_todo : nat;
  st_inProgress : nat;
  st_completed : nat;
  st_blocked : nat;
  st_overdue : nat;
  st_urgent : nat
}.

Definition countByStatus (db : DB) (reqUserId : string) (st : Status) : nat :=
  countDocuments db (λ t, bool_decide (userId t = reqUserId) && bool_decide (status t = st)
                          && bool_decide (isDeleted t = false)).

Definition getTodoStats (now : Z) (db : DB) (reqUserId : string) : Stats :=
  let todoCount := countByStatus db reqUserId St_todo in
  let inProgressCount := countByStatus db reqUserId St_in_progress in
  let completedCount := countByStatus db reqUserId St_completed in
  let blockedCount := countByStatus db reqUserId St_blocked in
  let overdueCount := exec Unsorted (findOverdue now db reqUserId) in
  let urgentTodos :=
    exec Unsorted
      (find db (λ t, bool_decide (userId t = reqUserId) && bool_decide (priority t = Urgent)
                     && bool_decide (completed t = false)
                     && bool_decide (isDeleted t = false))) in
  {| st_total := todoCount + inProgressCount + completedCount + blockedCount;
     st_todo := todoCount; st_inProgress := inProgressCount;
     st_completed := completedCount; st_blocked := blockedCount;
     st_overdue := length overdueCount; st_urgent := length urgentTodos |}.

(** [startOfDay] and [endOfDay] are the bounds [setHours] computes from the
    clock; they are arguments. *)
Definition getTodayTodos (startOfDay endOfDay : Z) (db : DB) (reqUserId : string) : list Todo :=
  exec PriorityDesc
    (find db (λ t, bool_decide (userId t = reqUserId)
                   && from_option (λ d, bool_decide (startOfDay ≤ d) && bool_decide (d ≤ endOfDay))
                        false (dueDate t)
                   && bool_decide (isDeleted t = false))).

Definition getTodosByTag (db : DB) (reqUserId tag : string) : list Todo :=
  exec CreatedAtDesc
    (find db (λ t, bool_decide (userId t = reqUserId) && bool_decide (tag ∈ tags t)
                   && bool_decide (isDeleted t = false))).

(** [Todo.distinct('tags', filter)] *)
Definition getAllTags (db : DB) (reqUserId : string) : gset string :=
  list_to_set
    (concat (tags <$>
       exec Unsorted
         (find db (λ t, bool_decide (userId t = reqUserId)
                        && bool_decide (isDeleted t = false))))).

(** [regexTest pattern s] stands for the match of [{ $regex: pattern,
    $options: 'i' }] against [s], which the database evaluates. *)
Definition searchTodos (regexTest : string -> string -> bool)
    (db : DB) (reqUserId query : string) : Result (list Todo) :=
  _ <- throwIf (negb (truthy query) || bool_decide (String.length (trim query) < 2)%nat)
         (ApiError 400 "Search query must be at least 2 characters");;
  inr (exec CreatedAtDesc
         (find db (λ t, bool_decide (userId t = reqUserId)
                        && bool_decide (isDeleted t = false)
                        && (regexTest query (title t)
                            || regexTest query (description t)
                            || existsb (regexTest query) (tags t))))).

(** ** [controllers/todo.controller.js]: creation *)

Definition pushActivity (entry : ActivityEntry) (todo : Todo) : Todo :=
  todo <| activityLog := activityLog todo ++ [entry] |>.

Definition createTodo (now : Z) (newId : string) (db : DB) (reqUserId : string)
    (body : TodoBody) : Result (Todo * DB) :=
  let title_ := default EmptyString (b_title body) in
  _ <- throwIf (negb (truthy title_)) (ApiError 400 "Todo title is required");;
  create now db
    (newTodo newId now reqUserId title_ (orElse (b_description body) EmptyString)
       <| priority := default Medium (b_priority body) |>
       <| dueDate := b_dueDate body |>
       <| category := orElse (b_category body) "general" |>
       <| tags := default [] (b_tags body) |>
       <| status := St_todo |>
       <| activityLog := [mkActivityEntry Created reqUserId None now] |>).

Definition addSubtask (now : Z) (newId : string) (db : DB) (reqUserId todoId : string)
    (body : SubtaskBody) : Result (Todo * DB) :=
  let title_ := default EmptyString (sb_title body) in
  _ <- throwIf (negb (truthy title_)) (ApiError 400 "Subtask title is required");;
  todo <- orNotFound (todos db !! todoId) "Todo not found";;
  _ <- throwIf (negb (isOwner todo reqUserId) && negb (isSharedWith todo reqUserId))
         (ApiError 403 "Permission denied");;
  let newSubtask :=
    SubDoc {| s_id := newId; s_title := trim title_;
              s_description := trim (orElse (sb_description body) EmptyString);
              s_status := St_todo; s_priority := default Medium (sb_priority body);
              s_completed := false; s_completedAt := None; s_dueDate := sb_dueDate body;
              s_estimatedTime := 0; s_actualTime := 0; s_tags := [];
              s_isArchived := false; s_order := 0 |} [] in
  let todo := todo <| subtasks := subtasks todo ++ [newSubtask] |> in
  let todo :=
    pushActivity (mkActivityEntry Updated reqUserId
                    (Some [("added", Plain (VStr "subtask"))]) now) todo in
  save now db todo.

(** ** Updates *)

(** The body of [updateTodo] between the permission check and the log. The
    state is the document and the [changes] object; each [if] of the source
    is one step, which assigns a path and records its [{ old, new }] pair. *)
Definition PatchState : Type := Todo * list (string * Change).

Definition patchPath (cond : bool) (assign : Todo -> Todo) (key : string)
    (old new : Val) (s : PatchState) : PatchState :=
  if cond then (assign s.1, s.2 ++ [(key, OldNew old new)]) else s.

Definition patchTitle (value : option string) (s : PatchState) : PatchState :=
  match value with
  | Some title_ =>
      patchPath (truthy title_ && negb (bool_decide (title_ = title s.1)))
        (λ todo, todo <| title := trim title_ |>)
        "title" (VStr (title s.1)) (VStr title_) s
  | None => s
  end.

Definition patchDescription (value : option string) (s : PatchState) : PatchState :=
  match value with
  | Some description_ =>
      patchPath (negb (bool_decide (description_ = description s.1)))
        (λ todo, todo <| description := trim description_ |>)
        "description" (VStr (description s.1)) (VStr description_) s
  | None => s
  end.

Definition patchStatus (value : option Status) (s : PatchState) : PatchState :=
  match value with
  | Some status_ =>
      patchPath (negb (bool_decide (status_ = status s.1)))
        (λ todo, todo <| status := status_ |>)
        "status" (VStatus (status s.1)) (VStatus status_) s
  | None => s
  end.

Definition patchPriority (value : option Priority) (s : PatchState) : PatchState :=
  match value with
  | Some priority_ =>
      patchPath (negb (bool_decide (priority_ = priority s.1)))
        (λ todo, todo <| priority := priority_ |>)
        "priority" (VPriority (priority s.1)) (VPriority priority_) s
  | None => s
  end.

Definition patchDueDate (value : option Z) (s : PatchState) : PatchState :=
  match value with
  | Some dueDate_ =>
      patchPath true (λ todo, todo <| dueDate := Some dueDate_ |>)
        "dueDate" (VDate (dueDate s.1)) (VDate (Some dueDate_)) s
  | None => s
  end.

Definition patchCategory (value : option string) (s : PatchState) : PatchState :=
  match value with
  | Some category_ =>
      patchPath (truthy category_ && negb (bool_decide (category_ = category s.1)))
        (λ todo, todo <| category := trim category_ |>)
        "category" (VStr (category s.1)) (VStr category_) s
  | None => s
  end.

Definition patchTags (value : option (list string)) (s : PatchState) : PatchState :=
  match value with
  | Some tags_ =>
      patchPath true (λ todo, todo <| tags := trim <$> tags_ |>)
        "tags" (VTags (tags s.1)) (VTags tags_) s
  | None => s
  end.

Definition patchLabel (value : option (option string)) (s : PatchState) : PatchState :=
  match value with
  | Some label_ =>
      patchPath (negb (bool_decide (label_ = label s.1)))
        (λ todo, todo <| label := label_ |>)
        "label" (VLabel (label s.1)) (VLabel label_) s
  | None => s
  end.

Definition applyTodoBody (body : TodoBody) (todo : Todo) : PatchState :=
  patchLabel (b_label body)
    (patchTags (b_tags body)
       (patchCategory (b_category body)
          (patchDueDate (b_dueDate body)
             (patchPriority (b_priority body)
                (patchStatus (b_status body)
                   (patchDescription (b_description body)
                      (patchTitle (b_title body) (todo, [])))))))).

Definition updateTodo (now : Z) (db : DB) (reqUserId todoId : string)
    (body : TodoBody) : Result (Todo * DB) :=
  todo <- orNotFound (todos db !! todoId) "Todo not found";;
  _ <- throwIf (negb (isOwner todo reqUserId)) (ApiError 403 "Permission denied");;
  let '(todo, changes) := applyTodoBody body todo in
  let todo :=
    if bool_decide (0 < length changes)%nat
    then pushActivity (mkActivityEntry Updated reqUserId (Some changes) now) todo
    else todo in
  save now db todo.

(** The assignments of [findAndUpdateSubtask] to the matched [subtasks[i]]. *)
Definition applySubtaskBody (now : Z) (body : SubtaskBody) (f : SubFields) : SubFields :=
  let f :=
    match sb_title body with
    | Some title_ => if truthy title_ then f <| s_title := trim title_ |> else f
    | None => f
    end in
  let f :=
    match sb_description body with
    | Some description_ => f <| s_description := trim description_ |>
    | None => f
    end in
  let f := match sb_status body with Some status_ => f <| s_status := status_ |> | None => f end in
  let f :=
    match sb_priority body with Some priority_ => f <| s_priority := priority_ |> | None => f end in
  let f :=
    match sb_dueDate body with Some dueDate_ => f <| s_dueDate := Some dueDate_ |> | None => f end in
  match sb_completed body with
  | Some completed_ =>
      let f := f <| s_completed := completed_ |> in
      if completed_ then f <| s_completedAt := Some now |> else f
  | None => f
  end.

(** A [for] loop over an array whose body may [return true]: [body] gives
    the element as the iteration leaves it, and whether it returned. When no
    iteration returns, the loop runs out and the function returns [false]. *)
Section for_loop.
Context {A : Type} (body : A -> bool * A).

Fixpoint forReturn (array : list A) : bool * list A :=
  match array with
  | [] => (false, [])
  | x :: rest =>
      let '(returned, x') := body x in
      if returned then (true, x' :: rest)
      else let '(found, rest') := forReturn rest in (found, x' :: rest')
  end.

End for_loop.

(** One iteration of [findAndUpdateSubtask] on [subtasks[i]]. *)
Fixpoint findAndUpdateSubtask_at (now : Z) (body : SubtaskBody) (id : string)
    (task : SubTodo) {struct task} : bool * SubTodo :=
  match task with
  | SubDoc f kids =>
      if bool_decide (s_id f = id) then (true, SubDoc (applySubtaskBody now body f) kids)
      else
        match kids with
        | [] => (false, task)
        | _ :: _ =>
            let '(found, kids') := forReturn (findAndUpdateSubtask_at now body id) kids in
            (found, SubDoc f kids')
        end
  end.

Definition findAndUpdateSubtask (now : Z) (body : SubtaskBody)
    (subtasks : list SubTodo) (id : string) : bool * list SubTodo :=
  forReturn (findAndUpdateSubtask_at now body id) subtasks.

Definition updateSubtask (now : Z) (db : DB) (reqUserId todoId subtaskId : string)
    (body : SubtaskBody) : Result (Todo * DB) :=
  todo <- orNotFound (todos db !! todoId) "Todo not found";;
  _ <- throwIf (negb (isOwner todo reqUserId)) (ApiError 403 "Permission denied");;
  let '(found, subtasks') := findAndUpdateSubtask now body (subtasks todo) subtaskId in
  _ <- throwIf (negb found) (ApiError 404 "Subtask not found");;
  let todo := todo <| subtasks := subtasks' |> in
  let todo :=
    pushActivity (mkActivityEntry Updated reqUserId
                    (Some [("updated", Plain (VStr "subtask"))]) now) todo in
  save now db todo.

Definition completeTodo (now : Z) (db : DB) (reqUserId todoId : string)
    : Result (Todo * DB) :=
  todo <- orNotFound (todos db !! todoId) "Todo not found";;
  _ <- throwIf (negb (isOwner todo reqUserId)) (ApiError 403 "Permission denied");;
  saved <- complete now db todo;;
  let todo := pushActivity (mkActivityEntry Completed reqUserId None now) saved.1 in
  save now saved.2 todo.

Definition incompleteTodo (now : Z) (db : DB) (reqUserId todoId : string)
    : Result (Todo * DB) :=
  todo <- orNotFound (todos db !! todoId) "Todo not found";;
  _ <- throwIf (negb (isOwner todo reqUserId)) (ApiError 403 "Permission denied");;
  incomplete now db todo.

(** ** Time tracking *)

Definition logTimeSpent (now : Z) (db : DB) (reqUserId todoId : string)
    (timeSpent : option Z) : Result (Todo * DB) :=
  _ <- throwIf (match timeSpent with
                | None => true
                | Some n => bool_decide (n = 0) || bool_decide (n ≤ 0)
                end)
         (ApiError 400 "Time spent must be greater than 0");;
  let timeSpent := default 0 timeSpent in
  todo <- orNotFound (todos db !! todoId) "Todo not found";;
  _ <- throwIf (negb (isOwner todo reqUserId)) (ApiError 403 "Permission denied");;
  let todo := todo <| actualTime := actualTime todo + timeSpent |> in
  let todo :=
    pushActivity (mkActivityEntry Updated reqUserId
                    (Some [("timeLogged", Plain (VNum timeSpent))]) now) todo in
  save now db todo.

(** ** Comments and attachments *)

Definition addComment (now : Z) (newId : string) (db : DB) (reqUserId todoId : string)
    (text : option string) (mentions : option (list string)) : Result (Todo * DB) :=
  let text := default EmptyString text in
  _ <- throwIf (negb (truthy text) || bool_decide (String.length (trim text) = 0%nat))
         (ApiError 400 "Comment text is required");;
  todo <- orNotFound (todos db !! todoId) "Todo not found";;
  _ <- throwIf (negb (isOwner todo reqUserId) && negb (isSharedWith todo reqUserId))
         (ApiError 403 "Permission denied");;
  let newComment :=
    {| c_id := newId; c_userId := reqUserId; c_text := text;
       c_mentions := default [] mentions; c_createdAt := now; c_updatedAt := None |} in
  let todo := todo <| comments := comments todo ++ [newComment] |> in
  let todo := pushActivity (mkActivityEntry Commented reqUserId None now) todo in
  save now db todo.

Definition updateComment (now : Z) (db : DB) (reqUserId todoId commentId : string)
    (text : option string) : Result (Todo * DB) :=
  let text := default EmptyString text in
  _ <- throwIf (negb (truthy text) || bool_decide (String.length (trim text) = 0%nat))
         (ApiError 400 "Comment text is required");;
  todo <- orNotFound (todos db !! todoId) "Todo not found";;
  _ <- throwIf (negb (isOwner todo reqUserId)) (ApiError 403 "Permission denied");;
  found <- orNotFound (list_find (λ c, c_id c = commentId) (comments todo))
             "Comment not found";;
  let '(i, comment) := found in
  _ <- throwIf (negb (bool_decide (c_userId comment = reqUserId)))
         (ApiError 403 "You can only edit your own comments");;
  let comment :=
    {| c_id := c_id comment; c_userId := c_userId comment; c_text := text;
       c_mentions := c_mentions comment; c_createdAt := c_createdAt comment;
       c_updatedAt := Some now |} in
  save now db (todo <| comments := <[i := comment]> (comments todo) |>).

Definition deleteComment (now : Z) (db : DB) (reqUserId todoId commentId : string)
    : Result (Todo * DB) :=
  todo <- orNotFound (todos db !! todoId) "Todo not found";;
  _ <- throwIf (negb (isOwner todo reqUserId)) (ApiError 403 "Permission denied");;
  found <- orNotFound (list_find (λ c, c_id c = commentId) (comments todo))
             "Comment not found";;
  _ <- throwIf (negb (bool_decide (c_userId found.2 = reqUserId)))
         (ApiError 403 "You can only delete your own comments");;
  save now db (todo <| comments := filter (λ c, c_id c ≠ commentId) (comments todo) |>).

Record AttachmentBody := mkAttachmentBody {
  ab_url : option string;
  ab_fileName : option string;
  ab_fileType : option string;
  ab_fileSize : option Z
}.

Definition addAttachment (now : Z) (newId : string) (db : DB) (reqUserId todoId : string)
    (body : AttachmentBody) : Result (Todo * DB) :=
  _ <- throwIf (negb (truthy (default EmptyString (ab_url body)))
                || negb (truthy (default EmptyString (ab_fileName body))))
         (ApiError 400 "URL and file name are required");;
  todo <- orNotFound (todos db !! todoId) "Todo not found";;
  _ <- throwIf (negb (isOwner todo reqUserId)) (ApiError 403 "Permission denied");;
  let attachment :=
    {| at_id := newId; url := default EmptyString (ab_url body);
       fileName := default EmptyString (ab_fileName body);
       fileType := orElse (ab_fileType body) "file";
       fileSize := default 0 (ab_fileSize body);
       uploadedBy := reqUserId; uploadedAt := now |} in
  save now db (todo <| attachments := attachments todo ++ [attachment] |>).

Definition deleteAttachment (now : Z) (db : DB) (reqUserId todoId attachmentId : string)
    : Result (Todo * DB) :=
  todo <- orNotFound (todos db !! todoId) "Todo not found";;
  _ <- throwIf (negb (isOwner todo reqUserId)) (ApiError 403 "Permission denied");;
  save now db
    (todo <| attachments := filter (λ a, at_id a ≠ attachmentId) (attachments todo) |>).

(** ** Sharing *)

Definition shareTodo (now : Z) (db : DB) (currentUserId todoId : string)
    (shareWithUserId : option string) (permissions_ : option Permission)
    : Result (Todo * DB) :=
  let shareWithUserId := default EmptyString shareWithUserId in
  let permissions_ := default View permissions_ in
  _ <- throwIf (negb (truthy shareWithUserId)) (ApiError 400 "User ID is required");;
  todo <- orNotFound (todos db !! todoId) "Todo not found";;
  _ <- throwIf (negb (isOwner todo currentUserId)) (ApiError 403 "Permission denied");;
  let alreadyShared := isSharedWith todo shareWithUserId in
  _ <- throwIf alreadyShared (ApiError 400 "Todo already shared with this user");;
  _ <- throwIf (negb (bool_decide (shareWithUserId ∈ users db)))
         (ApiError 404 "User not found");;
  save now db
    (todo <| sharedWith :=
       sharedWith todo ++ [mkShareEntry shareWithUserId permissions_ now] |>).

Definition revokeTodoShare (now : Z) (db : DB) (currentUserId todoId shareWithUserId : string)
    : Result (Todo * DB) :=
  todo <- orNotFound (todos db !! todoId) "Todo not found";;
  _ <- throwIf (negb (isOwner todo currentUserId)) (ApiError 403 "Permission denied");;
  save now db
    (todo <| sharedWith := filter (λ s, sh_userId s ≠ shareWithUserId) (sharedWith todo) |>).

(** ** Archiving and deletion *)

Definition archiveTodo (now : Z) (db : DB) (reqUserId todoId : string) : Result (Todo * DB) :=
  todo <- orNotFound (todos db !! todoId) "Todo not found";;
  _ <- throwIf (negb (isOwner todo reqUserId)) (ApiError 403 "Permission denied");;
  save now db (todo <| isArchived := true |>).

Definition unarchiveTodo (now : Z) (db : DB) (reqUserId todoId : string)
    : Result (Todo * DB) :=
  todo <- orNotFound (todos db !! todoId) "Todo not found";;
  _ <- throwIf (negb (isOwner todo reqUserId)) (ApiError 403 "Permission denied");;
  save now db (todo <| isArchived := false |>).

Definition deleteTodo (now : Z) (db : DB) (reqUserId todoId : string) : Result DB :=
  todo <- orNotFound (todos db !! todoId) "Todo not found";;
  _ <- throwIf (negb (isOwner todo reqUserId)) (ApiError 403 "Permission denied");;
  inr (softDelete now db todoId).

(** One iteration of [deleteSubtaskHelper]: [None] when [subtasks[i]] is the
    node to splice out, otherwise the node as the recursive call leaves it
    and whether that call removed something. *)
Section splice_loop.
Context {A : Type} (body : A -> option (bool * A)).

Fixpoint forSplice (array : list A) : bool * list A :=
  match array with
  | [] => (false, [])
  | x :: rest =>
      match body x with
      | None => (true, rest)
      | Some (returned, x') =>
          if returned then (true, x' :: rest)
          else let '(found, rest') := forSplice rest in (found, x' :: rest')
      end
  end.

End splice_loop.

Fixpoint deleteSubtaskHelper_at (id : string) (task : SubTodo) {struct task}
    : option (bool * SubTodo) :=
  match task with
  | SubDoc f kids =>
      if bool_decide (s_id f = id) then None
      else
        match kids with
        | [] => Some (false, task)
        | _ :: _ =>
            let '(deleted, kids') := forSplice (deleteSubtaskHelper_at id) kids in
            Some (deleted, SubDoc f kids')
        end
  end.

Definition deleteSubtaskHelper (subtasks : list SubTodo) (id : string)
    : bool * list SubTodo :=
  forSplice (deleteSubtaskHelper_at id) subtasks.

Definition deleteSubtask (now : Z) (db : DB) (reqUserId todoId subtaskId : string)
    : Result (Todo * DB) :=
  todo <- orNotFound (todos db !! todoId) "Todo not found";;
  _ <- throwIf (negb (isOwner todo reqUserId)) (ApiError 403 "Permission denied");;
  let '(deleted, subtasks') := deleteSubtaskHelper (subtasks todo) subtaskId in
  _ <- throwIf (negb deleted) (ApiError 404 "Subtask not found");;
  save now db (todo <| subtasks := subtasks' |>).

(** ** Assignment and watchers *)

Definition assignTodo (now : Z) (db : DB) (reqUserId todoId : string)
    (assigneeId : option string) : Result (Todo * DB) :=
  let assigneeId := default EmptyString assigneeId in
  _ <- throwIf (negb (truthy assigneeId)) (ApiError 400 "Assignee ID is required");;
  todo <- orNotFound (todos db !! todoId) "Todo not found";;
  _ <- throwIf (negb (isOwner todo reqUserId)) (ApiError 403 "Permission denied");;
  _ <- throwIf (negb (bool_decide (assigneeId ∈ users db)))
         (ApiError 404 "Assignee not found");;
  let oldAssignee := assignee todo in
  let todo := todo <| assignee := Some assigneeId |> in
  let todo :=
    pushActivity (mkActivityEntry Assigned reqUserId
                    (Some [("from", Plain (VLabel oldAssignee));
                           ("to", Plain (VStr assigneeId))]) now) todo in
  save now db todo.

Definition unassignTodo (now : Z) (db : DB) (reqUserId todoId : string)
    : Result (Todo * DB) :=
  todo <- orNotFound (todos db !! todoId) "Todo not found";;
  _ <- throwIf (negb (isOwner todo reqUserId)) (ApiError 403 "Permission denied");;
  let todo := todo <| assignee := None |> in
  let todo :=
    pushActivity (mkActivityEntry Updated reqUserId
                    (Some [("assignee", Plain (VStr "unassigned"))]) now) todo in
  save now db todo.

Definition addWatcher (now : Z) (db : DB) (reqUserId todoId : string)
    (watcherId : option string) : Result (Todo * DB) :=
  let watcherId := default EmptyString watcherId in
  _ <- throwIf (negb (truthy watcherId)) (ApiError 400 "Watcher ID is required");;
  todo <- orNotFound (todos db !! todoId) "Todo not found";;
  _ <- throwIf (negb (isOwner todo reqUserId) && negb (isSharedWith todo reqUserId))
         (ApiError 403 "Permission denied");;
  _ <- throwIf (negb (bool_decide (watcherId ∈ users db)))
         (ApiError 404 "Watcher not found");;
  _ <- throwIf (bool_decide (watcherId ∈ watchers todo))
         (ApiError 400 "User is already watching this todo");;
  save now db (todo <| watchers := watchers todo ++ [watcherId] |>).

Definition removeWatcher (now : Z) (db : DB) (reqUserId todoId watcherId : string)
    : Result (Todo * DB) :=
  todo <- orNotFound (todos db !! todoId) "Todo not found";;
  _ <- throwIf (negb (isOwner todo reqUserId) && negb (isSharedWith todo reqUserId))
         (ApiError 403 "Permission denied");;
  save now db (todo <| watchers := filter (λ w, w ≠ watcherId) (watchers todo) |>).

(** ** Duplication *)

(** [JSON.parse(JSON.stringify(subtasks))]: every node of the forest is
    written out path by path and read back into a new object. *)
Fixpoint jsonClone_at (task : SubTodo) : SubTodo :=
  match task with
  | SubDoc f kids => SubDoc (SubFields_eta f) (map jsonClone_at kids)
  end.

Definition jsonClone (subtasks : list SubTodo) : list SubTodo :=
  map jsonClone_at subtasks.

Definition duplicateTodo (now : Z) (newId : string) (db : DB) (reqUserId todoId : string)
    : Result (Todo * DB) :=
  originalTodo <- orNotFound (todos db !! todoId) "Todo not found";;
  _ <- throwIf (negb (isOwner originalTodo reqUserId)) (ApiError 403 "Permission denied");;
  create now db
    (newTodo newId now reqUserId (title originalTodo +:+ " (Copy)")
       (description originalTodo)
       <| priority := priority originalTodo |>
       <| category := category originalTodo |>
       <| tags := tags originalTodo |>
       <| estimatedTime := estimatedTime originalTodo |>
       <| subtasks := jsonClone (subtasks originalTodo) |>
       <| activityLog := [mkActivityEntry Created reqUserId None now] |>).

(** ** [routes/todo.route.js]

    The requests that change one todo, addressed by [:todoId]. Every route
    runs [authenticate], which supplies [req.userId]; the table puts
    [validateTodo] before [updateTodo] and [validateSubtask] before
    [addSubtask] and [updateSubtask], and no other validator anywhere. *)

Inductive Mutation :=
  | PATCH_todo (body : TodoBody)
  | DELETE_todo
  | POST_subtasks (body : SubtaskBody)
  | PATCH_subtask (subtaskId : string) (body : SubtaskBody)
  | DELETE_subtask (subtaskId : string)
  | PATCH_complete
  | PATCH_incomplete
  | POST_time_tracking (timeSpent : option Z)
  | POST_comments (text : option string) (mentions : option (list string))
  | PATCH_comment (commentId : string) (text : option string)
  | DELETE_comment (commentId : string)
  | POST_attachments (body : AttachmentBody)
  | DELETE_attachment (attachmentId : string)
  | POST_share (shareWithUserId : option string) (permissions_ : option Permission)
  | DELETE_share (shareWithUserId : string)
  | PATCH_archive
  | PATCH_unarchive
  | PATCH_assign (assigneeId : option string)
  | PATCH_unassign
  | POST_watchers (watcherId : option string)
  | DELETE_watcher (watcherId : string)
  | POST_duplicate.

Definition stored (r : Result (Todo * DB)) : Result DB :=
  saved <- r;; inr saved.2.

Definition route (now : Z) (newId : string) (db : DB) (reqUserId todoId : string)
    (request : Mutation) : Result DB :=
  match request with
  | PATCH_todo body =>
      _ <- validateTodo now body;; stored (updateTodo now db reqUserId todoId body)
  | DELETE_todo => deleteTodo now db reqUserId todoId
  | POST_subtasks body =>
      _ <- validateSubtask body;; stored (addSubtask now newId db reqUserId todoId body)
  | PATCH_subtask subtaskId body =>
      _ <- validateSubtask body;;
      stored (updateSubtask now db reqUserId todoId subtaskId body)
  | DELETE_subtask subtaskId => stored (deleteSubtask now db reqUserId todoId subtaskId)
  | PATCH_complete => stored (completeTodo now db reqUserId todoId)
  | PATCH_incomplete => stored (incompleteTodo now db reqUserId todoId)
  | POST_time_tracking timeSpent => stored (logTimeSpent now db reqUserId todoId timeSpent)
  | POST_comments text mentions =>
      stored (addComment now newId db reqUserId todoId text mentions)
  | PATCH_comment commentId text =>
      stored (updateComment now db reqUserId todoId commentId text)
  | DELETE_comment commentId => stored (deleteComment now db reqUserId todoId commentId)
  | POST_attachments body => stored (addAttachment now newId db reqUserId todoId body)
  | DELETE_attachment attachmentId =>
      stored (deleteAttachment now db reqUserId todoId attachmentId)
  | POST_share shareWithUserId permissions_ =>
      stored (shareTodo now db reqUserId todoId shareWithUserId permissions_)
  | DELETE_share shareWithUserId =>
      stored (revokeTodoShare now db reqUserId todoId shareWithUserId)
  | PATCH_archive => stored (archiveTodo now db reqUserId todoId)
  | PATCH_unarchive => stored (unarchiveTodo now db reqUserId todoId)
  | PATCH_assign assigneeId => stored (assignTodo now db reqUserId todoId assigneeId)
  | PATCH_unassign => stored (unassignTodo now db reqUserId todoId)
  | POST_watchers watcherId => stored (addWatcher now db reqUserId todoId watcherId)
  | DELETE_watcher watcherId => stored (removeWatcher now db reqUserId todoId watcherId)
  | POST_duplicate => stored (duplicateTodo now newId db reqUserId todoId)
  end.

(** The status code the client receives. *)
Definition statusOf {A : Type} (ok : Z) (r : Result A) : Z :=
  match r with
  | inl err => errorHandler err
  | inr _ => ok
  end.

(** ** Notions of the specification *)

(** The nodes of a subtask forest at every depth, a node before its children
    and its children before its next sibling. *)
Fixpoint tree_nodes (task : SubTodo) : list SubFields :=
  match task with
  | SubDoc f kids => f :: concat (map tree_nodes kids)
  end.

Definition forest_nodes (tasks : list SubTodo) : list SubFields :=
  concat (map tree_nodes tasks).

Definition count_completed (nodes : list SubFields) : nat :=
  length (filter (λ f, s_completed f = true) nodes).

(** The same traversal, each node with the number of its children: the
    sequence fixes the forest, shape and content. *)
Fixpoint traversal_at (task : SubTodo) : list (SubFields * nat) :=
  match task with
  | SubDoc f kids => (f, length kids) :: concat (map traversal_at kids)
  end.

Definition traversal (tasks : list SubTodo) : list (SubFields * nat) :=
  concat (map traversal_at tasks).

(** Apply [g] to the first element that satisfies [P], if there is one. *)
Fixpoint updateFirst {A : Type} (P : A -> bool) (g : A -> A) (l : list A) : list A :=
  match l with
  | [] => []
  | x :: rest => if P x then g x :: rest else x :: updateFirst P g rest
  end.

Definition hasId (id : string) (node : SubFields * nat) : bool :=
  bool_decide (s_id node.1 = id).

(** The collection with one document physically removed. *)
Definition without (todoId : string) (db : DB) : DB :=
  withTodos db (delete todoId (todos db)).

(** Every key of the collection is the [_id] of its document. *)
Definition keyed (db : DB) : Prop :=
  ∀ k doc, todos db !! k = Some doc → _id doc = k.

(** The read operations of the controller, and what they return. *)
Inductive Query :=
  | GET_todos (q_status : option Status) (q_priority : option Priority)
      (q_category : option string) (sortBy : option string)
  | GET_status (st : Status)
  | GET_overdue
  | GET_priority (p : Priority)
  | GET_archived
  | GET_stats
  | GET_today (startOfDay endOfDay : Z)
  | GET_tags (tag : string)
  | GET_all_tags
  | GET_search (query : string).

Inductive Answer :=
  | Docs (docs : list Todo)
  | Counts (stats : Stats)
  | TagSet (tags : gset string)
  | Rejected (err : Error).

Definition answer (regexTest : string -> string -> bool) (now : Z) (db : DB)
    (reqUserId : string) (q : Query) : Answer :=
  match q with
  | GET_todos q_status q_priority q_category sortBy =>
      Docs (getAllTodos db reqUserId q_status q_priority q_category sortBy)
  | GET_status st => Docs (getTodosByStatus db reqUserId st)
  | GET_overdue => Docs (getOverdueTodos now db reqUserId)
  | GET_priority p => Docs (getTodosByPriority db reqUserId p)
  | GET_archived => Docs (getArchivedTodos db reqUserId)
  | GET_stats => Counts (getTodoStats now db reqUserId)
  | GET_today startOfDay endOfDay => Docs (getTodayTodos startOfDay endOfDay db reqUserId)
  | GET_tags tag => Docs (getTodosByTag db reqUserId tag)
  | GET_all_tags => TagSet (getAllTags db reqUserId)
  | GET_search query =>
      match searchTodos regexTest db reqUserId query with
      | inl err => Rejected err
      | inr docs => Docs docs
      end
  end.

(** * The rest of the service

    The virtual paths of [todoSchema], the two controllers that read one todo
    through a projection or a population, the bulk deletion, the route table
    as Express walks it, the attempt counter of [middlewares/auth.middleware.js]
    and the refresh tokens of [models/user.model.js] with the controllers of
    [controllers/user.controller.js] that rotate and drop them. *)

(** ** Virtual paths of [todoSchema] *)

Definition totalSubtasks (doc : Todo) : nat := countSubtasks (subtasks doc).

(** [isOverdue]: a [Date] is truthy, so [!this.dueDate] holds of [null] alone. *)
Definition isOverdue (now : Z) (doc : Todo) : bool :=
  match dueDate doc with
  | None => false
  | Some dueDate_ => bool_decide (dueDate_ < now) && negb (completed doc)
  end.

(** [daysUntilDue]: [Math.ceil(diff / (1000 * 60 * 60 * 24))]. For two
    instants in the range of [Date] whose difference stays below 2^53 the
    subtraction is exact, and the double quotient of a [diff] that is no
    multiple of the divisor lies strictly between the integers around it, so
    [Math.ceil] gives the ceiling of the exact quotient. *)
Definition daysUntilDue (now : Z) (doc : Todo) : option Z :=
  match dueDate doc with
  | None => None
  | Some dueDate_ =>
      let diff := dueDate_ - now in
      Some (- ((- diff) / (1000 * 60 * 60 * 24)))
  end.

(** ** Errors the code does not throw itself

    Reading a property of [null] or [undefined] throws a [TypeError]. It has
    no [statusCode], so the global handler answers [error.statusCode || 500]. *)



(** ** [getTodoById]

    [populate(path, fields)] replaces the ObjectId at [path] by the document
    of the [User] collection it refers to, or by [null] when there is none.
    The controller calls [toString()] on what it finds there: on a document
    this is [Document.prototype.toString], the inspection string of the
    document, [inspect] of its id here. *)





(** ** [getActivityLog]

    [select('activityLog')]: the loaded document holds [_id] and the selected
    path, and every other path reads as [undefined]. *)




(** ** Bulk deletion

    [Model.updateMany(filter, update)]: every matching document is updated
    in place, without hooks or validators, [timestamps] stamping [updatedAt];
    [modifiedCount] counts the documents the update changed. *)

Definition updateMany (db : DB) (P : Todo -> bool) (update : Todo -> Todo) : nat * DB :=
  (size (filter (λ kv, P kv.2 = true ∧ update kv.2 ≠ kv.2) (todos db)),
   withTodos db ((λ doc, if P doc then update doc else doc) <$> todos db)).

(** The filter [{ _id: { $in: todoIds }, userId }]. *)
Definition ownedIn (todoIds : list string) (reqUserId : string) (doc : Todo) : bool :=
  bool_decide (_id doc ∈ todoIds) && bool_decide (userId doc = reqUserId).

Definition bulkDeleteTodos (now : Z) (db : DB) (reqUserId : string)
    (todoIds : option (list string)) : Result (nat * DB) :=
  let todoIds := default [] todoIds in
  _ <- throwIf (bool_decide (length todoIds = 0%nat))
         (ApiError 400 "Todo IDs array is required");;
  let todos_ := exec Unsorted (find db (ownedIn todoIds reqUserId)) in
  _ <- throwIf (negb (bool_decide (length todos_ = length todoIds)))
         (ApiError 403 "Some todos do not belong to you");;
  inr (updateMany db (ownedIn todoIds reqUserId)
         (λ doc, doc <| isDeleted := true |> <| deletedAt := Some now |>
                     <| updatedAt := now |>)).

(** ** [routes/todo.route.js] as Express walks it

    A router tries its routes in the order they were registered and hands
    the request to the first whose method and pattern match; no handler of
    this table passes a request on. A request path is the list of its
    segments below the mount point. A literal segment of a pattern matches
    without regard to case, the router being made with its default options;
    [:name] matches any one segment that is not empty and binds it. *)

Inductive Method := GET | POST | PATCH | DELETE.

Global Instance Method_eq_dec : EqDecision Method.
Proof. solve_decision. Defined.

Inductive Segment :=
  | Lit (text : string)
  | Param (name : string).

Inductive Handler :=
  | H_createTodo | H_getAllTodos | H_getTodoById | H_updateTodo | H_deleteTodo
  | H_addSubtask | H_updateSubtask | H_deleteSubtask | H_completeTodo | H_incompleteTodo
  | H_getTodosByStatus | H_getTodosByPriority | H_getOverdueTodos | H_logTimeSpent
  | H_addComment | H_updateComment | H_deleteComment | H_addAttachment
  | H_deleteAttachment | H_shareTodo | H_revokeTodoShare | H_archiveTodo
  | H_unarchiveTodo | H_getArchivedTodos | H_getTodosByTag | H_getAllTags
  | H_searchTodos | H_assignTodo | H_unassignTodo | H_addWatcher | H_removeWatcher
  | H_getActivityLog | H_getTodoStats | H_getTodayTodos | H_bulkUpdateTodos
  | H_bulkDeleteTodos | H_duplicateTodo.

Global Instance Handler_eq_dec : EqDecision Handler.
Proof. solve_decision. Defined.

Record Layer := mkLayer {
  l_method : Method;
  l_pattern : list Segment;
  l_handler : Handler
}.

Definition router : list Layer :=
  [ mkLayer POST [] H_createTodo;
    mkLayer GET [] H_getAllTodos;
    mkLayer GET [Param "todoId"] H_getTodoById;
    mkLayer PATCH [Param "todoId"] H_updateTodo;
    mkLayer DELETE [Param "todoId"] H_deleteTodo;
    mkLayer POST [Param "todoId"; Lit "subtasks"] H_addSubtask;
    mkLayer PATCH [Param "todoId"; Lit "subtasks"; Param "subtaskId"] H_updateSubtask;
    mkLayer DELETE [Param "todoId"; Lit "subtasks"; Param "subtaskId"] H_deleteSubtask;
    mkLayer PATCH [Param "todoId"; Lit "complete"] H_completeTodo;
    mkLayer PATCH [Param "todoId"; Lit "incomplete"] H_incompleteTodo;
    mkLayer GET [Lit "status"; Param "status"] H_getTodosByStatus;
    mkLayer GET [Lit "priority"; Param "priority"] H_getTodosByPriority;
    mkLayer GET [Lit "overdue"] H_getOverdueTodos;
    mkLayer POST [Param "todoId"; Lit "time-tracking"] H_logTimeSpent;
    mkLayer POST [Param "todoId"; Lit "comments"] H_addComment;
    mkLayer PATCH [Param "todoId"; Lit "comments"; Param "commentId"] H_updateComment;
    mkLayer DELETE [Param "todoId"; Lit "comments"; Param "commentId"] H_deleteComment;
    mkLayer POST [Param "todoId"; Lit "attachments"] H_addAttachment;
    mkLayer DELETE [Param "todoId"; Lit "attachments"; Param "attachmentId"]
      H_deleteAttachment;
    mkLayer POST [Param "todoId"; Lit "share"] H_shareTodo;
    mkLayer DELETE [Param "todoId"; Lit "share"; Param "shareWithUserId"] H_revokeTodoShare;
    mkLayer PATCH [Param "todoId"; Lit "archive"] H_archiveTodo;
    mkLayer PATCH [Param "todoId"; Lit "unarchive"] H_unarchiveTodo;
    mkLayer GET [Lit "archived"] H_getArchivedTodos;
    mkLayer GET [Lit "tags"; Param "tag"] H_getTodosByTag;
    mkLayer GET [Lit "all-tags"] H_getAllTags;
    mkLayer GET [Lit "search"; Param "query"] H_searchTodos;
    mkLayer PATCH [Param "todoId"; Lit "assign"] H_assignTodo;
    mkLayer PATCH [Param "todoId"; Lit "unassign"] H_unassignTodo;
    mkLayer POST [Param "todoId"; Lit "watchers"] H_addWatcher;
    mkLayer DELETE [Param "todoId"; Lit "watchers"; Param "watcherId"] H_removeWatcher;
    mkLayer GET [Param "todoId"; Lit "activity"] H_getActivityLog;
    mkLayer GET [Lit "stats"] H_getTodoStats;
    mkLayer GET [Lit "today"] H_getTodayTodos;
    mkLayer PATCH [Lit "bulk"; Lit "update"] H_bulkUpdateTodos;
    mkLayer DELETE [Lit "bulk"; Lit "delete"] H_bulkDeleteTodos;
    mkLayer POST [Param "todoId"; Lit "duplicate"] H_duplicateTodo ].

Definition toLowerCase_ascii (c : ascii) : ascii :=
  let n := nat_of_ascii c in
  if (65 <=? n)%nat && (n <=? 90)%nat then ascii_of_nat (n + 32) else c.

Fixpoint toLowerCase (s : string) : string :=
  match s with
  | String c r => String (toLowerCase_ascii c) (toLowerCase r)
  | EmptyString => EmptyString
  end.

(** The match of a pattern against a path, with the parameters it binds. *)
Fixpoint matchPath (pattern : list Segment) (path : list string)
    : option (list (string * string)) :=
  match pattern, path with
  | [], [] => Some []
  | Lit text :: pattern, seg :: path =>
      if bool_decide (toLowerCase seg = toLowerCase text) then matchPath pattern path
      else None
  | Param name :: pattern, seg :: path =>
      if bool_decide (seg = EmptyString) then None
      else
        match matchPath pattern path with
        | Some params => Some ((name, seg) :: params)
        | None => None
        end
  | _, _ => None
  end.

(** The handler a request reaches, with [req.params]. *)
Fixpoint dispatch (layers : list Layer) (method : Method) (path : list string)
    : option (Handler * list (string * string)) :=
  match layers with
  | [] => None
  | layer :: rest =>
      if bool_decide (l_method layer = method) then
        match matchPath (l_pattern layer) path with
        | Some params => Some (l_handler layer, params)
        | None => dispatch rest method path
        end
      else dispatch rest method path
  end.


(** ** [rateLimitAuth]

    [loginAttempts] is a [Map] of the module, shared by every request; the
    middleware made by [rateLimitAuth(maxAttempts, windowMs)] reads and
    writes it under the address of the request. [Math.ceil] of the minutes
    that are left goes into the message only. *)

Record Attempts := mkAttempts { count : Z; resetTime : Z }.

Definition rateLimitAuth (maxAttempts windowMs : Z)
    (loginAttempts : gmap string Attempts) (identifier : string) (now : Z)
    : gmap string Attempts * Result unit :=
  match loginAttempts !! identifier with
  | None =>
      (<[identifier := mkAttempts 1 (now + windowMs)]> loginAttempts, inr tt)
  | Some attempts =>
      if bool_decide (resetTime attempts < now) then
        (<[identifier := mkAttempts 1 (now + windowMs)]> loginAttempts, inr tt)
      else if bool_decide (maxAttempts ≤ count attempts) then
        let timeLeft := - ((- (resetTime attempts - now)) / (1000 * 60)) in
        (loginAttempts,
         inl (ApiError 429 ("Too many authentication attempts. Please try again in "
                            +:+ pretty timeLeft +:+ " minutes.")))
      else
        (<[identifier := mkAttempts (count attempts + 1) (resetTime attempts)]> loginAttempts,
         inr tt)
  end.

(** ** [userSchema]

    A refresh token is a subdocument of the array [refreshTokens], with the
    [_id] and the [createdAt] default it gets when it is pushed. *)

Record RefreshToken := mkRefreshToken {
  rt_id : string;
  token : string;
  rt_createdAt : Z
}.

Record User := mkUser {
  u_id : string;
  googleId : string;
  email : string;
  name : string;
  firstName : option string;
  lastName : option string;
  profilePicture : option string;
  isEmailVerified : bool;
  lastLogin : Z;
  isActive : bool;
  refreshTokens : list RefreshToken;
  u_createdAt : Z;
  u_updatedAt : Z
}.

Global Instance RefreshToken_eq_dec : EqDecision RefreshToken.
Proof. solve_decision. Defined.
Global Instance User_eq_dec : EqDecision User.
Proof. solve_decision. Defined.

Definition User_eta (u : User) : User :=
  mkUser (u_id u) (googleId u) (email u) (name u) (firstName u) (lastName u)
    (profilePicture u) (isEmailVerified u) (lastLogin u) (isActive u) (refreshTokens u)
    (u_createdAt u) (u_updatedAt u).

Global Instance set_isActive : Setter isActive.
Proof. derive_setter User_eta isActive. Defined.
Global Instance set_refreshTokens : Setter refreshTokens.
Proof. derive_setter User_eta refreshTokens. Defined.
Global Instance set_u_updatedAt : Setter u_updatedAt.
Proof. derive_setter User_eta u_updatedAt. Defined.

(** The [User] collection, by [_id]. *)
#[warnings="-notation-for-abbreviation"]
Notation Users := (gmap string User).

(** The validators of the schema: the three required strings, and [token]
    of every refresh token. A required string must not be empty. *)
Definition validateUser (doc : User) : Result unit :=
  _ <- throwIf (negb (truthy (googleId doc))) (ValidationError "googleId");;
  _ <- throwIf (negb (truthy (email doc))) (ValidationError "email");;
  _ <- throwIf (negb (truthy (name doc))) (ValidationError "name");;
  _ <- throwIf (negb (forallb (λ rt, truthy (token rt)) (refreshTokens doc)))
         (ValidationError "refreshTokens");;
  inr tt.

(** [this.save()] on a loaded user: [timestamps: true] stamps [updatedAt]
    when a path was modified; the schema has no hooks of its own. *)
Definition saveUser (now : Z) (users_ : Users) (doc : User) : Result (User * Users) :=
  _ <- validateUser doc;;
  let doc :=
    if bool_decide (users_ !! u_id doc ≠ Some doc) then doc <| u_updatedAt := now |>
    else doc in
  inr (doc, <[u_id doc := doc]> users_).

(** [array.slice(-n)]: the last [n] elements, all of them when there are
    fewer. *)
Definition slice_last {A : Type} (n : nat) (array : list A) : list A :=
  drop (length array - n) array.

(** [newId] is the ObjectId the pushed subdocument gets. *)
Definition addRefreshToken (now : Z) (newId : string) (users_ : Users) (this : User)
    (token_ : string) : Result (User * Users) :=
  let this :=
    this <| refreshTokens := refreshTokens this ++ [mkRefreshToken newId token_ now] |> in
  let this :=
    if bool_decide (5 < length (refreshTokens this))%nat
    then this <| refreshTokens := slice_last 5 (refreshTokens this) |>
    else this in
  saveUser now users_ this.

Definition removeRefreshToken (now : Z) (users_ : Users) (this : User) (token_ : string)
    : Result (User * Users) :=
  let this :=
    this <| refreshTokens := filter (λ rt, token rt ≠ token_) (refreshTokens this) |> in
  saveUser now users_ this.

(** ** [controllers/user.controller.js]

    The tokens are made and checked by [jsonwebtoken], which is not part of
    the repository: [generateTokens] and [verifyRefreshToken] of
    [configs/jwt.config.js] are parameters here, functions of the clock and
    of what the source passes them. The verifier gives the [id] of the
    payload or the error [jwt.verify] throws. *)

Record Tokens := mkTokens { accessToken : string; refreshToken : string }.

Inductive JwtError := TokenExpiredError | JsonWebTokenError | NotBeforeError.

Section jwt.
Context (generateTokens : Z -> User -> Tokens).
Context (verifyRefreshToken : Z -> string -> JwtError + string).

(** The two writes of [refreshAccessToken] are two calls of [save]: the
    collection is returned as the request leaves it, also when it fails. *)
Definition refreshAccessToken (now : Z) (newId : string) (users_ : Users)
    (body_refreshToken : option string) : Users * Result Tokens :=
  match body_refreshToken with
  | None | Some EmptyString => (users_, inl (ApiError 400 "Refresh token is required"))
  | Some old =>
      match verifyRefreshToken now old with
      | inl _ => (users_, inl (ApiError 401 "Invalid or expired refresh token"))
      | inr decoded_id =>
          match users_ !! decoded_id with
          | None => (users_, inl (ApiError 404 "User not found"))
          | Some user =>
              if negb (isActive user) then
                (users_, inl (ApiError 403 "Account is deactivated"))
              else if negb (existsb (λ rt, bool_decide (token rt = old)) (refreshTokens user))
              then (users_, inl (ApiError 401 "Refresh token not found or has been revoked"))
              else
                let tokens := generateTokens now user in
                match removeRefreshToken now users_ user old with
                | inl err => (users_, inl err)
                | inr (user, users_) =>
                    match addRefreshToken now newId users_ user (refreshToken tokens) with
                    | inl err => (users_, inl err)
                    | inr (_, users_) => (users_, inr tokens)
                    end
                end
          end
      end
  end.

Definition deleteUserAccount (now : Z) (users_ : Users) (reqUserId : string)
    : Result Users :=
  user <- orNotFound (users_ !! reqUserId) "User not found";;
  let user := user <| isActive := false |> <| refreshTokens := [] |> in
  saved <- saveUser now users_ user;;
  inr saved.2.

End jwt.
(** The schema validators in one proposition. *)
Definition schemaValid (doc : Todo) : Prop :=
  truthy (title doc) = true
  ∧ (String.length (title doc) ≤ 200)%nat
  ∧ (String.length (description doc) ≤ 2000)%nat
  ∧ Forall (λ tag, String.length tag ≤ 50)%nat (tags doc)
  ∧ from_option (λ l, l ∈ labelEnum) True (label doc)
  ∧ Forall (λ a, truthy (url a) = true) (attachments doc)
  ∧ Forall (λ c, truthy (c_text c) = true ∧ (String.length (c_text c) ≤ 1000)%nat)
      (comments doc)
  ∧ Forall (λ t, validSubTodo t = true) (subtasks doc).

(** The [label] of a request is [null] or one of the schema's colours. *)
Definition labelOk (body : TodoBody) : Prop :=
  match b_label body with
  | Some (Some l) => l ∈ labelEnum
  | _ => True
  end.

(** The paths [updateTodo] can assign, read by name from a document and
    from a request body. *)
Definition fieldVal (key : string) (todo : Todo) : option Val :=
  if decide (key = "title") then Some (VStr (title todo))
  else if decide (key = "description") then Some (VStr (description todo))
  else if decide (key = "status") then Some (VStatus (status todo))
  else if decide (key = "priority") then Some (VPriority (priority todo))
  else if decide (key = "dueDate") then Some (VDate (dueDate todo))
  else if decide (key = "category") then Some (VStr (category todo))
  else if decide (key = "tags") then Some (VTags (tags todo))
  else if decide (key = "label") then Some (VLabel (label todo))
  else None.

Definition requested (key : string) (body : TodoBody) : option Val :=
  if decide (key = "title") then VStr <$> b_title body
  else if decide (key = "description") then VStr <$> b_description body
  else if decide (key = "status") then VStatus <$> b_status body
  else if decide (key = "priority") then VPriority <$> b_priority body
  else if decide (key = "dueDate") then (λ d, VDate (Some d)) <$> b_dueDate body
  else if decide (key = "category") then VStr <$> b_category body
  else if decide (key = "tags") then VTags <$> b_tags body
  else if decide (key = "label") then VLabel <$> b_label body
  else None.

(** A computation that can only throw a 400. *)
Definition only400 {A : Type} (r : Result A) : Prop :=
  ∀ err, r = inl err → errorHandler err = 400.

(** A string with a character that [trim] keeps. *)
Fixpoint hasInk (s : string) : bool :=
  match s with
  | String c r => negb (is_space c) || hasInk r
  | EmptyString => false
  end.

Definition addProgress (a b : Progress) : Progress :=
  {| p_total := (p_total a + p_total b)%nat;
     p_completed := (p_completed a + p_completed b)%nat |}.

Definition counted (nodes : list SubFields) : Progress :=
  {| p_total := length nodes; p_completed := count_completed nodes |}.

(** The value of a request path that an [if] of [updateTodo] lets through. *)
Definition chosen {A : Type} (value : option A) (cond : A -> bool) : option A :=
  match value with
  | Some a => if cond a then Some a else None
  | None => None
  end.

Definition logged {A : Type} (key : string) (old : Val) (new : A -> Val)
    (choice : option A) : list (string * Change) :=
  match choice with
  | Some a => [(key, OldNew old (new a))]
  | None => []
  end.

(** The patch of a subtask update on a node of the traversal. *)
Definition patchNode (now : Z) (body : SubtaskBody) (node : SubFields * nat)
    : SubFields * nat :=
  (applySubtaskBody now body node.1, node.2).

(** What one call of the recursive search does to a tree: it reports whether
    the id occurs, patches the first node that has it, and returns the tree
    itself when none has. *)
Definition update_at_spec (now : Z) (body : SubtaskBody) (id : string)
    (task : SubTodo) : Prop :=
  let r := findAndUpdateSubtask_at now body id task in
  r.1 = existsb (hasId id) (traversal_at task)
  ∧ traversal_at r.2 = updateFirst (hasId id) (patchNode now body) (traversal_at task)
  ∧ (r.1 = false → r.2 = task).
(** ** Further notions *)

(** A document after [{ isDeleted: true, deletedAt: now }] was set on it. *)
Definition softDeleted (now : Z) (doc : Todo) : Todo :=
  doc <| isDeleted := true |> <| deletedAt := Some now |> <| updatedAt := now |>.

(** [deleteTodo] on each id of a list in turn, stopping at the first error. *)
Definition deleteEach (now : Z) (reqUserId : string) (todoIds : list string) (db : DB)
    : Result DB :=
  fold_left (λ acc id, db0 <- acc;; deleteTodo now db0 reqUserId id) todoIds (inr db).

(** A collection as [save] and [create] leave it: every document under its
    own [_id], and accepted by the validators of the schema. *)
Definition wellFormed (db : DB) : Prop :=
  keyed db ∧ ∀ k doc, todos db !! k = Some doc → validateDoc doc = inr tt.

(** [doc'] is a later state of the document [doc]: the same todo of the same
    owner, with a log that continues the log of [doc]. *)
Definition continues (doc doc' : Todo) : Prop :=
  _id doc' = _id doc ∧ userId doc' = userId doc ∧ createdAt doc' = createdAt doc
  ∧ activityLog doc `prefix_of` activityLog doc'.




(** No user watches the todo twice or has two entries in [sharedWith]. *)
Definition tidy (doc : Todo) : Prop :=
  NoDup (watchers doc) ∧ NoDup (sh_userId <$> sharedWith doc).

Definition allTidy (db : DB) : Prop :=
  ∀ k doc, todos db !! k = Some doc → tidy doc.


(** The requests of a list that the middleware lets through, served in turn
    from the state [loginAttempts]; a request is its address and its time. *)
Fixpoint admitted (maxAttempts windowMs : Z) (loginAttempts : gmap string Attempts)
    (requests : list (string * Z)) : list (string * Z) :=
  match requests with
  | [] => []
  | request :: rest =>
      let '(loginAttempts', answer) :=
        rateLimitAuth maxAttempts windowMs loginAttempts request.1 request.2 in
      match answer with
      | inr _ => request :: admitted maxAttempts windowMs loginAttempts' rest
      | inl _ => admitted maxAttempts windowMs loginAttempts' rest
      end
  end.

(** The requests of a list that come from one address. *)
Definition from (identifier : string) (requests : list (string * Z)) : list (string * Z) :=
  filter (λ request, request.1 = identifier) requests.

(** [addRefreshToken] for each login of a list in turn, each on the document
    the one before it saved; a login is its time, the ObjectId of the pushed
    subdocument and the token. *)
Fixpoint addEach (users_ : Users) (this : User) (logins : list (Z * string * string))
    : Result (User * Users) :=
  match logins with
  | [] => inr (this, users_)
  | (now, newId, token_) :: rest =>
      saved <- addRefreshToken now newId users_ this token_;;
      addEach saved.2 saved.1 rest
  end.
(** ** Sample documents *)

Definition sub (id ttl : string) (done : bool) (doneAt : option Z)
    (kids : list SubTodo) : SubTodo :=
  SubDoc {| s_id := id; s_title := ttl; s_description := EmptyString;
            s_status := if done then St_completed else St_todo; s_priority := Medium;
            s_completed := done; s_completedAt := doneAt; s_dueDate := None;
            s_estimatedTime := 0; s_actualTime := 0; s_tags := [];
            s_isArchived := false; s_order := 0 |} kids.

(** Alice's todo, with three subtasks on two levels, one of them done. *)
Definition milk : Todo :=
  newTodo "t1" 100 "alice" "Buy milk" EmptyString
    <| subtasks := [sub "s1" "Pick brand" true (Some 150)
                      [sub "s2" "Compare prices" false None []];
                    sub "s3" "Pay" false None []] |>
    <| checklistProgress := mkProgress 3 1 |>
    <| activityLog := [mkActivityEntry Created "alice" None 100] |>.

Definition shop : DB :=
  {| todos := {[ "t1" := milk ]}; users := {[ "alice"; "bob" ]} |}.

Definition archived_milk : Todo * DB :=
  Eval vm_compute in
    match archiveTodo 200 shop "alice" "t1" with
    | inr saved => saved
    | inl _ => (milk, shop)
    end.

Definition completed_body : TodoBody :=
  {| b_title := Some "Buy milk"; b_description := None; b_status := Some St_completed;
     b_priority := None; b_dueDate := None; b_category := None; b_tags := None;
     b_label := None; b_estimatedTime := None |}.

Definition logged_30 : Todo * DB :=
  Eval vm_compute in
    match logTimeSpent 200 shop "alice" "t1" (Some 30) with
    | inr saved => saved
    | inl _ => (milk, shop)
    end.

Definition logged_45 : Todo * DB :=
  Eval vm_compute in
    match logTimeSpent 300 logged_30.2 "alice" "t1" (Some 45) with
    | inr saved => saved
    | inl _ => (milk, shop)
    end.
Definition self_shared : Todo * DB :=
  Eval vm_compute in
    match shareTodo 200 shop "alice" "t1" (Some "alice") None with
    | inr saved => saved
    | inl _ => (milk, shop)
    end.

Definition rename_body : TodoBody :=
  {| b_title := Some "Buy oat milk"; b_description := None; b_status := None;
     b_priority := None; b_dueDate := None; b_category := None; b_tags := None;
     b_label := None; b_estimatedTime := None |}.

(** Alice's todo after she shared it with Bob at [edit]. *)
Definition shared_milk : Todo := milk <| sharedWith := [mkShareEntry "bob" Edit 150] |>.

Definition shared_shop : DB :=
  {| todos := {[ "t1" := shared_milk ]}; users := {[ "alice"; "bob" ]} |}.

(** The same todo once soft-deleted. *)
Definition deleted_milk : Todo :=
  milk <| isDeleted := true |> <| deletedAt := Some 150 |>.

Definition deleted_shop : DB :=
  {| todos := {[ "t1" := deleted_milk ]}; users := {[ "alice"; "bob" ]} |}.


Definition done_body : SubtaskBody :=
  {| sb_title := Some "Pick brand"; sb_description := None; sb_status := None;
     sb_priority := None; sb_dueDate := None; sb_completed := Some true;
     sb_estimatedTime := None |}.

Definition undone_body : SubtaskBody :=
  {| sb_title := Some "Pick brand"; sb_description := None; sb_status := None;
     sb_priority := None; sb_dueDate := None; sb_completed := Some false;
     sb_estimatedTime := None |}.

Fixpoint letters (n : nat) : string :=
  match n with
  | O => EmptyString
  | S n => String "a" (letters n)
  end.

(** Alice's todo under a title of 194 characters, which the schema and
    [validateTodo] accept. *)
Definition long_milk : Todo := milk <| title := letters 194 |>.

Definition long_shop : DB :=
  {| todos := {[ "t1" := long_milk ]}; users := {[ "alice"; "bob" ]} |}.

(** ** Further samples *)

(** Alice's shared todo after Bob commented on it. *)
Definition commented : Todo * DB :=
  Eval vm_compute in
    match addComment 200 "c1" shared_shop "bob" "t1" (Some "Oat milk, please") None with
    | inr saved => saved
    | inl _ => (shared_milk, shared_shop)
    end.

Definition bobs_comment : Comment :=
  {| c_id := "c1"; c_userId := "bob"; c_text := "Oat milk, please"; c_mentions := [];
     c_createdAt := 200; c_updatedAt := None |}.

(** A body that repeats the title of the sample todo. *)
Definition same_body : TodoBody :=
  {| b_title := Some "Buy milk"; b_description := None; b_status := None;
     b_priority := None; b_dueDate := None; b_category := None; b_tags := None;
     b_label := None; b_estimatedTime := None |}.

(** A user with one session, and stand-ins for the signer and the verifier
    of the tokens. *)
Definition ann : User :=
  mkUser "u1" "g-1" "ann@example.org" "Ann" None None None true 0 true
    [mkRefreshToken "r1" "tok-0" 0] 0 0.

Definition people : Users := {[ "u1" := ann ]}.

Definition sign (now : Z) (user : User) : Tokens :=
  mkTokens ("acc-" +:+ pretty now) ("tok-" +:+ pretty now).

Definition verify (now : Z) (token_ : string) : JwtError + string :=
  if String.prefix "tok-" token_ then inr "u1" else inl JsonWebTokenError.

(** * Properties *)

(** ** Induction over a subtask tree and its children *)

Section SubTodo_induction.
Variable P : SubTodo -> Prop.
Hypothesis step : ∀ f kids, Forall P kids → P (SubDoc f kids).

Fixpoint SubTodo_forest_ind (task : SubTodo) : P task :=
  match task with
  | SubDoc f kids =>
      step f kids
        ((fix children (l : list SubTodo) : Forall P l :=
            match l with
            | [] => List.Forall_nil P
            | k :: rest => List.Forall_cons P k rest (SubTodo_forest_ind k) (children rest)
            end) kids)
  end.

End SubTodo_induction.

Lemma forest_ind (P : SubTodo -> Prop) (tasks : list SubTodo) :
  (∀ f kids, Forall P kids → P (SubDoc f kids)) → Forall P tasks.
Proof.
  intros step. apply Forall_forall. intros t _. by apply SubTodo_forest_ind.
Qed.

(** ** Strings *)

Lemma trimStart_length s : (String.length (trimStart s) ≤ String.length s)%nat.
Proof. induction s as [|c r IH]; simpl; [lia|]. destruct (is_space c); simpl; lia. Qed.

Lemma trimEnd_length s : (String.length (trimEnd s) ≤ String.length s)%nat.
Proof.
  induction s as [|c r IH]; simpl; [lia|].
  destruct (trimEnd r); simpl in *; [destruct (is_space c); simpl; lia | lia].
Qed.

Lemma trim_length s : (String.length (trim s) ≤ String.length s)%nat.
Proof.
  unfold trim. etrans; [apply trimEnd_length | apply trimStart_length].
Qed.

Lemma truthy_length s : truthy s = bool_decide (String.length s ≠ 0%nat).
Proof. destruct s; reflexivity. Qed.

Lemma truthy_trim s : String.length (trim s) ≠ 0%nat → truthy (trim s) = true.
Proof. rewrite truthy_length. intros H. by apply bool_decide_eq_true. Qed.

(** ** Checklist progress *)



Lemma counted_app l1 l2 : counted (l1 ++ l2) = addProgress (counted l1) (counted l2).
Proof.
  unfold counted, addProgress, count_completed; simpl.
  by rewrite filter_app, !length_app.
Qed.

Lemma visitTask_acc acc task :
  visitTask acc task = addProgress acc (visitTask (mkProgress 0 0) task).
Proof.
  destruct task as [f kids]; destruct acc as [t c]; unfold addProgress; simpl.
  destruct kids; destruct (s_completed f); simpl; f_equal; lia.
Qed.

Lemma fold_visitTask tasks acc :
  Forall (λ t, visitTask (mkProgress 0 0) t = counted (tree_nodes t)) tasks →
  fold_left visitTask tasks acc = addProgress acc (counted (forest_nodes tasks)).
Proof.
  intros H. revert acc. induction H as [|t rest Ht _ IH]; intros acc; simpl.
  - destruct acc; unfold addProgress, counted, count_completed; simpl; f_equal; lia.
  - rewrite IH, visitTask_acc, Ht. unfold forest_nodes; simpl.
    rewrite counted_app. destruct acc; unfold addProgress; simpl; f_equal; lia.
Qed.

Lemma count_completed_cons f l :
  count_completed (f :: l) =
    if s_completed f then S (count_completed l) else count_completed l.
Proof.
  unfold count_completed. rewrite filter_cons.
  case_decide as H; destruct (s_completed f); simpl; congruence.
Qed.

Lemma visitTask_counted task :
  visitTask (mkProgress 0 0) task = counted (tree_nodes task).
Proof.
  induction task as [f kids IH] using SubTodo_forest_ind.
  pose proof (fold_visitTask kids (mkProgress 0 0) IH) as Hkids.
  simpl. fold (forest_nodes kids).
  unfold counted. rewrite count_completed_cons. simpl.
  destruct kids as [|k kids'].
  - destruct (s_completed f); reflexivity.
  - rewrite Hkids. unfold counted, addProgress; simpl.
    destruct (s_completed f); simpl; f_equal; lia.
Qed.

Lemma calculateProgress_counted tasks :
  calculateProgress tasks = counted (forest_nodes tasks).
Proof.
  unfold calculateProgress.
  rewrite fold_visitTask; [|apply forest_ind; intros; apply visitTask_counted].
  unfold addProgress, counted; simpl; done.
Qed.



(** ** The traversals of the model agree on the nodes *)

Lemma fold_collect tasks result :
  Forall (λ t, ∀ r, s_fields <$> collect r t = (s_fields <$> r) ++ tree_nodes t) tasks →
  s_fields <$> fold_left collect tasks result = (s_fields <$> result) ++ forest_nodes tasks.
Proof.
  intros H. revert result. induction H as [|t rest Ht _ IH]; intros result; simpl.
  - by rewrite app_nil_r.
  - rewrite IH, Ht. unfold forest_nodes. simpl. by rewrite app_assoc.
Qed.

Lemma collect_nodes task result :
  s_fields <$> collect result task = (s_fields <$> result) ++ tree_nodes task.
Proof.
  revert result. induction task as [f kids IH] using SubTodo_forest_ind. intros result.
  simpl. fold (forest_nodes kids). destruct kids as [|k kids'].
  - by rewrite fmap_app.
  - rewrite fold_collect by done. rewrite fmap_app. simpl. by rewrite <- app_assoc.
Qed.

(** [getAllSubtasks] lists the nodes that [calculateProgress] counts. *)
Lemma getAllSubtasks_nodes tasks : s_fields <$> getAllSubtasks tasks = forest_nodes tasks.
Proof.
  unfold getAllSubtasks. rewrite fold_collect; [done|].
  apply forest_ind. intros f kids _ r. apply collect_nodes.
Qed.

Lemma fold_countSubtasks tasks count :
  Forall (λ t, countSubtasks_at t = length (forest_nodes (s_subtasks t))) tasks →
  (length tasks + fold_left (λ count k, count + countSubtasks_at k) tasks count)%nat
    = (count + length (forest_nodes tasks))%nat.
Proof.
  intros H. revert count. induction H as [|t rest Ht _ IH]; intros count; simpl; [lia|].
  specialize (IH (count + countSubtasks_at t)%nat). rewrite Ht in *.
  unfold forest_nodes in *. simpl. destruct t as [f kids]. simpl in *.
  rewrite length_app. lia.
Qed.

Lemma countSubtasks_at_nodes task :
  countSubtasks_at task = length (forest_nodes (s_subtasks task)).
Proof.
  induction task as [f kids IH] using SubTodo_forest_ind. simpl.
  destruct kids as [|k kids']; [done|]. by rewrite fold_countSubtasks.
Qed.

(** The virtual [totalSubtasks] is the [total] of [checklistProgress]. *)
Lemma countSubtasks_total tasks : countSubtasks tasks = p_total (calculateProgress tasks).
Proof.
  unfold countSubtasks. rewrite fold_countSubtasks, calculateProgress_counted; [done|].
  apply forest_ind. intros f kids _. apply countSubtasks_at_nodes.
Qed.

(** ** [save] and [create] *)

Lemma preSave_frame isNew snapshot now doc :
  let doc' := preSave isNew snapshot now doc in
  _id doc' = _id doc ∧ userId doc' = userId doc ∧ subtasks doc' = subtasks doc
  ∧ status doc' = status doc ∧ completed doc' = completed doc
  ∧ completedAt doc' = completedAt doc ∧ sharedWith doc' = sharedWith doc
  ∧ comments doc' = comments doc ∧ attachments doc' = attachments doc
  ∧ isDeleted doc' = isDeleted doc ∧ actualTime doc' = actualTime doc
  ∧ checklistProgress doc' = calculateProgress (subtasks doc).
Proof.
  unfold preSave, activityHook, progressHook, timestampsHook.
  destruct (isNew || isModified snapshot doc); simpl;
    match goal with |- context [if ?c then _ else _] => destruct c end; simpl; done.
Qed.

Lemma preSave_id isNew snapshot now doc : _id (preSave isNew snapshot now doc) = _id doc.
Proof. apply preSave_frame. Qed.

Lemma preSave_new_log now doc :
  activityLog (preSave true None now doc) = activityLog doc.
Proof.
  unfold preSave, activityHook, progressHook, timestampsHook.
  rewrite andb_false_r. reflexivity.
Qed.

Lemma save_inv now db doc doc' db' :
  save now db doc = inr (doc', db') →
  validateDoc doc = inr tt
  ∧ doc' = preSave false (todos db !! _id doc) now doc
  ∧ db' = withTodos db (<[_id doc := doc']> (todos db)).
Proof.
  unfold save. destruct (validateDoc doc) as [e|[]]; [done|].
  rewrite preSave_id. intros [= <- <-]. done.
Qed.

Lemma save_valid now db doc :
  validateDoc doc = inr tt →
  save now db doc =
    inr (preSave false (todos db !! _id doc) now doc,
         withTodos db (<[_id doc := preSave false (todos db !! _id doc) now doc]> (todos db))).
Proof. unfold save. intros ->. by rewrite preSave_id. Qed.

Lemma create_inv now db doc doc' db' :
  create now db doc = inr (doc', db') →
  validateDoc (schemaSetters doc) = inr tt
  ∧ todos db !! _id doc = None
  ∧ doc' = preSave true None now (schemaSetters doc)
  ∧ db' = withTodos db (<[_id doc := doc']> (todos db)).
Proof.
  unfold create. cbv zeta. destruct (validateDoc (schemaSetters doc)) as [e|[]]; [done|].
  rewrite preSave_id. change (_id (schemaSetters doc)) with (_id doc).
  unfold throwIf. case_bool_decide as Hk; [done|].
  intros [= <- <-]. split_and!; try done.
  destruct (todos db !! _id doc) eqn:E; [|done]. exfalso. apply Hk. by eexists.
Qed.

Lemma create_valid now db doc :
  validateDoc (schemaSetters doc) = inr tt → todos db !! _id doc = None →
  create now db doc =
    inr (preSave true None now (schemaSetters doc),
         withTodos db
           (<[_id doc := preSave true None now (schemaSetters doc)]> (todos db))).
Proof.
  unfold create. cbv zeta. intros -> Hk. rewrite preSave_id.
  change (_id (schemaSetters doc)) with (_id doc). rewrite Hk. unfold throwIf.
  rewrite bool_decide_eq_false_2; [done|]. by intros [? ?].
Qed.



(** ** Completion state *)

Lemma isModified_log snapshot doc :
  activityLog doc ≠ activityLog snapshot → isModified (Some snapshot) doc = true.
Proof.
  intros H. unfold isModified. apply bool_decide_eq_true. intros [= ->]. done.
Qed.

Lemma app_singleton_neq {A} (l : list A) (x : A) : l ++ [x] ≠ l.
Proof.
  intros H. apply (f_equal length) in H. rewrite length_app in H. simpl in H. lia.
Qed.

(** What [save] does to a loaded document to which an entry was pushed. *)
Lemma preSave_pushed now snapshot entry doc :
  activityLog doc = activityLog snapshot →
  activityLog (preSave false (Some snapshot) now (pushActivity entry doc)) =
    activityLog snapshot ++ [entry; mkActivityEntry Updated (userId doc) None now].
Proof.
  intros Hlog. unfold preSave, activityHook, progressHook, timestampsHook.
  assert (isModified (Some snapshot) (pushActivity entry doc) = true) as Hm.
  { apply isModified_log. unfold pushActivity; simpl. rewrite Hlog. apply app_singleton_neq. }
  rewrite Hm. simpl.
  rewrite isModified_log; simpl.
  - rewrite Hlog, <- app_assoc. reflexivity.
  - rewrite Hlog. apply app_singleton_neq.
Qed.

(** The instance methods keep [completed], [status] and [completedAt]
    together. *)
Lemma complete_synchronised now db doc doc' db' :
  complete now db doc = inr (doc', db') →
  completed doc' = true ∧ status doc' = St_completed ∧ completedAt doc' = Some now.
Proof.
  unfold complete. intros H. apply save_inv in H as (_ & -> & _).
  match goal with
  | |- context [preSave ?a ?b ?c ?d] =>
      destruct (preSave_frame a b c d) as (_ & _ & _ & -> & -> & -> & _)
  end. done.
Qed.

Lemma incomplete_synchronised now db doc doc' db' :
  incomplete now db doc = inr (doc', db') →
  completed doc' = false ∧ status doc' = St_todo ∧ completedAt doc' = None.
Proof.
  unfold incomplete. intros H. apply save_inv in H as (_ & -> & _).
  match goal with
  | |- context [preSave ?a ?b ?c ?d] =>
      destruct (preSave_frame a b c d) as (_ & _ & _ & -> & -> & -> & _)
  end. done.
Qed.

(** C2. [PATCH /:todoId] with [{ title: "Buy milk", status: "completed" }],
    sent by the owner of a todo that is not completed, passes [validateTodo]
    and is saved with [status = 'completed'] while [completed] stays [false]
    and [completedAt] stays [null]: [updateTodo] assigns [status] alone,
    where [complete] and [incomplete] assign the three paths together. *)
Theorem updateTodo_status_without_completed :
  validateTodo 200 completed_body = inr tt
  ∧ status milk = St_todo ∧ completed milk = false
  ∧ ∃ doc' db',
      updateTodo 200 shop "alice" "t1" completed_body = inr (doc', db')
      ∧ todos db' !! "t1" = Some doc'
      ∧ status doc' = St_completed ∧ completed doc' = false ∧ completedAt doc' = None.
Proof.
  split; [vm_compute; reflexivity|]. split; [reflexivity|]. split; [reflexivity|].
  destruct (updateTodo 200 shop "alice" "t1" completed_body) as [e|[doc' db']] eqn:E;
    [vm_compute in E; discriminate|].
  exists doc', db'. split; [reflexivity|].
  vm_compute in E. injection E as <- <-. vm_compute. done.
Qed.

(** ** Time tracking *)

Lemma logTimeSpent_nonpositive now db reqUserId todoId n :
  n ≤ 0 →
  logTimeSpent now db reqUserId todoId (Some n)
    = inl (ApiError 400 "Time spent must be greater than 0").
Proof.
  intros Hn. unfold logTimeSpent, throwIf.
  rewrite (bool_decide_eq_true_2 (n ≤ 0)) by done. by rewrite orb_true_r.
Qed.

Lemma validateDoc_frame doc doc' :
  title doc' = title doc → description doc' = description doc → tags doc' = tags doc →
  label doc' = label doc → attachments doc' = attachments doc →
  comments doc' = comments doc → subtasks doc' = subtasks doc →
  validateDoc doc' = validateDoc doc.
Proof. unfold validateDoc. by intros -> -> -> -> -> -> ->. Qed.

(** Whatever positive amount the owner sends is added to [actualTime]; the
    log gains the entry of the controller and the one of the save hook. *)
Lemma logTimeSpent_positive now db todoId todo n :
  todos db !! todoId = Some todo → _id todo = todoId → validateDoc todo = inr tt →
  0 < n →
  ∃ doc' db',
    logTimeSpent now db (userId todo) todoId (Some n) = inr (doc', db')
    ∧ todos db' !! todoId = Some doc'
    ∧ actualTime doc' = actualTime todo + n
    ∧ activityLog doc' =
        activityLog todo
        ++ [mkActivityEntry Updated (userId todo) (Some [("timeLogged", Plain (VNum n))]) now;
            mkActivityEntry Updated (userId todo) None now].
Proof.
  intros Hlook Hid Hvalid Hn. unfold logTimeSpent, throwIf.
  rewrite (bool_decide_eq_false_2 (n = 0)), (bool_decide_eq_false_2 (n ≤ 0)) by lia.
  simpl. rewrite Hlook. simpl. unfold isOwner. rewrite bool_decide_eq_true_2 by done. simpl.
  rewrite save_valid by (by erewrite validateDoc_frame).
  eexists _, _. split; [reflexivity|]. simpl. rewrite Hid, Hlook.
  split; [apply lookup_insert_eq|].
  split.
  - match goal with
    | |- context [preSave ?a ?b ?c ?d] => destruct (preSave_frame a b c d) as (_&_&_&_&_&_&_&_&_&_&->&_)
    end. reflexivity.
  - rewrite (preSave_pushed now todo) by reflexivity. reflexivity.
Qed.

(** C5. [POST /:todoId/time-tracking] runs [logTimeSpent] alone: with
    [{ timeSpent: 2000 }] from the owner, which [validateTimeTracking]
    rejects as more than 1440 minutes, the request is accepted and 2000
    minutes are added to [actualTime]. The log gains two [updated] entries,
    the controller's with the delta and the save hook's without payload. *)
Theorem logTimeSpent_beyond_a_day :
  validateTimeTracking (Some 2000)
    = inl (ApiError 400 "Time spent cannot exceed 24 hours (1440 minutes)")
  ∧ ∃ doc' db',
      logTimeSpent 200 shop "alice" "t1" (Some 2000) = inr (doc', db')
      ∧ route 200 "n1" shop "alice" "t1" (POST_time_tracking (Some 2000)) = inr db'
      ∧ todos db' !! "t1" = Some doc'
      ∧ actualTime doc' = actualTime milk + 2000
      ∧ activityLog doc' =
          activityLog milk
          ++ [mkActivityEntry Updated "alice" (Some [("timeLogged", Plain (VNum 2000))]) 200;
              mkActivityEntry Updated "alice" None 200].
Proof.
  split; [reflexivity|].
  assert (todos shop !! "t1" = Some milk) as H1 by (vm_compute; reflexivity).
  assert (validateDoc milk = inr tt) as H2 by (vm_compute; reflexivity).
  destruct (logTimeSpent_positive 200 shop "t1" milk 2000 H1 eq_refl H2 eq_refl)
    as (doc' & db' & Hrun & Hlook & Htime & Hlog).
  exists doc', db'. change (userId milk) with "alice" in Hrun, Hlog.
  split; [exact Hrun|]. split; [simpl; unfold stored; by rewrite Hrun|].
  split; [exact Hlook|]. split; [exact Htime | exact Hlog].
Qed.

(** The scenario of the specification: 30 then 45 minutes make 75, over four
    [updated] entries. *)
Example logTimeSpent_30_then_45 :
  logTimeSpent 200 shop "alice" "t1" (Some 30) = inr logged_30
  ∧ logTimeSpent 300 logged_30.2 "alice" "t1" (Some 45) = inr logged_45
  ∧ actualTime logged_45.1 = 75
  ∧ length (filter (λ e, action e = Updated) (activityLog logged_45.1)) = 4%nat
  ∧ length (filter (λ e, is_Some (changes e)) (activityLog logged_45.1)) = 2%nat.
Proof. vm_compute. done. Qed.

(** ** Sharing *)

Lemma isSharedWith_elem todo target :
  isSharedWith todo target = true ↔ target ∈ sh_userId <$> sharedWith todo.
Proof.
  unfold isSharedWith. rewrite existsb_exists, list_elem_of_fmap.
  split.
  - intros (s & Hin & Hs). apply bool_decide_eq_true in Hs.
    exists s. split; [done|]. by apply list_elem_of_In.
  - intros (s & -> & Hin). exists s. split; [by apply list_elem_of_In|].
    by apply bool_decide_eq_true.
Qed.




(** [revokeTodoShare] removes the entries of the target and nothing else. *)
Lemma revokeTodoShare_outcome now db todoId todo target :
  todos db !! todoId = Some todo → _id todo = todoId → validateDoc todo = inr tt →
  ∃ doc' db',
    revokeTodoShare now db (userId todo) todoId target = inr (doc', db')
    ∧ sharedWith doc' = filter (λ s, sh_userId s ≠ target) (sharedWith todo).
Proof.
  intros Hlook Hid Hvalid. unfold revokeTodoShare, throwIf. rewrite Hlook. simpl.
  unfold isOwner. rewrite bool_decide_eq_true_2 by done. simpl.
  rewrite save_valid by (by erewrite validateDoc_frame).
  eexists _, _. split; [reflexivity|].
  match goal with
  | |- context [preSave ?a ?b ?c ?d] =>
      destruct (preSave_frame a b c d) as (_&_&_&_&_&_&->&_)
  end. reflexivity.
Qed.

(** ** [updateTodo] *)



Lemma patchTitle_eq value todo cs :
  let c := chosen value (λ a, truthy a && negb (bool_decide (a = title todo))) in
  patchTitle value (todo, cs) =
    (todo <| title := from_option trim (title todo) c |>,
     cs ++ logged "title" (VStr (title todo)) VStr c).
Proof.
  destruct value as [a|]; simpl; unfold patchPath; simpl;
    [destruct (truthy a && negb (bool_decide (a = title todo)))|];
    simpl; rewrite ?app_nil_r; by destruct todo.
Qed.

Lemma patchDescription_eq value todo cs :
  let c := chosen value (λ a, negb (bool_decide (a = description todo))) in
  patchDescription value (todo, cs) =
    (todo <| description := from_option trim (description todo) c |>,
     cs ++ logged "description" (VStr (description todo)) VStr c).
Proof.
  destruct value as [a|]; simpl; unfold patchPath; simpl;
    [destruct (negb (bool_decide (a = description todo)))|];
    simpl; rewrite ?app_nil_r; by destruct todo.
Qed.

Lemma patchStatus_eq value todo cs :
  let c := chosen value (λ a, negb (bool_decide (a = status todo))) in
  patchStatus value (todo, cs) =
    (todo <| status := default (status todo) c |>,
     cs ++ logged "status" (VStatus (status todo)) VStatus c).
Proof.
  destruct value as [a|]; simpl; unfold patchPath; simpl;
    [destruct (negb (bool_decide (a = status todo)))|];
    simpl; rewrite ?app_nil_r; by destruct todo.
Qed.

Lemma patchPriority_eq value todo cs :
  let c := chosen value (λ a, negb (bool_decide (a = priority todo))) in
  patchPriority value (todo, cs) =
    (todo <| priority := default (priority todo) c |>,
     cs ++ logged "priority" (VPriority (priority todo)) VPriority c).
Proof.
  destruct value as [a|]; simpl; unfold patchPath; simpl;
    [destruct (negb (bool_decide (a = priority todo)))|];
    simpl; rewrite ?app_nil_r; by destruct todo.
Qed.

Lemma patchDueDate_eq value todo cs :
  patchDueDate value (todo, cs) =
    (todo <| dueDate := from_option Some (dueDate todo) value |>,
     cs ++ logged "dueDate" (VDate (dueDate todo)) (λ d, VDate (Some d)) value).
Proof.
  destruct value as [a|]; simpl; unfold patchPath; simpl;
    rewrite ?app_nil_r; by destruct todo.
Qed.

Lemma patchCategory_eq value todo cs :
  let c := chosen value (λ a, truthy a && negb (bool_decide (a = category todo))) in
  patchCategory value (todo, cs) =
    (todo <| category := from_option trim (category todo) c |>,
     cs ++ logged "category" (VStr (category todo)) VStr c).
Proof.
  destruct value as [a|]; simpl; unfold patchPath; simpl;
    [destruct (truthy a && negb (bool_decide (a = category todo)))|];
    simpl; rewrite ?app_nil_r; by destruct todo.
Qed.

Lemma patchTags_eq value todo cs :
  patchTags value (todo, cs) =
    (todo <| tags := from_option (fmap trim) (tags todo) value |>,
     cs ++ logged "tags" (VTags (tags todo)) VTags value).
Proof.
  destruct value as [a|]; simpl; unfold patchPath; simpl;
    rewrite ?app_nil_r; by destruct todo.
Qed.

Lemma patchLabel_eq value todo cs :
  let c := chosen value (λ a, negb (bool_decide (a = label todo))) in
  patchLabel value (todo, cs) =
    (todo <| label := default (label todo) c |>,
     cs ++ logged "label" (VLabel (label todo)) VLabel c).
Proof.
  destruct value as [a|]; simpl; unfold patchPath; simpl;
    [destruct (negb (bool_decide (a = label todo)))|];
    simpl; rewrite ?app_nil_r; by destruct todo.
Qed.

(** [applyTodoBody] in one piece: the eight paths are assigned
    independently, each from the stored value and the request. *)
Lemma applyTodoBody_eq body todo :
  let cTitle := chosen (b_title body) (λ a, truthy a && negb (bool_decide (a = title todo))) in
  let cDescription :=
    chosen (b_description body) (λ a, negb (bool_decide (a = description todo))) in
  let cStatus := chosen (b_status body) (λ a, negb (bool_decide (a = status todo))) in
  let cPriority := chosen (b_priority body) (λ a, negb (bool_decide (a = priority todo))) in
  let cCategory :=
    chosen (b_category body) (λ a, truthy a && negb (bool_decide (a = category todo))) in
  let cLabel := chosen (b_label body) (λ a, negb (bool_decide (a = label todo))) in
  applyTodoBody body todo =
    (todo <| title := from_option trim (title todo) cTitle |>
          <| description := from_option trim (description todo) cDescription |>
          <| status := default (status todo) cStatus |>
          <| priority := default (priority todo) cPriority |>
          <| dueDate := from_option Some (dueDate todo) (b_dueDate body) |>
          <| category := from_option trim (category todo) cCategory |>
          <| tags := from_option (fmap trim) (tags todo) (b_tags body) |>
          <| label := default (label todo) cLabel |>,
     logged "title" (VStr (title todo)) VStr cTitle
     ++ logged "description" (VStr (description todo)) VStr cDescription
     ++ logged "status" (VStatus (status todo)) VStatus cStatus
     ++ logged "priority" (VPriority (priority todo)) VPriority cPriority
     ++ logged "dueDate" (VDate (dueDate todo)) (λ d, VDate (Some d)) (b_dueDate body)
     ++ logged "category" (VStr (category todo)) VStr cCategory
     ++ logged "tags" (VTags (tags todo)) VTags (b_tags body)
     ++ logged "label" (VLabel (label todo)) VLabel cLabel).
Proof.
  intros. unfold applyTodoBody.
  rewrite patchTitle_eq, patchDescription_eq, patchStatus_eq, patchPriority_eq,
    patchDueDate_eq, patchCategory_eq, patchTags_eq, patchLabel_eq.
  simpl. rewrite <- !app_assoc. reflexivity.
Qed.

(** A sequence of [if (cond) throw] that ran to its end: no condition held. *)
Ltac no_throw H :=
  unfold throwIf, whenDefined in H; simpl in H;
  repeat match type of H with
         | context [if ?c then inl _ else inr _] =>
             let E := fresh "Hc" in destruct c eqn:E; simpl in H; [discriminate H|]
         end.


Lemma forallb_Forall {A} (f : A → bool) (l : list A) :
  forallb f l = true ↔ Forall (λ x, f x = true) l.
Proof. rewrite forallb_forall, Forall_forall. by setoid_rewrite list_elem_of_In. Qed.

Lemma validateDoc_schemaValid doc : validateDoc doc = inr tt ↔ schemaValid doc.
Proof.
  unfold schemaValid. split.
  - intros H. unfold validateDoc in H. no_throw H.
    repeat match goal with
           | H : negb _ = false |- _ => apply negb_false_iff in H
           end.
    split_and!.
    + done.
    + by apply bool_decide_eq_true in Hc0.
    + by apply bool_decide_eq_true in Hc1.
    + apply forallb_Forall in Hc2. eapply Forall_impl; [exact Hc2|].
      intros x Hx. by apply bool_decide_eq_true in Hx.
    + destruct (label doc); simpl in *; [by apply bool_decide_eq_true in Hc3|done].
    + by apply forallb_Forall in Hc4.
    + apply forallb_Forall in Hc5. eapply Forall_impl; [exact Hc5|].
      intros x Hx. apply andb_true_iff in Hx as [? Hx].
      by apply bool_decide_eq_true in Hx.
    + by apply forallb_Forall in Hc6.
  - intros (H1 & H2 & H3 & H4 & H5 & H6 & H7 & H8). unfold validateDoc.
    rewrite H1. simpl.
    rewrite !bool_decide_eq_true_2 by done. simpl.
    assert (forallb (λ tag, bool_decide (String.length tag ≤ 50)%nat) (tags doc) = true) as ->.
    { apply forallb_Forall. eapply Forall_impl; [exact H4|].
      intros x Hx. by apply bool_decide_eq_true. }
    simpl.
    assert (from_option (λ l, bool_decide (l ∈ labelEnum)) true (label doc) = true) as ->.
    { destruct (label doc); simpl in *; [by apply bool_decide_eq_true|done]. }
    simpl.
    assert (forallb (λ a, truthy (url a)) (attachments doc) = true) as ->
      by (by apply forallb_Forall).
    simpl.
    assert (forallb (λ c, truthy (c_text c)
                          && bool_decide (String.length (c_text c) ≤ 1000)%nat)
              (comments doc) = true) as ->.
    { apply forallb_Forall. eapply Forall_impl; [exact H7|].
      intros x [Hx1 Hx2]. rewrite Hx1. simpl. by apply bool_decide_eq_true. }
    simpl.
    assert (forallb validSubTodo (subtasks doc) = true) as -> by (by apply forallb_Forall).
    reflexivity.
Qed.

Lemma chosen_Some {A} (value : option A) cond a :
  chosen value cond = Some a → value = Some a ∧ cond a = true.
Proof.
  destruct value as [x|]; simpl; [|done]. destruct (cond x) eqn:E; [|done].
  by intros [= <-].
Qed.

Lemma bind_inr {A B} (x : Result A) (k : A → Result B) b :
  match x with inl err => inl err | inr a => k a end = inr b →
  ∃ a, x = inr a ∧ k a = inr b.
Proof. destruct x as [e|a]; [done|]. eauto. Qed.

(** Split a run of [_ <- step;; ...] that returned into its steps. *)
Ltac steps H :=
  repeat (let E := fresh "Hstep" in apply bind_inr in H as ([] & E & H)).

Lemma whenDefined_Some {A} (a : A) check : whenDefined (Some a) check = check a.
Proof. reflexivity. Qed.

Lemma throwIf_inr cond err : throwIf cond err = inr tt → cond = false.
Proof. by destruct cond. Qed.

Lemma validateTags_inv index tags :
  validateTags index tags = inr tt → Forall (λ tag, String.length tag ≤ 50)%nat tags.
Proof.
  revert index. induction tags as [|tag rest IH]; intros index H; [done|].
  simpl in H. steps H. apply throwIf_inr, bool_decide_eq_false in Hstep0.
  constructor; [lia|]. by eapply IH.
Qed.

Lemma validateTodo_inv now body :
  validateTodo now body = inr tt →
  (∀ t, b_title body = Some t →
        String.length (trim t) ≠ 0%nat ∧ (String.length t ≤ 200)%nat)
  ∧ (∀ d, b_description body = Some d → (String.length d ≤ 2000)%nat)
  ∧ (∀ l, b_tags body = Some l → Forall (λ tag, String.length tag ≤ 50)%nat l).
Proof.
  intros H. unfold validateTodo in H. steps H. clear H.
  split_and!.
  - intros t Ht. rewrite Ht in Hstep0, Hstep2. cbv beta iota zeta delta [default from_option] in Hstep0, Hstep2.
    apply throwIf_inr in Hstep0, Hstep2.
    apply bool_decide_eq_false in Hstep0, Hstep2. split; [done|by apply Nat.nlt_ge].
  - intros d Hd. rewrite Hd, whenDefined_Some in Hstep3.
    apply throwIf_inr, bool_decide_eq_false in Hstep3. by apply Nat.nlt_ge.
  - intros l Hl. rewrite Hl, whenDefined_Some in Hstep6. steps Hstep6.
    by eapply validateTags_inv.
Qed.

Lemma schemaValid_applyTodoBody now body todo :
  validateTodo now body = inr tt → labelOk body → schemaValid todo →
  schemaValid (applyTodoBody body todo).1.
Proof.
  intros Hbody Hlabel (H1 & H2 & H3 & H4 & H5 & H6 & H7 & H8).
  apply validateTodo_inv in Hbody as (Bt & Bd & Bl).
  rewrite applyTodoBody_eq. unfold schemaValid. simpl. split_and!; try done.
  - destruct (chosen (b_title body) _) as [t|] eqn:E; simpl; [|done].
    apply chosen_Some in E as [E _]. apply truthy_trim. by apply Bt.
  - destruct (chosen (b_title body) _) as [t|] eqn:E; simpl; [|done].
    apply chosen_Some in E as [E _]. pose proof (trim_length t). apply Bt in E as [_ E]. lia.
  - destruct (chosen (b_description body) _) as [d|] eqn:E; simpl; [|done].
    apply chosen_Some in E as [E _]. pose proof (trim_length d). apply Bd in E. lia.
  - destruct (b_tags body) as [l|] eqn:E; simpl; [|done].
    apply Forall_fmap. eapply Forall_impl; [by apply Bl|].
    intros tag Htag. unfold compose. simpl in *. pose proof (trim_length tag). lia.
  - destruct (chosen (b_label body) _) as [l|] eqn:E; simpl; [|done].
    apply chosen_Some in E as [E _]. unfold labelOk in Hlabel. rewrite E in Hlabel.
    by destruct l.
Qed.

Lemma logged_elem {A} key old (new : A → Val) choice k o n :
  (k, OldNew o n) ∈ logged key old new choice →
  k = key ∧ o = old ∧ ∃ a, choice = Some a ∧ n = new a.
Proof.
  destruct choice as [a|]; simpl; [|by intros ?%elem_of_nil].
  intros [= -> -> ->]%list_elem_of_singleton. eauto.
Qed.

Lemma updateTodo_forbidden now db reqUserId todoId todo body :
  todos db !! todoId = Some todo → reqUserId ≠ userId todo →
  updateTodo now db reqUserId todoId body = inl (ApiError 403 "Permission denied").
Proof.
  intros Hlook Hne. unfold updateTodo, throwIf, isOwner. rewrite Hlook. simpl.
  by rewrite bool_decide_eq_false_2.
Qed.

(** The pairs [updateTodo] records are the stored value and the value sent,
    and every path whose stored value changes has one. *)
Lemma applyTodoBody_pairs body todo :
  let '(todo', pairs) := applyTodoBody body todo in
  (∀ key old new, (key, OldNew old new) ∈ pairs →
     fieldVal key todo = Some old ∧ requested key body = Some new)
  ∧ (∀ key, fieldVal key todo' ≠ fieldVal key todo →
     ∃ old new, (key, OldNew old new) ∈ pairs).
Proof.
  rewrite applyTodoBody_eq. split.
  - intros key old new Hin. rewrite !elem_of_app in Hin.
    destruct Hin as [H|[H|[H|[H|[H|[H|[H|H]]]]]]];
      apply logged_elem in H as (-> & -> & a & Ha & ->);
      try apply chosen_Some in Ha as [Ha _];
      (split; [reflexivity|]); unfold requested; simpl; by rewrite Ha.
  - intros key Hne. unfold fieldVal in Hne.
    repeat case_decide; try done; subst key; simpl in Hne;
      match type of Hne with
      | context [chosen ?v ?c] => destruct (chosen v c) as [a|] eqn:E; [|done]
      | context [b_dueDate body] => destruct (b_dueDate body) as [a|] eqn:E; [|done]
      | context [b_tags body] => destruct (b_tags body) as [a|] eqn:E; [|done]
      end;
      do 2 eexists; rewrite !elem_of_app; simpl; rewrite !list_elem_of_singleton;
      eauto 10.
Qed.

Lemma fieldVal_preSave key isNew snapshot now doc :
  fieldVal key (preSave isNew snapshot now doc) = fieldVal key doc.
Proof.
  unfold preSave, activityHook, progressHook, timestampsHook.
  destruct (isNew || isModified snapshot doc); simpl;
    match goal with |- context [if ?c then _ else _] => destruct c end; reflexivity.
Qed.

(** Bob holds [edit] on Alice's todo, sends a new title that passes
    [validateTodo], and is answered 403. *)
Lemma updateTodo_edit_share_forbidden :
  todos shared_shop !! "t1" = Some shared_milk
  ∧ userId shared_milk = "alice"
  ∧ sharedWith shared_milk = [mkShareEntry "bob" Edit 150]
  ∧ validateTodo 200 rename_body = inr tt
  ∧ updateTodo 200 shared_shop "bob" "t1" rename_body
      = inl (ApiError 403 "Permission denied")
  ∧ route 200 "n1" shared_shop "bob" "t1" (PATCH_todo rename_body)
      = inl (ApiError 403 "Permission denied").
Proof. vm_compute. done. Qed.

(** C3, as the code has it. [updateTodo] answers 403 to whoever is not the
    owner, whatever [sharedWith] grants them. For the owner, a body that
    passes [validateTodo] and records at least one pair is saved, and the
    log gains exactly one entry that carries a payload: an [updated] entry
    by the owner whose [changes] hold, for each path, the stored value as
    [old] and the value sent as [new], with a pair for every path whose
    stored value changes. *)
Theorem updateTodo_owner_only now db reqUserId todoId todo body :
  todos db !! todoId = Some todo → _id todo = todoId →
  (reqUserId ≠ userId todo →
     updateTodo now db reqUserId todoId body = inl (ApiError 403 "Permission denied"))
  ∧ (reqUserId = userId todo →
     validateTodo now body = inr tt → labelOk body → validateDoc todo = inr tt →
     (applyTodoBody body todo).2 ≠ [] →
     ∃ doc' db' rest,
       updateTodo now db reqUserId todoId body = inr (doc', db')
       ∧ todos db' !! todoId = Some doc'
       ∧ activityLog doc' =
           activityLog todo
           ++ mkActivityEntry Updated reqUserId (Some (applyTodoBody body todo).2) now :: rest
       ∧ Forall (λ e, changes e = None) rest
       ∧ (∀ key old new, (key, OldNew old new) ∈ (applyTodoBody body todo).2 →
            fieldVal key todo = Some old ∧ requested key body = Some new)
       ∧ (∀ key, fieldVal key doc' ≠ fieldVal key todo →
            ∃ old new, (key, OldNew old new) ∈ (applyTodoBody body todo).2)).
Proof.
  intros Hlook Hid. split; [by apply updateTodo_forbidden|].
  intros -> Hbody Hlabel Hvalid Hpairs.
  pose proof (applyTodoBody_pairs body todo) as Hspec.
  pose proof (schemaValid_applyTodoBody now body todo Hbody Hlabel) as Hschema.
  assert (_id (applyTodoBody body todo).1 = _id todo
          ∧ userId (applyTodoBody body todo).1 = userId todo
          ∧ activityLog (applyTodoBody body todo).1 = activityLog todo) as (Hi & Hu & Hl)
    by (by rewrite applyTodoBody_eq).
  unfold updateTodo, throwIf, isOwner. rewrite Hlook. simpl.
  rewrite bool_decide_eq_true_2 by done. simpl.
  destruct (applyTodoBody body todo) as [todo' pairs]. simpl in *.
  destruct Hspec as [Hold Hnew].
  rewrite bool_decide_eq_true_2 by (destruct pairs; [done|simpl; lia]).
  rewrite save_valid.
  2:{ erewrite validateDoc_frame; try reflexivity.
      apply validateDoc_schemaValid, Hschema. by apply validateDoc_schemaValid. }
  eexists _, _, [mkActivityEntry Updated (userId todo) None now].
  split; [reflexivity|]. simpl. rewrite Hi, Hid, Hlook.
  split; [apply lookup_insert_eq|].
  split; [by rewrite (preSave_pushed now todo), Hu by done|].
  split; [by repeat constructor|].
  split; [done|].
  intros key. rewrite fieldVal_preSave. apply Hnew.
Qed.

Lemma updateTodo_owner_only_witness :
  (todos shop !! "t1" = Some milk ∧ _id milk = "t1" ∧ "alice" = userId milk
   ∧ validateTodo 200 rename_body = inr tt ∧ labelOk rename_body
   ∧ validateDoc milk = inr tt ∧ (applyTodoBody rename_body milk).2 ≠ [])
  ∧ ∃ doc' db' rest,
      updateTodo 200 shop "alice" "t1" rename_body = inr (doc', db')
      ∧ todos db' !! "t1" = Some doc'
      ∧ activityLog doc' =
          activityLog milk
          ++ mkActivityEntry Updated "alice" (Some (applyTodoBody rename_body milk).2) 200
             :: rest
      ∧ Forall (λ e, changes e = None) rest
      ∧ (∀ key old new, (key, OldNew old new) ∈ (applyTodoBody rename_body milk).2 →
           fieldVal key milk = Some old ∧ requested key rename_body = Some new)
      ∧ (∀ key, fieldVal key doc' ≠ fieldVal key milk →
           ∃ old new, (key, OldNew old new) ∈ (applyTodoBody rename_body milk).2).
Proof.
  assert (todos shop !! "t1" = Some milk) as H1 by (vm_compute; reflexivity).
  assert (validateTodo 200 rename_body = inr tt) as H2 by (vm_compute; reflexivity).
  assert (labelOk rename_body) as H3 by exact I.
  assert (validateDoc milk = inr tt) as H4 by (vm_compute; reflexivity).
  assert ((applyTodoBody rename_body milk).2 ≠ []) as H5 by (vm_compute; discriminate).
  split; [done|].
  exact (proj2 (updateTodo_owner_only 200 shop "alice" "t1" milk rename_body H1 eq_refl)
           eq_refl H2 H3 H4 H5).
Defined.

(** ** Requests for a todo that is not stored *)

Lemma only400_throwIf cond msg : only400 (throwIf cond (ApiError 400 msg)).
Proof. intros err. destruct cond; simpl; [by intros [= <-]|done]. Qed.

Lemma only400_ret {A} (a : A) : only400 (inr a : Result A).
Proof. by intros err. Qed.

Lemma only400_bind {A B} (x : Result A) (k : A → Result B) :
  only400 x → (∀ a, only400 (k a)) →
  only400 (match x with inl err => inl err | inr a => k a end).
Proof.
  intros Hx Hk err. destruct x as [e|a]; [intros [= <-]; by apply Hx | apply Hk].
Qed.

Lemma only400_whenDefined {A} (value : option A) (check : A → Result unit) :
  (∀ a, only400 (check a)) → only400 (whenDefined value check).
Proof. intros H. destruct value; simpl; [apply H | apply only400_ret]. Qed.

Lemma only400_validateTags index tags : only400 (validateTags index tags).
Proof.
  revert index. induction tags as [|tag rest IH]; intros index; simpl;
    [apply only400_ret|].
  apply only400_bind; [apply only400_throwIf|intros ?].
  apply only400_bind; [apply only400_throwIf|intros ?]. apply IH.
Qed.

Ltac only400 :=
  repeat first
    [ apply only400_throwIf
    | apply only400_validateTags
    | apply only400_ret
    | apply only400_whenDefined; intros ?
    | apply only400_bind; [|intros ?] ].



Lemma validateTimeTracking_400 timeSpent : only400 (validateTimeTracking timeSpent).
Proof.
  unfold validateTimeTracking. destruct timeSpent; [only400|].
  intros err [= <-]. reflexivity.
Qed.





(** ** The subtask tree *)

Lemma forest_nodes_traversal tasks : forest_nodes tasks = (traversal tasks).*1.
Proof.
  unfold forest_nodes, traversal.
  induction tasks as [|t rest IH]; [done|]. simpl. rewrite fmap_app, IH. f_equal.
  clear IH. induction t as [f kids IH] using SubTodo_forest_ind. simpl. f_equal.
  induction IH as [|k kids' Hk _ IHk]; [done|]. simpl. by rewrite fmap_app, Hk, IHk.
Qed.


Lemma updateFirst_none {A} (P : A → bool) g l :
  existsb P l = false → updateFirst P g l = l.
Proof.
  induction l as [|x l IH]; [done|]. simpl. destruct (P x); [done|].
  simpl. intros H. by rewrite IH.
Qed.

Lemma updateFirst_app {A} (P : A → bool) g l1 l2 :
  updateFirst P g (l1 ++ l2) =
    if existsb P l1 then updateFirst P g l1 ++ l2 else l1 ++ updateFirst P g l2.
Proof.
  induction l1 as [|x l1 IH]; [done|]. simpl. destruct (P x); [done|].
  simpl. rewrite IH. by destruct (existsb P l1).
Qed.

Lemma forReturn_length {A} (body : A → bool * A) l :
  length (forReturn body l).2 = length l.
Proof.
  induction l as [|x l IH]; [done|]. simpl. destruct (body x) as [[] x']; [done|].
  destruct (forReturn body l) as [found rest]. simpl in *. by rewrite IH.
Qed.

Lemma forReturn_update now body id tasks :
  Forall (update_at_spec now body id) tasks →
  let r := forReturn (findAndUpdateSubtask_at now body id) tasks in
  r.1 = existsb (hasId id) (traversal tasks)
  ∧ traversal r.2 = updateFirst (hasId id) (patchNode now body) (traversal tasks)
  ∧ (r.1 = false → r.2 = tasks).
Proof.
  induction 1 as [|t rest (Hf & Hp & Hn) _ IH]; [done|].
  simpl in *. unfold traversal in *. simpl.
  rewrite existsb_app, updateFirst_app, <- Hf.
  destruct (findAndUpdateSubtask_at now body id t) as [[] t']; simpl in *.
  - by rewrite Hp.
  - destruct IH as (IHf & IHp & IHn).
    destruct (forReturn _ rest) as [found rest']. simpl in *.
    rewrite (Hn eq_refl) in *. split; [done|]. split; [by rewrite IHp|].
    intros Hfalse. by rewrite IHn.
Qed.

Lemma findAndUpdateSubtask_at_spec now body id task : update_at_spec now body id task.
Proof.
  induction task as [f kids IH] using SubTodo_forest_ind.
  unfold update_at_spec. simpl. unfold hasId at 1 3. simpl.
  case_bool_decide as Hid; simpl; [done|].
  apply forReturn_update in IH as (Hf & Hp & Hn).
  pose proof (forReturn_length (findAndUpdateSubtask_at now body id) kids) as Hlen.
  fold (traversal kids).
  destruct kids as [|k kids']; [done|].
  destruct (forReturn _ (k :: kids')) as [found kids'']. simpl in *.
  fold (traversal kids''). rewrite Hp, Hlen, Hf. split; [done|]. split; [done|].
  intros Hfalse. rewrite Hn; [done|]. by rewrite Hf.
Qed.

Lemma findAndUpdateSubtask_spec now body id tasks :
  let r := findAndUpdateSubtask now body tasks id in
  r.1 = existsb (hasId id) (traversal tasks)
  ∧ traversal r.2 = updateFirst (hasId id) (patchNode now body) (traversal tasks)
  ∧ (r.1 = false → r.2 = tasks).
Proof.
  apply forReturn_update, Forall_forall. intros t _. apply findAndUpdateSubtask_at_spec.
Qed.



Lemma validateSubtask_inv body :
  validateSubtask body = inr tt →
  (∃ t, sb_title body = Some t ∧ truthy t = true
        ∧ String.length (trim t) ≠ 0%nat ∧ (String.length t ≤ 200)%nat)
  ∧ (∀ d, sb_description body = Some d → (String.length d ≤ 1000)%nat).
Proof.
  intros H. unfold validateSubtask in H. steps H. clear H.
  apply throwIf_inr in Hstep, Hstep0, Hstep2.
  split.
  - destruct (sb_title body) as [t|]; simpl in *; [|done].
    exists t. apply negb_false_iff in Hstep.
    apply bool_decide_eq_false in Hstep0, Hstep2. split_and!; [done|done|done|lia].
  - intros d Hd. rewrite Hd, whenDefined_Some in Hstep3.
    apply throwIf_inr, bool_decide_eq_false in Hstep3. by apply Nat.nlt_ge.
Qed.






Lemma fmap_updateFirst_same {A B} (P : A → bool) (g : A → A) (h : A → B) l :
  (∀ x, h (g x) = h x) → h <$> updateFirst P g l = h <$> l.
Proof.
  intros Hg. induction l as [|x l IH]; [done|]. simpl.
  destruct (P x); simpl; [by rewrite Hg | by f_equal].
Qed.

(** C10. A subtask update whose body has [completed: false] leaves
    [completedAt] as it was on every node of the tree: the matched node gets
    [completed = false] and keeps the date it was stamped with when it was
    completed. *)
Theorem updateSubtask_keeps_completedAt now body subtasks id :
  sb_completed body = Some false →
  let subtasks' := (findAndUpdateSubtask now body subtasks id).2 in
  s_completedAt <$> forest_nodes subtasks' = s_completedAt <$> forest_nodes subtasks
  ∧ ∀ f completedAt_,
      s_completed f = true → s_completedAt f = Some completedAt_ →
      s_completed (applySubtaskBody now body f) = false
      ∧ s_completedAt (applySubtaskBody now body f) = Some completedAt_.
Proof.
  intros Hbody.
  assert (∀ f, s_completed (applySubtaskBody now body f) = false
               ∧ s_completedAt (applySubtaskBody now body f) = s_completedAt f) as Happly.
  { intros f. unfold applySubtaskBody. rewrite Hbody.
    destruct (sb_title body) as [t|]; [destruct (truthy t)|];
      destruct (sb_description body), (sb_status body), (sb_priority body),
        (sb_dueDate body); done. }
  simpl. split.
  - destruct (findAndUpdateSubtask_spec now body id subtasks) as (_ & Htrav & _).
    rewrite !forest_nodes_traversal, Htrav, <- !list_fmap_compose.
    apply fmap_updateFirst_same. intros [f n]. simpl. apply Happly.
  - intros f d _ Hd. destruct (Happly f) as [-> ->]. done.
Qed.

Lemma updateSubtask_keeps_completedAt_witness :
  sb_completed undone_body = Some false
  ∧ (s_completedAt <$> forest_nodes (findAndUpdateSubtask 200 undone_body (subtasks milk) "s1").2
       = s_completedAt <$> forest_nodes (subtasks milk))
  ∧ ∀ f completedAt_,
      s_completed f = true → s_completedAt f = Some completedAt_ →
      s_completed (applySubtaskBody 200 undone_body f) = false
      ∧ s_completedAt (applySubtaskBody 200 undone_body f) = Some completedAt_.
Proof.
  exact (conj eq_refl
           (updateSubtask_keeps_completedAt 200 undone_body (subtasks milk) "s1" eq_refl)).
Defined.

(** The first subtask of the sample, done at 150, after [completed: false]
    at 200. *)
Example uncompleted_subtask_keeps_its_date :
  (s_fields <$> (findAndUpdateSubtask 200 undone_body (subtasks milk) "s1").2) !! 0%nat
    = Some (s_fields (sub "s1" "Pick brand" false (Some 150) [])
              <| s_status := St_completed |>).
Proof. vm_compute. reflexivity. Qed.

(** ** Queries and soft deletion *)

Lemma find_without db todoId todo (P : Todo → bool) :
  todos db !! todoId = Some todo → P todo = false →
  find (without todoId db) P = find db P.
Proof.
  intros Hlook HP. unfold find, without. simpl.
  apply map_filter_delete_not. intros y Hy. rewrite Hlook in Hy.
  injection Hy as <-. simpl. by rewrite HP.
Qed.

Lemma elem_of_exec spec (found : gmap string Todo) doc :
  doc ∈ exec spec found ↔ ∃ k, found !! k = Some doc.
Proof.
  unfold exec.
  assert (sortDocs spec (map_to_list found).*2 ≡ₚ (map_to_list found).*2) as ->.
  { destruct spec; simpl; [done|..]; apply merge_sort_Permutation. }
  rewrite list_elem_of_fmap. split.
  - intros ([k d] & -> & Hin). exists k. by apply elem_of_map_to_list.
  - intros (k & Hk). exists (k, doc). split; [done|]. by apply elem_of_map_to_list.
Qed.

Lemma not_in_exec_find spec db (P : Todo → bool) doc :
  P doc = false → doc ∉ exec spec (find db P).
Proof.
  intros HP (k & Hk)%elem_of_exec. unfold find in Hk.
  apply map_lookup_filter_Some in Hk as [_ Hk]. simpl in Hk. congruence.
Qed.

(** A predicate that asks for [isDeleted: false] rejects a deleted document. *)
Ltac rejects_deleted Hdel :=
  simpl; rewrite Hdel; simpl; rewrite ?andb_false_r; reflexivity.

Lemma answer_without regexTest now db reqUserId todoId todo q :
  todos db !! todoId = Some todo → isDeleted todo = true →
  answer regexTest now (without todoId db) reqUserId q = answer regexTest now db reqUserId q.
Proof.
  intros Hlook Hdel.
  destruct q; simpl;
    unfold getAllTodos, getTodosByStatus, getOverdueTodos, getTodosByPriority,
      getArchivedTodos, getTodoStats, getTodayTodos, getTodosByTag, getAllTags,
      searchTodos, countByStatus, countDocuments, findByUserAndStatus, findOverdue,
      findByPriority;
    try destruct (throwIf _ _) as [?|[]]; try reflexivity;
    repeat (erewrite (find_without db todoId todo) by (first [exact Hlook | rejects_deleted Hdel]));
    reflexivity.
Qed.

Lemma Docs_inj docs docs' : Docs docs = Docs docs' → docs = docs'.
Proof. by intros [= ->]. Qed.

Lemma answer_not_listed regexTest now db reqUserId todo q docs :
  isDeleted todo = true →
  answer regexTest now db reqUserId q = Docs docs → todo ∉ docs.
Proof.
  intros Hdel.
  destruct q;
    unfold answer, getAllTodos, getTodosByStatus, getOverdueTodos, getTodosByPriority,
      getArchivedTodos, getTodayTodos, getTodosByTag, searchTodos,
      findByUserAndStatus, findOverdue, findByPriority;
    try destruct (throwIf _ _) as [?|[]]; try (intros Habs; discriminate Habs);
    intros <-%Docs_inj; apply not_in_exec_find; rejects_deleted Hdel.
Qed.

Lemma deleteTodo_owner now db todoId todo :
  todos db !! todoId = Some todo →
  deleteTodo now db (userId todo) todoId = inr (softDelete now db todoId)
  ∧ todos (softDelete now db todoId) !! todoId
      = Some (todo <| isDeleted := true |> <| deletedAt := Some now |> <| updatedAt := now |>)
  ∧ dom (todos (softDelete now db todoId)) = dom (todos db).
Proof.
  intros Hlook. unfold deleteTodo, throwIf, isOwner. rewrite Hlook. simpl.
  rewrite bool_decide_eq_true_2 by done. simpl. split; [done|].
  unfold softDelete. simpl. rewrite lookup_alter_eq, Hlook. split; [done|].
  apply dom_alter_L.
Qed.

(** C8. A stored todo with [isDeleted = true] is in the result of no
    listing or search, and every query, the statistics and the distinct tags
    included, answers as it would if the document were not in the
    collection. [deleteTodo] by the owner puts a todo in that state at once:
    the document stays in the collection, under the same key, with
    [isDeleted = true] and [deletedAt] set. *)
Theorem soft_deleted_never_listed regexTest now db reqUserId todoId todo q :
  todos db !! todoId = Some todo →
  (isDeleted todo = true →
     answer regexTest now (without todoId db) reqUserId q
       = answer regexTest now db reqUserId q
     ∧ ∀ docs, answer regexTest now db reqUserId q = Docs docs → todo ∉ docs)
  ∧ ∃ db' todo',
      deleteTodo now db (userId todo) todoId = inr db'
      ∧ todos db' !! todoId = Some todo'
      ∧ todo' = todo <| isDeleted := true |> <| deletedAt := Some now |>
                     <| updatedAt := now |>
      ∧ dom (todos db') = dom (todos db)
      ∧ answer regexTest now (without todoId db') reqUserId q
          = answer regexTest now db' reqUserId q
      ∧ ∀ docs, answer regexTest now db' reqUserId q = Docs docs → todo' ∉ docs.
Proof.
  intros Hlook. split.
  - intros Hdel. split; [by eapply answer_without|].
    intros docs. by apply answer_not_listed.
  - destruct (deleteTodo_owner now db todoId todo Hlook) as (Hrun & Hlook' & Hdom).
    eexists _, _. split; [exact Hrun|]. split; [exact Hlook'|]. split; [reflexivity|].
    split; [exact Hdom|]. split; [by eapply answer_without|].
    intros docs. by apply answer_not_listed.
Qed.

Lemma soft_deleted_never_listed_witness :
  (todos deleted_shop !! "t1" = Some deleted_milk ∧ isDeleted deleted_milk = true)
  ∧ answer (λ _ _, true) 200 (without "t1" deleted_shop) "alice"
        (GET_todos None None None None)
      = answer (λ _ _, true) 200 deleted_shop "alice" (GET_todos None None None None)
  ∧ ∀ docs,
      answer (λ _ _, true) 200 deleted_shop "alice" (GET_todos None None None None)
        = Docs docs →
      deleted_milk ∉ docs.
Proof.
  assert (todos deleted_shop !! "t1" = Some deleted_milk) as H by (vm_compute; reflexivity).
  split; [done|].
  exact (proj1 (soft_deleted_never_listed (λ _ _, true) 200 deleted_shop "alice" "t1"
                  deleted_milk (GET_todos None None None None) H) eq_refl).
Defined.

(** The sample collection answers its owner with the todo before the
    deletion and with nothing after it. *)
Example listing_before_and_after_delete :
  getAllTodos shop "alice" None None None None = [milk]
  ∧ getAllTodos (softDelete 200 shop "t1") "alice" None None None None = []
  ∧ st_total (getTodoStats 200 shop "alice") = 1%nat
  ∧ st_total (getTodoStats 200 (softDelete 200 shop "t1") "alice") = 0%nat.
Proof. vm_compute. done. Qed.

(** ** Requests touch the document they address *)

Lemma save_other now db doc doc' db' other :
  save now db doc = inr (doc', db') → _id doc ≠ other →
  todos db' !! other = todos db !! other.
Proof.
  intros (_ & _ & ->)%save_inv Hne. simpl. by rewrite lookup_insert_ne.
Qed.

Lemma create_other now db doc doc' db' other :
  create now db doc = inr (doc', db') → is_Some (todos db !! other) →
  todos db' !! other = todos db !! other.
Proof.
  intros (_ & Hfresh & _ & ->)%create_inv Hsome. simpl.
  rewrite lookup_insert_ne; [done|]. intros <-. rewrite Hfresh in Hsome. by destruct Hsome.
Qed.

Lemma orNotFound_inr {A} (found : option A) msg a :
  orNotFound found msg = inr a → found = Some a.
Proof. destruct found; simpl; congruence. Qed.

(** Split every run of [x <- step;; ...] that returned into its steps. *)
Ltac walk :=
  repeat match goal with
         | H : match ?x with inl _ => _ | inr _ => _ end = inr _ |- _ =>
             let E := fresh "Hstep" in destruct x eqn:E; [discriminate H|]
         | H : (let '(_, _) := ?x in _) = inr _ |- _ =>
             let E := fresh "Hpair" in destruct x eqn:E
         | H : orNotFound _ _ = inr _ |- _ => apply orNotFound_inr in H
         end.

Lemma save_id now db doc doc' db' : save now db doc = inr (doc', db') → _id doc' = _id doc.
Proof. intros (_ & -> & _)%save_inv. apply preSave_id. Qed.

(** Follow the saves of a request back to the collection it started from. *)
Ltac chase :=
  lazymatch goal with
  | |- ?a = ?a => reflexivity
  | Hs : save _ ?x _ = inr (_, ?d) |- todos ?d !! _ = _ =>
      etrans; [eapply save_other; [exact Hs|]; simpl in *; congruence|];
      pose proof (save_id _ _ _ _ _ Hs); clear Hs; chase
  | Hs : create _ ?x _ = inr (_, ?d) |- todos ?d !! _ = _ =>
      etrans; [eapply create_other; [exact Hs|]; eauto|]; clear Hs; chase
  end.

Lemma route_other now newId db reqUserId todoId request db' other doc :
  keyed db → todos db !! other = Some doc → todoId ≠ other →
  route now newId db reqUserId todoId request = inr db' →
  todos db' !! other = Some doc.
Proof.
  intros Hkeyed Hother Hne Hrun. rewrite <- Hother.
  destruct request; simpl in Hrun;
    unfold stored, updateTodo, deleteTodo, addSubtask, updateSubtask, deleteSubtask,
      completeTodo, incompleteTodo, logTimeSpent, addComment, updateComment, deleteComment,
      addAttachment, deleteAttachment, shareTodo, revokeTodoShare, archiveTodo,
      unarchiveTodo, assignTodo, unassignTodo, addWatcher, removeWatcher, duplicateTodo,
      complete, incomplete in Hrun;
    walk;
    repeat match goal with
           | Hx : todos db !! todoId = Some ?t |- _ =>
               lazymatch goal with
               | _ : _id t = todoId |- _ => fail
               | _ => pose proof (Hkeyed _ _ Hx)
               end
           end;
    repeat match goal with p : (Todo * DB)%type |- _ => destruct p end;
    simpl in *;
    try (injection Hrun as <-);
    try chase.
  - eapply save_other; [exact Hstep0|].
    assert (_id t0 = _id t) as Hid.
    { change t0 with (t0, l).1. rewrite <- Hpair, applyTodoBody_eq. reflexivity. }
    destruct (bool_decide _); simpl; congruence.
  - unfold softDelete. simpl. by rewrite lookup_alter_ne.
  - pose proof (save_id _ _ _ _ _ Hstep2) as Hid. simpl in Hid.
    etrans; [eapply save_other; [exact Hstep|]; simpl; congruence|].
    eapply save_other; [exact Hstep2|]. simpl. congruence.
Qed.

(** ** Duplication *)

Lemma jsonClone_same subtasks : jsonClone subtasks = subtasks.
Proof.
  unfold jsonClone. induction subtasks as [|t rest IH]; [done|]. simpl. rewrite IH. f_equal.
  clear IH. induction t as [f kids IH] using SubTodo_forest_ind. simpl.
  f_equal; [by destruct f|].
  induction IH as [|k kids' Hk _ IHk]; [done|]. simpl. by rewrite Hk, IHk.
Qed.

Lemma trimStart_ink s : hasInk s = true → hasInk (trimStart s) = true.
Proof.
  induction s as [|c r IH]; [done|]. simpl. destruct (is_space c) eqn:E; simpl; [done|].
  by rewrite E.
Qed.

Lemma trimEnd_ink s : hasInk s = true → trimEnd s ≠ EmptyString.
Proof.
  induction s as [|c r IH]; [done|]. simpl.
  destruct (is_space c) eqn:E; simpl.
  - intros Hr. destruct (trimEnd r); [by apply IH|done].
  - intros _. by destruct (trimEnd r).
Qed.

Lemma hasInk_app s u : hasInk u = true → hasInk (s +:+ u) = true.
Proof. intros Hu. induction s as [|c r IH]; simpl; [done|]. by rewrite IH, orb_true_r. Qed.

Lemma length_string_app s u :
  String.length (s +:+ u) = (String.length s + String.length u)%nat.
Proof. induction s as [|c r IH]; simpl; [done|]. by rewrite IH. Qed.

Lemma truthy_trim_ink s : hasInk s = true → truthy (trim s) = true.
Proof.
  intros H. unfold truthy, trim. apply negb_true_iff, bool_decide_eq_false.
  by apply trimEnd_ink, trimStart_ink.
Qed.

(** The copy of a todo with a title of 194 characters is refused by the
    schema: its title would have 201. *)
Lemma duplicateTodo_long_title :
  todos long_shop !! "t1" = Some long_milk
  ∧ userId long_milk = "alice"
  ∧ validateDoc long_milk = inr tt
  ∧ String.length (title long_milk) = 194%nat
  ∧ todos long_shop !! "t2" = None
  ∧ duplicateTodo 200 "t2" long_shop "alice" "t1" = inl (ValidationError "title")
  ∧ route 200 "t2" long_shop "alice" "t1" POST_duplicate = inl (ValidationError "title").
Proof. vm_compute. done. Qed.

(** C7, as the code has it. [duplicateTodo], called by the owner on a stored
    todo whose title has at most 193 characters, with a fresh id for the new
    document, stores a new todo whose activity log is the single [created]
    entry, whose [sharedWith], [comments] and [attachments] are empty and
    whose subtask tree equals the original's; the original stays as it was,
    then and after any later request addressed to the copy. *)
Theorem duplicateTodo_copy now newId db todoId original :
  keyed db → todos db !! todoId = Some original → validateDoc original = inr tt →
  (String.length (title original) ≤ 193)%nat → todos db !! newId = None →
  ∃ copy db',
    duplicateTodo now newId db (userId original) todoId = inr (copy, db')
    ∧ _id copy = newId ∧ userId copy = userId original
    ∧ todos db' !! newId = Some copy ∧ todos db' !! todoId = Some original
    ∧ activityLog copy = [mkActivityEntry Created (userId original) None now]
    ∧ sharedWith copy = [] ∧ comments copy = [] ∧ attachments copy = []
    ∧ subtasks copy = subtasks original
    ∧ ∀ now' newId' reqUserId request db'',
        route now' newId' db' reqUserId newId request = inr db'' →
        todos db'' !! todoId = Some original.
Proof.
  intros Hkeyed Hlook Hvalid Hlen Hfresh.
  assert (newId ≠ todoId) as Hne by (intros ->; congruence).
  unfold duplicateTodo, throwIf, isOwner. rewrite Hlook. simpl.
  rewrite bool_decide_eq_true_2 by done. simpl.
  rewrite create_valid; [| |exact Hfresh].
  2:{ apply validateDoc_schemaValid. apply validateDoc_schemaValid in Hvalid.
      destruct Hvalid as (_ & _ & Hd & Htags & _ & _ & _ & Hsub).
      unfold schemaValid. simpl. rewrite jsonClone_same. split_and!; try done.
      - apply truthy_trim_ink. by apply hasInk_app.
      - pose proof (trim_length (title original +:+ " (Copy)")) as Ht.
        rewrite length_string_app in Ht. simpl in Ht. lia.
      - pose proof (trim_length (description original)). lia.
      - apply Forall_fmap. eapply Forall_impl; [exact Htags|].
        intros tag Htag. unfold compose. simpl in *. pose proof (trim_length tag). lia. }
  match goal with
  | |- context [preSave true None now ?d] =>
      change (_id (schemaSetters d)) with newId in *; change (_id d) with newId;
      set (copy := preSave true None now d);
      destruct (preSave_frame true None now d)
        as (Hi & Hu & Hs & _ & _ & _ & Hsh & Hc & Ha & _);
      pose proof (preSave_new_log now d) as Hl
  end.
  fold copy in Hi, Hu, Hs, Hsh, Hc, Ha, Hl. simpl in Hi, Hu, Hs, Hsh, Hc, Ha, Hl.
  rewrite jsonClone_same in Hs.
  exists copy, (withTodos db (<[newId := copy]> (todos db))).
  split; [reflexivity|]. simpl. split_and!; try done.
  - apply lookup_insert_eq.
  - by rewrite lookup_insert_ne.
  - apply jsonClone_same.
  - intros now' newId' reqUserId request db'' Hrun.
    eapply route_other; [| |exact Hne|exact Hrun].
    + intros k doc. simpl. rewrite lookup_insert. case_decide as Hk.
      * by intros [= <-].
      * apply Hkeyed.
    + simpl. by rewrite lookup_insert_ne.
Qed.

Lemma duplicateTodo_copy_witness :
  (keyed shop ∧ todos shop !! "t1" = Some milk ∧ validateDoc milk = inr tt
   ∧ (String.length (title milk) ≤ 193)%nat ∧ todos shop !! "t2" = None)
  ∧ ∃ copy db',
      duplicateTodo 200 "t2" shop (userId milk) "t1" = inr (copy, db')
      ∧ _id copy = "t2" ∧ userId copy = userId milk
      ∧ todos db' !! "t2" = Some copy ∧ todos db' !! "t1" = Some milk
      ∧ activityLog copy = [mkActivityEntry Created (userId milk) None 200]
      ∧ sharedWith copy = [] ∧ comments copy = [] ∧ attachments copy = []
      ∧ subtasks copy = subtasks milk
      ∧ ∀ now' newId' reqUserId request db'',
          route now' newId' db' reqUserId "t2" request = inr db'' →
          todos db'' !! "t1" = Some milk.
Proof.
  assert (keyed shop) as H0.
  { intros k doc Hk. unfold shop in Hk. simpl in Hk.
    apply lookup_singleton_Some in Hk as [Hk1 Hk2]. by subst. }
  assert (todos shop !! "t1" = Some milk) as H1 by (vm_compute; reflexivity).
  assert (validateDoc milk = inr tt) as H2 by (vm_compute; reflexivity).
  assert (String.length (title milk) ≤ 193)%nat as H3 by (vm_compute; lia).
  assert (todos shop !! "t2" = None) as H4 by (vm_compute; reflexivity).
  split; [done|].
  exact (duplicateTodo_copy 200 "t2" shop "t1" milk H0 H1 H2 H3 H4).
Defined.
(** * Further properties *)

(** ** Virtual paths *)

(** X1. On a saved todo the virtual [totalSubtasks], the length
    of [getAllSubtasks()] and the stored [checklistProgress.total] are one
    number, and the save does not change it. *)
Theorem totalSubtasks_after_save now db doc doc' db' :
  save now db doc = inr (doc', db') →
  totalSubtasks doc' = p_total (checklistProgress doc')
  ∧ totalSubtasks doc' = length (getAllSubtasks (subtasks doc'))
  ∧ totalSubtasks doc' = totalSubtasks doc.
Proof.
  intros (_ & -> & _)%save_inv.
  match goal with
  | |- context [preSave ?a ?b ?c ?d] =>
      destruct (preSave_frame a b c d) as (_ & _ & Hs & _ & _ & _ & _ & _ & _ & _ & _ & Hp)
  end.
  unfold totalSubtasks. rewrite Hp, Hs. split_and!.
  - apply countSubtasks_total.
  - rewrite countSubtasks_total, calculateProgress_counted. simpl.
    by rewrite <- getAllSubtasks_nodes, length_fmap.
  - done.
Qed.

Lemma totalSubtasks_after_save_witness :
  save 200 shop (milk <| isArchived := true |>) = inr archived_milk
  ∧ totalSubtasks archived_milk.1 = 3%nat
  ∧ length (getAllSubtasks (subtasks archived_milk.1)) = 3%nat.
Proof.
  assert (save 200 shop (milk <| isArchived := true |>) = inr archived_milk) as H
    by (vm_compute; reflexivity).
  split; [exact H|].
  destruct (totalSubtasks_after_save 200 shop _ archived_milk.1 archived_milk.2 H)
    as (Ht & Hl & _).
  split; [by rewrite Ht | by rewrite <- Hl, Ht].
Defined.

(** X2. [getOverdueTodos] lists exactly the stored todos of the
    requester that are not deleted and whose virtual [isOverdue] holds at the
    same instant. *)
Theorem getOverdueTodos_isOverdue now db reqUserId doc :
  doc ∈ getOverdueTodos now db reqUserId ↔
  (∃ k, todos db !! k = Some doc)
  ∧ userId doc = reqUserId ∧ isOverdue now doc = true ∧ isDeleted doc = false.
Proof.
  unfold getOverdueTodos, findOverdue, find, isOverdue. rewrite elem_of_exec.
  setoid_rewrite map_lookup_filter_Some. simpl.
  split.
  - intros (k & Hk & Hp). repeat (apply andb_true_iff in Hp as [Hp ?]).
    repeat match goal with H : bool_decide _ = true |- _ => apply bool_decide_eq_true in H end.
    split; [by exists k|]. split; [done|]. split; [|done].
    destruct (dueDate doc); simpl in *; [|done]. rewrite H1. simpl.
    by rewrite H0.
  - intros ((k & Hk) & Hu & Ho & Hd). exists k. split; [done|].
    destruct (dueDate doc); simpl in *; [|done].
    apply andb_true_iff in Ho as [Ho Hc]. rewrite Ho. apply negb_true_iff in Hc.
    rewrite !bool_decide_eq_true_2 by done. done.
Qed.

(** X3. Without a due date [daysUntilDue] is [null] and
    [isOverdue] is false. With one, [daysUntilDue] is the least number of
    whole days that reaches the due date from now: it is positive exactly
    when the due date lies ahead, and never positive on an overdue todo. *)
Theorem daysUntilDue_spec now doc :
  match dueDate doc with
  | None => daysUntilDue now doc = None ∧ isOverdue now doc = false
  | Some due =>
      ∃ n, daysUntilDue now doc = Some n
           ∧ (n - 1) * 86400000 < due - now ≤ n * 86400000
           ∧ (0 < n ↔ now < due)
           ∧ (isOverdue now doc = true → n ≤ 0)
  end.
Proof.
  unfold daysUntilDue, isOverdue. destruct (dueDate doc) as [due|]; [|done].
  eexists. split; [reflexivity|].
  change (1000 * 60 * 60 * 24) with 86400000.
  pose proof (Z.div_mod (- (due - now)) 86400000 ltac:(lia)) as Hdm.
  pose proof (Z.mod_pos_bound (- (due - now)) 86400000 ltac:(lia)) as Hb.
  set (q := (- (due - now)) / 86400000) in *.
  split; [lia|]. split; [lia|].
  intros [Hlt _]%andb_true_iff. apply bool_decide_eq_true in Hlt. lia.
Qed.

(** ** Reading one todo *)






(** ** The route table *)

Lemma dispatch_layer layers method path handler params :
  dispatch layers method path = Some (handler, params) →
  ∃ layer, layer ∈ layers ∧ l_method layer = method ∧ l_handler layer = handler
           ∧ matchPath (l_pattern layer) path = Some params.
Proof.
  induction layers as [|layer rest IH]; simpl; [done|].
  case_bool_decide as Hm.
  - destruct (matchPath (l_pattern layer) path) as [ps|] eqn:E.
    + intros [= <- <-]. exists layer. split; [left|done].
    + intros (l & Hin & H)%IH. exists l. split; [by right|done].
  - intros (l & Hin & H)%IH. exists l. split; [by right|done].
Qed.

Lemma dispatch_one_segment seg :
  seg ≠ EmptyString → dispatch router GET [seg] = Some (H_getTodoById, [("todoId", seg)]).
Proof.
  intros Hseg. unfold router. simpl.
  by rewrite bool_decide_eq_false_2.
Qed.

Lemma matchPath_one_literal text path params :
  matchPath [Lit text] path = Some params → text ≠ EmptyString →
  ∃ seg, path = [seg] ∧ seg ≠ EmptyString.
Proof.
  destruct path as [|seg [|seg' rest]]; simpl; [done| |].
  - case_bool_decide as Hl; [|done]. intros _ Htext. exists seg. split; [done|].
    intros ->. simpl in Hl. destruct text; [done|]. done.
  - case_bool_decide; done.
Qed.

Ltac not_listed H :=
  repeat (apply elem_of_cons in H as [H|H]; [discriminate H|]); by apply elem_of_nil in H.

(** X6. [GET /:todoId] is registered before [GET /overdue],
    [/archived], [/all-tags], [/stats] and [/today]: every [GET] request whose
    path is one segment and that is dispatched at all goes to [getTodoById]
    with that segment as [todoId], and
    no request of any method and path reaches [getOverdueTodos],
    [getArchivedTodos], [getAllTags], [getTodoStats] or [getTodayTodos]. *)
Theorem static_get_routes_shadowed method path handler params :
  dispatch router method path = Some (handler, params) →
  (handler ∉ [H_getOverdueTodos; H_getArchivedTodos; H_getAllTags; H_getTodoStats;
              H_getTodayTodos])
  ∧ (∀ seg, path = [seg] → method = GET →
       handler = H_getTodoById ∧ params = [("todoId", seg)]).
Proof.
  intros Hrun. split.
  - intros Hin.
    destruct (dispatch_layer _ _ _ _ _ Hrun) as (layer & Hlayer & Hm & Hh & Hmatch).
    assert (method = GET ∧ ∃ text, l_pattern layer = [Lit text] ∧ text ≠ EmptyString)
      as (-> & text & Hp & Htext).
    { unfold router in Hlayer. rewrite <- Hh in Hin. clear -Hlayer Hin Hm.
      repeat (apply elem_of_cons in Hlayer as [->|Hlayer];
              [simpl in *; first
                 [ by (split; [done|]; eexists; split; [reflexivity|done])
                 | (exfalso; not_listed Hin) ] |]).
      by apply elem_of_nil in Hlayer. }
    rewrite Hp in Hmatch.
    apply matchPath_one_literal in Hmatch as (seg & -> & Hseg); [|done].
    rewrite dispatch_one_segment in Hrun by done. injection Hrun as <- <-.
    not_listed Hin.
  - intros seg -> ->.
    destruct (decide (seg = EmptyString)) as [->|Hseg].
    + vm_compute in Hrun. discriminate.
    + rewrite dispatch_one_segment in Hrun by done. by injection Hrun as <- <-.
Qed.

Lemma static_get_routes_shadowed_witness :
  dispatch router GET ["overdue"] = Some (H_getTodoById, [("todoId", "overdue")])
  ∧ (H_getTodoById ∉ [H_getOverdueTodos; H_getArchivedTodos; H_getAllTags; H_getTodoStats;
                      H_getTodayTodos]).
Proof.
  assert (dispatch router GET ["overdue"] = Some (H_getTodoById, [("todoId", "overdue")]))
    as H by (vm_compute; reflexivity).
  exact (conj H (proj1 (static_get_routes_shadowed GET ["overdue"] H_getTodoById
                          [("todoId", "overdue")] H))).
Defined.

(** ** Bulk deletion *)

Lemma size_list_to_set_le (l : list string) : (size (list_to_set l : gset string) ≤ length l)%nat.
Proof.
  induction l as [|x l IH]; [by rewrite list_to_set_nil, size_empty|].
  rewrite list_to_set_cons. simpl. destruct (decide (x ∈ l)) as [Hin|Hin].
  - rewrite (subseteq_union_1_L (C := gset string))
      by (by apply singleton_subseteq_l, elem_of_list_to_set). lia.
  - rewrite size_union by (apply disjoint_singleton_l; by rewrite elem_of_list_to_set).
    rewrite size_singleton. lia.
Qed.

Lemma size_list_to_set_NoDup (l : list string) :
  size (list_to_set l : gset string) = length l → NoDup l.
Proof.
  induction l as [|x l IH]; [constructor|].
  pose proof (size_list_to_set_le l) as Hle.
  rewrite list_to_set_cons. simpl. destruct (decide (x ∈ l)) as [Hin|Hin].
  - rewrite (subseteq_union_1_L (C := gset string))
      by (by apply singleton_subseteq_l, elem_of_list_to_set). lia.
  - rewrite size_union by (apply disjoint_singleton_l; by rewrite elem_of_list_to_set).
    rewrite size_singleton. intros H.
    constructor; [done|]. apply IH. lia.
Qed.

Lemma dom_find_owned db reqUserId todoIds :
  keyed db →
  ∀ k, k ∈ dom (find db (ownedIn todoIds reqUserId)) ↔
       k ∈ todoIds ∧ ∃ doc, todos db !! k = Some doc ∧ userId doc = reqUserId.
Proof.
  intros Hkeyed k. rewrite elem_of_dom. unfold find, is_Some.
  setoid_rewrite map_lookup_filter_Some. unfold ownedIn. simpl. split.
  - intros (doc & Hk & [Hin Hu]%andb_true_iff).
    apply bool_decide_eq_true in Hin, Hu. rewrite (Hkeyed _ _ Hk) in Hin. eauto.
  - intros (Hin & doc & Hk & Hu). exists doc. split; [done|].
    rewrite (Hkeyed _ _ Hk). by rewrite !bool_decide_eq_true_2.
Qed.

Lemma found_all_owned db reqUserId todoIds :
  keyed db →
  length (exec Unsorted (find db (ownedIn todoIds reqUserId))) = length todoIds ↔
  NoDup todoIds
  ∧ ∀ id, id ∈ todoIds → ∃ doc, todos db !! id = Some doc ∧ userId doc = reqUserId.
Proof.
  intros Hkeyed. unfold exec. simpl. rewrite length_fmap, length_map_to_list, <- size_dom.
  pose proof (dom_find_owned db reqUserId todoIds Hkeyed) as Hdom.
  set (D := dom (find db (ownedIn todoIds reqUserId))) in *.
  assert (D ⊆ list_to_set todoIds) as Hsub.
  { intros k Hk. apply Hdom in Hk as [Hk _]. by apply elem_of_list_to_set. }
  pose proof (size_list_to_set_le todoIds) as Hle.
  pose proof (subseteq_size _ _ Hsub) as Hle'.
  split.
  - intros Hsize. split; [apply size_list_to_set_NoDup; lia|].
    intros id Hid.
    assert (D = list_to_set todoIds) as HD by (apply set_subseteq_size_eq; [done|lia]).
    assert (id ∈ D) as Hin by (rewrite HD; by apply elem_of_list_to_set).
    by apply Hdom in Hin as [_ ?].
  - intros [Hnd Hall]. rewrite <- (size_list_to_set (C := gset string)) by done.
    f_equal. apply set_eq. intros k. rewrite Hdom, elem_of_list_to_set.
    split; [by intros [? _]|]. intros Hk. split; [done|]. by apply Hall.
Qed.



Lemma DB_eq (db1 db2 : DB) :
  users db1 = users db2 → (∀ k, todos db1 !! k = todos db2 !! k) → db1 = db2.
Proof.
  destruct db1, db2. simpl. intros -> H. f_equal. by apply map_eq.
Qed.

Lemma deleteEach_error now reqUserId todoIds err :
  fold_left (λ acc id, db0 <- acc;; deleteTodo now db0 reqUserId id) todoIds (inl err)
    = inl err.
Proof. induction todoIds as [|id rest IH]; [done|]. simpl. apply IH. Qed.

Lemma deleteEach_owned now reqUserId todoIds db :
  NoDup todoIds →
  (∀ id, id ∈ todoIds → ∃ doc, todos db !! id = Some doc ∧ userId doc = reqUserId) →
  ∃ db', deleteEach now reqUserId todoIds db = inr db'
         ∧ users db' = users db
         ∧ ∀ k, todos db' !! k =
                if bool_decide (k ∈ todoIds) then softDeleted now <$> todos db !! k
                else todos db !! k.
Proof.
  unfold deleteEach. revert db. induction todoIds as [|id rest IH]; intros db Hnd Hall.
  - exists db. split; [done|]. split; [done|]. intros k.
    rewrite bool_decide_eq_false_2; [done|]. apply not_elem_of_nil.
  - apply NoDup_cons in Hnd as [Hid Hnd].
    destruct (Hall id) as (doc & Hlook & Hu); [by left|]. subst reqUserId.
    simpl. destruct (deleteTodo_owner now db id doc Hlook) as (-> & Hlook' & _).
    destruct (IH (softDelete now db id) Hnd) as (db' & Hrun & Husers & Hdocs).
    { intros id' Hid'. destruct (Hall id') as (doc' & Hl' & Hu'); [by right|].
      exists doc'. split; [|done]. unfold softDelete. simpl.
      rewrite lookup_alter_ne; [done|]. by intros ->. }
    exists db'. split; [exact Hrun|]. split; [by rewrite Husers|].
    intros k. rewrite Hdocs. unfold softDelete. simpl.
    destruct (decide (k = id)) as [->|Hne].
    + rewrite (bool_decide_eq_false_2 (id ∈ rest)) by done.
      rewrite (bool_decide_eq_true_2 (id ∈ id :: rest)) by (by left).
      by rewrite lookup_alter_eq.
    + rewrite lookup_alter_ne by done.
      destruct (decide (k ∈ rest)) as [Hin|Hin].
      * rewrite !bool_decide_eq_true_2; [done|by right|done].
      * rewrite !bool_decide_eq_false_2; [done| |done].
        intros [?|?]%elem_of_cons; done.
Qed.

(** X8. An accepted [bulkDeleteTodos] leaves the collection
    as [deleteTodo], called by the same user on each id of the array in turn,
    leaves it: the listed todos have [isDeleted] set and [deletedAt] stamped,
    every other document and the users are as they were, and at most as many
    documents are reported modified as ids were sent. *)
Theorem bulkDeleteTodos_effect now db reqUserId todoIds n db' :
  keyed db →
  bulkDeleteTodos now db reqUserId (Some todoIds) = inr (n, db') →
  deleteEach now reqUserId todoIds db = inr db'
  ∧ (∀ k, todos db' !! k =
          if bool_decide (k ∈ todoIds) then softDeleted now <$> todos db !! k
          else todos db !! k)
  ∧ users db' = users db
  ∧ (n ≤ length todoIds)%nat.
Proof.
  intros Hkeyed Hrun. unfold bulkDeleteTodos in Hrun. simpl in Hrun.
  apply bind_inr in Hrun as ([] & _ & Hrun).
  apply bind_inr in Hrun as ([] & Hfound & Hrun).
  apply throwIf_inr, negb_false_iff, bool_decide_eq_true in Hfound.
  pose proof Hfound as Hlen.
  apply found_all_owned in Hfound as [Hnd Hall]; [|done].
  injection Hrun as <- <-.
  assert (∀ k, todos (updateMany db (ownedIn todoIds reqUserId)
                        (λ doc, doc <| isDeleted := true |> <| deletedAt := Some now |>
                                    <| updatedAt := now |>)).2 !! k =
               if bool_decide (k ∈ todoIds) then softDeleted now <$> todos db !! k
               else todos db !! k) as Hdocs.
  { intros k. unfold updateMany. simpl. rewrite lookup_fmap.
    destruct (todos db !! k) as [doc|] eqn:Hk; simpl; [|by destruct (bool_decide _)].
    unfold ownedIn. rewrite (Hkeyed _ _ Hk).
    case_bool_decide as Hin; simpl; [|done].
    destruct (Hall k Hin) as (doc' & Hk' & Hu). rewrite Hk in Hk'. injection Hk' as <-.
    by rewrite bool_decide_eq_true_2. }
  destruct (deleteEach_owned now reqUserId todoIds db Hnd Hall) as (db'' & Hseq & Husers & Hd).
  split_and!.
  - rewrite Hseq. f_equal. apply DB_eq; [by rewrite Husers|].
    intros k. by rewrite Hd, Hdocs.
  - exact Hdocs.
  - reflexivity.
  - unfold updateMany. simpl. rewrite <- Hlen. unfold exec. simpl.
    rewrite length_fmap, length_map_to_list. apply map_subseteq_size.
    unfold find. apply map_filter_subseteq_ext. by intros k doc _ [? _].
Qed.

Lemma bulkDeleteTodos_effect_witness :
  keyed shop
  ∧ (∃ n db', bulkDeleteTodos 200 shop "alice" (Some ["t1"]) = inr (n, db')
              ∧ deleteEach 200 "alice" ["t1"] shop = inr db'
              ∧ todos db' !! "t1" = Some (softDeleted 200 milk)).
Proof.
  assert (keyed shop) as H0.
  { intros k doc Hk. unfold shop in Hk. simpl in Hk.
    apply lookup_singleton_Some in Hk as [Hk1 Hk2]. by subst. }
  split; [exact H0|].
  destruct (bulkDeleteTodos 200 shop "alice" (Some ["t1"])) as [e|[n db']] eqn:E;
    [vm_compute in E; discriminate|].
  exists n, db'. split; [reflexivity|].
  destruct (bulkDeleteTodos_effect 200 shop "alice" ["t1"] n db' H0 E) as (Hs & Hd & _).
  split; [exact Hs|]. rewrite Hd. vm_compute. reflexivity.
Defined.

(** ** What every request keeps *)

Lemma preSave_keeps isNew snapshot now doc :
  let doc' := preSave isNew snapshot now doc in
  title doc' = title doc ∧ description doc' = description doc ∧ tags doc' = tags doc
  ∧ label doc' = label doc ∧ createdAt doc' = createdAt doc
  ∧ activityLog doc `prefix_of` activityLog doc'.
Proof.
  unfold preSave, activityHook, progressHook, timestampsHook.
  destruct (isNew || isModified snapshot doc); simpl;
    match goal with |- context [if ?c then _ else _] => destruct c end; simpl;
    split_and!; try done; by apply prefix_app_r.
Qed.

Lemma validateDoc_preSave isNew snapshot now doc :
  validateDoc (preSave isNew snapshot now doc) = validateDoc doc.
Proof.
  destruct (preSave_keeps isNew snapshot now doc) as (? & ? & ? & ? & _).
  destruct (preSave_frame isNew snapshot now doc) as (_&_&?&_&_&_&_&?&?&_).
  by apply validateDoc_frame.
Qed.

Lemma continues_refl doc : continues doc doc.
Proof. by split_and!. Qed.

Lemma continues_trans doc1 doc2 doc3 :
  continues doc1 doc2 → continues doc2 doc3 → continues doc1 doc3.
Proof.
  intros (?&?&?&?) (?&?&?&?). split_and!; try congruence. by etrans.
Qed.

Lemma preSave_continues isNew snapshot now doc :
  continues doc (preSave isNew snapshot now doc).
Proof.
  destruct (preSave_keeps isNew snapshot now doc) as (_ & _ & _ & _ & ? & ?).
  destruct (preSave_frame isNew snapshot now doc) as (?&?&_).
  by split_and!.
Qed.

Lemma save_wellFormed now db doc doc' db' :
  wellFormed db → save now db doc = inr (doc', db') →
  wellFormed db' ∧ todos db' !! _id doc = Some doc' ∧ continues doc doc'
  ∧ users db' = users db.
Proof.
  intros [Hkeyed Hvalid] (Hdoc & -> & ->)%save_inv. split_and!.
  - split.
    + intros k d. simpl. rewrite lookup_insert. case_decide as Hk.
      * intros [= <-]. by rewrite preSave_id.
      * apply Hkeyed.
    + intros k d. simpl. rewrite lookup_insert. case_decide as Hk.
      * intros [= <-]. by rewrite validateDoc_preSave.
      * apply Hvalid.
  - simpl. apply lookup_insert_eq.
  - apply preSave_continues.
  - done.
Qed.

Lemma create_wellFormed now db doc doc' db' :
  wellFormed db → create now db doc = inr (doc', db') →
  wellFormed db' ∧ todos db' !! _id doc = Some doc' ∧ todos db !! _id doc = None
  ∧ users db' = users db
  ∧ ∀ k, k ≠ _id doc → todos db' !! k = todos db !! k.
Proof.
  intros [Hkeyed Hvalid] (Hdoc & Hfresh & -> & ->)%create_inv. split_and!.
  - split.
    + intros k d. simpl. rewrite lookup_insert. case_decide as Hk.
      * intros [= <-]. by rewrite preSave_id.
      * apply Hkeyed.
    + intros k d. simpl. rewrite lookup_insert. case_decide as Hk.
      * intros [= <-]. by rewrite validateDoc_preSave.
      * apply Hvalid.
  - simpl. apply lookup_insert_eq.
  - done.
  - done.
  - intros k Hk. simpl. by rewrite lookup_insert_ne.
Qed.

Ltac save_steps :=
  repeat match goal with
         | p : (Todo * DB)%type |- _ => destruct p
         | Hw : wellFormed ?d, Hs : save _ ?d _ = inr (_, _) |- _ =>
             let W := fresh "Hw" in
             let L := fresh "Hl" in
             let C := fresh "Hc" in
             let U := fresh "Hu" in
             destruct (save_wellFormed _ _ _ _ _ Hw Hs) as (W & L & C & U); clear Hs
         | Hw : wellFormed ?d, Hs : create _ ?d _ = inr (_, _) |- _ =>
             let W := fresh "Hw" in
             let L := fresh "Hl" in
             let C := fresh "Hf" in
             let U := fresh "Hu" in
             let O := fresh "Ho" in
             destruct (create_wellFormed _ _ _ _ _ Hw Hs) as (W & L & C & U & O); clear Hs
         end.

Ltac unfold_controllers H :=
  unfold stored, updateTodo, deleteTodo, addSubtask, updateSubtask, deleteSubtask,
    completeTodo, incompleteTodo, logTimeSpent, addComment, updateComment, deleteComment,
    addAttachment, deleteAttachment, shareTodo, revokeTodoShare, archiveTodo,
    unarchiveTodo, assignTodo, unassignTodo, addWatcher, removeWatcher, duplicateTodo,
    complete, incomplete in H.





Lemma continues_push entry doc : continues doc (pushActivity entry doc).
Proof. split_and!; try done. by apply prefix_app_r. Qed.

Lemma route_continues now newId db reqUserId todoId request db' doc :
  wellFormed db → todos db !! todoId = Some doc →
  route now newId db reqUserId todoId request = inr db' →
  ∃ doc', todos db' !! todoId = Some doc' ∧ continues doc doc'.
Proof.
  intros Hw Hdoc Hrun. pose proof (proj1 Hw _ _ Hdoc) as Hid.
  destruct request; simpl in Hrun; unfold_controllers Hrun; walk;
    repeat match goal with
           | H : todos db !! todoId = Some _ |- _ =>
               rewrite Hdoc in H; injection H as <-
           end;
    save_steps; simpl in *; try (injection Hrun as <-).
  all: try (rewrite ?Hid in *; eexists; split; [eassumption|];
            repeat (eapply continues_trans; [|eassumption]);
            split_and!; simpl; try done; try (by apply prefix_app_r)).
  - assert (continues doc t0) as Ht0.
    { change t0 with (t0, l).1. rewrite <- Hpair, applyTodoBody_eq. by split_and!. }
    destruct (bool_decide _).
    + exists t. split.
      * rewrite <- Hl. simpl. destruct Ht0 as (-> & _). by rewrite Hid.
      * eapply continues_trans; [|exact Hc].
        eapply continues_trans; [exact Ht0|apply continues_push].
    + exists t. split.
      * rewrite <- Hl. destruct Ht0 as (-> & _). by rewrite Hid.
      * by eapply continues_trans.
  - unfold softDelete. simpl. rewrite lookup_alter_eq, Hdoc. simpl.
    eexists. split; [reflexivity|]. by split_and!.
  - exists t0. split.
    + rewrite <- Hl0. destruct Hc as (-> & _). simpl. by rewrite Hid.
    + eapply continues_trans; [|exact Hc0].
      eapply continues_trans; [|apply continues_push].
      eapply continues_trans; [|exact Hc]. by split_and!.
  - exists doc. split; [|apply continues_refl].
    rewrite Ho; [done|]. intros ->. congruence.
Qed.

(** X10. No request on one todo removes a document from the
    collection, changes the [_id], the owner or the creation date of a
    stored todo, or removes or rewrites an entry of its activity log: every
    document stored before an accepted request is stored after it, with a log
    that starts with the log it had. *)
Theorem route_append_only now newId db reqUserId todoId request db' k doc :
  wellFormed db → todos db !! k = Some doc →
  route now newId db reqUserId todoId request = inr db' →
  ∃ doc', todos db' !! k = Some doc'
          ∧ _id doc' = _id doc ∧ userId doc' = userId doc ∧ createdAt doc' = createdAt doc
          ∧ activityLog doc `prefix_of` activityLog doc'
          ∧ (k ≠ todoId → doc' = doc).
Proof.
  intros Hw Hdoc Hrun. destruct (decide (k = todoId)) as [->|Hne].
  - destruct (route_continues _ _ _ _ _ _ _ _ Hw Hdoc Hrun) as (doc' & Hl & (?&?&?&?)).
    exists doc'. by split_and!.
  - exists doc. split_and!; try done.
    eapply route_other; [exact (proj1 Hw)|exact Hdoc| |exact Hrun]. by intros ->.
Qed.

Lemma route_append_only_witness :
  wellFormed shop ∧ todos shop !! "t1" = Some milk
  ∧ route 200 "n1" shop "alice" "t1" (POST_time_tracking (Some 30)) = inr logged_30.2
  ∧ ∃ doc', todos logged_30.2 !! "t1" = Some doc'
            ∧ userId doc' = "alice"
            ∧ activityLog milk `prefix_of` activityLog doc'.
Proof.
  assert (wellFormed shop) as H0.
  { split; intros k doc Hk; unfold shop in Hk; simpl in Hk;
      apply lookup_singleton_Some in Hk as [Hk1 Hk2]; subst; [done|].
    vm_compute. reflexivity. }
  assert (todos shop !! "t1" = Some milk) as H1 by (vm_compute; reflexivity).
  assert (route 200 "n1" shop "alice" "t1" (POST_time_tracking (Some 30)) = inr logged_30.2)
    as H2 by (vm_compute; reflexivity).
  split; [exact H0|]. split; [exact H1|]. split; [exact H2|].
  destruct (route_append_only 200 "n1" shop "alice" "t1" _ _ "t1" milk H0 H1 H2)
    as (doc' & Hl & _ & Hu & _ & Hp & _).
  exists doc'. by split_and!.
Defined.

(** ** Deleting a subtask *)









(** ** Requests that end in a 500 *)

Lemma validateDoc_push entry doc : validateDoc (pushActivity entry doc) = validateDoc doc.
Proof. by apply validateDoc_frame. Qed.


(** The schema validators on a document that differs from a valid one. *)
Ltac schema_goal Hv :=
  rewrite ?validateDoc_push;
  apply validateDoc_schemaValid; apply validateDoc_schemaValid in Hv;
  destruct Hv as (?&?&?&?&?&?&?&?); unfold schemaValid; simpl; split_and!; try done.

Lemma Forall_filter_keep {A} (P Q : A → Prop) `{∀ x, Decision (Q x)} (l : list A) :
  Forall P l → Forall P (filter Q l).
Proof.
  intros Hl. apply Forall_forall. intros x [_ Hx]%list_elem_of_filter.
  by eapply Forall_forall in Hl.
Qed.




(** ** Creation *)

Lemma elem_of_find_exec spec db (P : Todo → bool) k doc :
  todos db !! k = Some doc → P doc = true → doc ∈ exec spec (find db P).
Proof.
  intros Hk HP. apply elem_of_exec. exists k. unfold find.
  by apply map_lookup_filter_Some.
Qed.

(** X13. A body that [validateTodo] accepts is never refused by
    the schema: with a fresh id, [createTodo] stores a todo of the requester
    with the trimmed title, [status] 'todo' and not completed whatever
    [status] the body carries, no estimated time, no subtasks, a progress of
    0 of 0 and a log of one [created] entry; the other documents stay, and
    the new todo is at once in the requester's listing. *)
Theorem createTodo_accepted now newId db reqUserId body sortBy :
  validateTodo now body = inr tt → todos db !! newId = None →
  ∃ doc db',
    createTodo now newId db reqUserId body = inr (doc, db')
    ∧ todos db' !! newId = Some doc
    ∧ (∀ k, k ≠ newId → todos db' !! k = todos db !! k)
    ∧ _id doc = newId ∧ userId doc = reqUserId
    ∧ Some (title doc) = trim <$> b_title body
    ∧ status doc = St_todo ∧ completed doc = false ∧ estimatedTime doc = 0
    ∧ priority doc = default Medium (b_priority body) ∧ dueDate doc = b_dueDate body
    ∧ subtasks doc = [] ∧ checklistProgress doc = mkProgress 0 0
    ∧ activityLog doc = [mkActivityEntry Created reqUserId None now]
    ∧ doc ∈ getAllTodos db' reqUserId None None None sortBy.
Proof.
  intros Hbody Hfresh.
  pose proof (validateTodo_inv now body Hbody) as (Bt & Bd & Bl).
  unfold validateTodo in Hbody. apply bind_inr in Hbody as ([] & Htitle & _).
  apply throwIf_inr, negb_false_iff in Htitle.
  destruct (b_title body) as [ttl|] eqn:Httl; [|done]. simpl in Htitle.
  destruct (Bt ttl eq_refl) as [Hne Hlen].
  unfold createTodo, throwIf. rewrite Httl. simpl. rewrite Htitle. simpl.
  rewrite create_valid; [| |exact Hfresh].
  2:{ apply validateDoc_schemaValid. unfold schemaValid. simpl. split_and!; try done.
      - by apply truthy_trim.
      - pose proof (trim_length ttl). lia.
      - destruct (b_description body) as [d|]; simpl; [|lia].
        specialize (Bd d eq_refl). destruct (truthy d); simpl; [|lia].
        pose proof (trim_length d). lia.
      - destruct (b_tags body) as [l|]; simpl; [|done].
        apply Forall_fmap. eapply Forall_impl; [by apply Bl|].
        intros tag Htag. unfold compose. simpl in *. pose proof (trim_length tag). lia. }
  match goal with
  | |- context [preSave true None now ?d] =>
      change (_id d) with newId; set (doc := preSave true None now d)
  end.
  assert (_id doc = newId ∧ userId doc = reqUserId ∧ title doc = trim ttl
          ∧ status doc = St_todo ∧ completed doc = false ∧ estimatedTime doc = 0
          ∧ priority doc = default Medium (b_priority body) ∧ dueDate doc = b_dueDate body
          ∧ subtasks doc = [] ∧ checklistProgress doc = mkProgress 0 0
          ∧ activityLog doc = [mkActivityEntry Created reqUserId None now]
          ∧ parentId doc = None ∧ isDeleted doc = false)
    as (Hi & Hu & Ht & Hst & Hc & He & Hpr & Hdue & Hs & Hp & Hl & Hpar & Hdel).
  { subst doc. unfold preSave, activityHook, progressHook, timestampsHook.
    rewrite andb_false_r. done. }
  exists doc, (withTodos db (<[newId := doc]> (todos db))).
  split; [reflexivity|]. clearbody doc. simpl. split_and!; try done.
  - apply lookup_insert_eq.
  - intros k Hk. by rewrite lookup_insert_ne.
  - by rewrite Ht.
  - unfold getAllTodos. eapply elem_of_find_exec; [simpl; apply lookup_insert_eq|].
    rewrite Hu, Hdel, Hpar. simpl. by rewrite !bool_decide_eq_true_2.
Qed.

Lemma createTodo_accepted_witness :
  (validateTodo 200 completed_body = inr tt ∧ todos shop !! "t2" = None)
  ∧ ∃ doc db',
      createTodo 200 "t2" shop "bob" completed_body = inr (doc, db')
      ∧ todos db' !! "t2" = Some doc
      ∧ status doc = St_todo ∧ completed doc = false
      ∧ doc ∈ getAllTodos db' "bob" None None None None.
Proof.
  assert (validateTodo 200 completed_body = inr tt) as H1 by (vm_compute; reflexivity).
  assert (todos shop !! "t2" = None) as H2 by (vm_compute; reflexivity).
  split; [done|].
  destruct (createTodo_accepted 200 "t2" shop "bob" completed_body None H1 H2)
    as (doc & db' & Hrun & Hl & _ & _ & _ & _ & Hs & Hc & _ & _ & _ & _ & _ & _ & Hin).
  exists doc, db'. by split_and!.
Defined.

(** ** Subtasks and the users a todo is shared with *)

Lemma authorised_sharer todo reqUserId :
  reqUserId = userId todo ∨ reqUserId ∈ sh_userId <$> sharedWith todo →
  negb (isOwner todo reqUserId) && negb (isSharedWith todo reqUserId) = false.
Proof.
  intros [->|Hin].
  - unfold isOwner. by rewrite bool_decide_eq_true_2.
  - apply isSharedWith_elem in Hin. rewrite Hin. by rewrite andb_false_r.
Qed.

(** X14. The owner of a todo and every user it is shared with, at
    whatever permission, can add a subtask with a validated body: it is
    appended as a leaf at the end of the top level, not completed and with
    [status] 'todo' whatever the body says, and the progress counts one node
    more. The same sharer is refused by [updateSubtask] and [deleteSubtask],
    which answer 403 to everyone but the owner. *)
Theorem addSubtask_by_sharer now newId db reqUserId todoId todo body subtaskId :
  todos db !! todoId = Some todo → _id todo = todoId → validateDoc todo = inr tt →
  validateSubtask body = inr tt →
  reqUserId = userId todo ∨ reqUserId ∈ sh_userId <$> sharedWith todo →
  (∃ doc' db' leaf,
     addSubtask now newId db reqUserId todoId body = inr (doc', db')
     ∧ todos db' !! todoId = Some doc'
     ∧ subtasks doc' = subtasks todo ++ [SubDoc leaf []]
     ∧ s_id leaf = newId ∧ Some (s_title leaf) = trim <$> sb_title body
     ∧ s_status leaf = St_todo ∧ s_completed leaf = false
     ∧ p_total (checklistProgress doc') = S (length (forest_nodes (subtasks todo)))
     ∧ p_completed (checklistProgress doc') = count_completed (forest_nodes (subtasks todo)))
  ∧ (reqUserId ≠ userId todo →
     updateSubtask now db reqUserId todoId subtaskId body
       = inl (ApiError 403 "Permission denied")
     ∧ deleteSubtask now db reqUserId todoId subtaskId
         = inl (ApiError 403 "Permission denied")).
Proof.
  intros Hlook Hid Hvalid Hbody Hauth. split.
  - pose proof (validateSubtask_inv body Hbody) as ((ttl & Httl & Htruthy & Hne & Hlen) & Hdescr).
    unfold addSubtask, throwIf. rewrite Httl. simpl. rewrite Htruthy. simpl.
    rewrite Hlook. simpl. rewrite authorised_sharer by done. simpl.
    rewrite save_valid.
    2:{ schema_goal Hvalid.
        apply Forall_app. split; [done|]. constructor; [|done]. simpl.
        unfold validSubFields. simpl.
        rewrite truthy_trim by done. pose proof (trim_length ttl).
        rewrite bool_decide_eq_true_2 by lia. simpl.
        apply andb_true_iff. split; [|done]. apply bool_decide_eq_true.
        destruct (sb_description body) as [d|]; simpl; [|lia].
        specialize (Hdescr d eq_refl). destruct (truthy d); simpl; [|lia].
        pose proof (trim_length d). lia. }
    eexists _, _, _. split; [reflexivity|]. simpl. rewrite Hid.
    split; [apply lookup_insert_eq|].
    match goal with
    | |- context [preSave ?a ?b ?c ?d] =>
        destruct (preSave_frame a b c d) as (_&_&->&_&_&_&_&_&_&_&_&->)
    end. simpl. split; [reflexivity|]. simpl. split_and!; try done.
    all: rewrite calculateProgress_counted;
      match goal with
      | |- context [forest_nodes (?l ++ [SubDoc ?f []])] =>
          assert (forest_nodes (l ++ [SubDoc f []]) = forest_nodes l ++ [f]) as ->
            by (unfold forest_nodes; rewrite map_app, concat_app; done)
      end;
      rewrite counted_app; unfold counted, addProgress; simpl.
    + lia.
    + rewrite count_completed_cons. simpl. unfold count_completed. simpl. lia.
  - intros Hne. unfold updateSubtask, deleteSubtask, throwIf, isOwner. rewrite Hlook. simpl.
    rewrite bool_decide_eq_false_2 by done. done.
Qed.

Lemma addSubtask_by_sharer_witness :
  (todos shared_shop !! "t1" = Some shared_milk ∧ _id shared_milk = "t1"
   ∧ validateDoc shared_milk = inr tt ∧ validateSubtask done_body = inr tt
   ∧ "bob" ∈ sh_userId <$> sharedWith shared_milk ∧ "bob" ≠ userId shared_milk)
  ∧ (∃ doc' db' leaf,
       addSubtask 200 "s9" shared_shop "bob" "t1" done_body = inr (doc', db')
       ∧ subtasks doc' = subtasks shared_milk ++ [SubDoc leaf []]
       ∧ s_completed leaf = false
       ∧ p_total (checklistProgress doc') = 4%nat)
  ∧ updateSubtask 200 shared_shop "bob" "t1" "s9" done_body
      = inl (ApiError 403 "Permission denied").
Proof.
  assert (todos shared_shop !! "t1" = Some shared_milk) as H1 by (vm_compute; reflexivity).
  assert (validateDoc shared_milk = inr tt) as H2 by (vm_compute; reflexivity).
  assert (validateSubtask done_body = inr tt) as H3 by (vm_compute; reflexivity).
  assert ("bob" ∈ sh_userId <$> sharedWith shared_milk) as H4 by (simpl; by left).
  assert ("bob" ≠ userId shared_milk) as H5 by discriminate.
  split; [done|].
  destruct (addSubtask_by_sharer 200 "s9" shared_shop "bob" "t1" shared_milk done_body "s9"
              H1 eq_refl H2 H3 (or_intror H4))
    as ((doc' & db' & leaf & Hrun & _ & Hs & _ & _ & _ & Hc & Ht & _) & Hno).
  split; [|exact (proj1 (Hno H5))].
  exists doc', db', leaf. by split_and!.
Defined.

(** ** Comments *)

Lemma list_find_unique (commentId : string) (l : list Comment) comment :
  comment ∈ l → NoDup (c_id <$> l) → c_id comment = commentId →
  ∃ i, list_find (λ c, c_id c = commentId) l = Some (i, comment).
Proof.
  intros Hin Hnd Hid.
  destruct (list_find (λ c, c_id c = commentId) l) as [[i c]|] eqn:E.
  - exists i. apply list_find_Some in E as (Hi & Hc & _).
    apply list_elem_of_lookup in Hin as [k Hk].
    assert (i = k) as ->; [|congruence].
    eapply NoDup_lookup; [exact Hnd| |]; rewrite list_lookup_fmap.
    + by rewrite Hi.
    + rewrite Hk. simpl. congruence.
  - apply list_find_None in E. eapply Forall_forall in E; [|exact Hin]. done.
Qed.

(** X15. A comment written by somebody who is not the owner of the
    todo, as [addComment] allows a user the todo is shared with to do, can be
    neither edited nor deleted by anyone: its author is refused as not being
    the owner of the todo, and the owner as not being its author. *)
Theorem comment_of_sharer_frozen now db reqUserId todoId todo comment text :
  todos db !! todoId = Some todo →
  comment ∈ comments todo → NoDup (c_id <$> comments todo) →
  c_userId comment ≠ userId todo →
  (∃ err, updateComment now db reqUserId todoId (c_id comment) text = inl err
          ∧ (errorHandler err = 400 ∨ errorHandler err = 403))
  ∧ (∃ message, deleteComment now db reqUserId todoId (c_id comment)
                = inl (ApiError 403 message)).
Proof.
  intros Hlook Hin Hnd Hauthor.
  destruct (list_find_unique (c_id comment) (comments todo) comment Hin Hnd eq_refl)
    as [i Hfind].
  unfold updateComment, deleteComment, throwIf, isOwner. rewrite Hlook. simpl.
  destruct (decide (userId todo = reqUserId)) as [<-|Hne].
  - rewrite (bool_decide_eq_true_2 (userId todo = userId todo)) by done. simpl.
    rewrite Hfind. simpl.
    rewrite (bool_decide_eq_false_2 (c_userId comment = userId todo)) by done. simpl.
    split; [|by eexists].
    destruct (_ || _); eexists; (split; [reflexivity|]); simpl; [by left|by right].
  - rewrite (bool_decide_eq_false_2 (userId todo = reqUserId)) by done. simpl.
    split; [|by eexists].
    destruct (_ || _); eexists; (split; [reflexivity|]); simpl; [by left|by right].
Qed.

Lemma comment_of_sharer_frozen_witness :
  (addComment 200 "c1" shared_shop "bob" "t1" (Some "Oat milk, please") None = inr commented
   ∧ todos commented.2 !! "t1" = Some commented.1
   ∧ bobs_comment ∈ comments commented.1
   ∧ NoDup (c_id <$> comments commented.1)
   ∧ c_userId bobs_comment ≠ userId commented.1)
  ∧ (∃ err, updateComment 300 commented.2 "bob" "t1" "c1" (Some "Any milk") = inl err
            ∧ (errorHandler err = 400 ∨ errorHandler err = 403))
  ∧ (∃ err, updateComment 300 commented.2 "alice" "t1" "c1" (Some "Any milk") = inl err
            ∧ (errorHandler err = 400 ∨ errorHandler err = 403)).
Proof.
  assert (todos commented.2 !! "t1" = Some commented.1) as H1 by (vm_compute; reflexivity).
  assert (bobs_comment ∈ comments commented.1) as H2 by (simpl; by left).
  assert (NoDup (c_id <$> comments commented.1)) as H3
    by (simpl; apply NoDup_singleton).
  assert (c_userId bobs_comment ≠ userId commented.1) as H4 by discriminate.
  split; [split_and!; [vm_compute; reflexivity|done..]|].
  split.
  - exact (proj1 (comment_of_sharer_frozen 300 commented.2 "bob" "t1" commented.1
                    bobs_comment (Some "Any milk") H1 H2 H3 H4)).
  - exact (proj1 (comment_of_sharer_frozen 300 commented.2 "alice" "t1" commented.1
                    bobs_comment (Some "Any milk") H1 H2 H3 H4)).
Defined.

(** ** Watchers and sharers *)

Lemma preSave_tidy isNew snapshot now doc : tidy doc → tidy (preSave isNew snapshot now doc).
Proof.
  unfold tidy, preSave, activityHook, progressHook, timestampsHook.
  destruct (isNew || isModified snapshot doc); simpl;
    match goal with |- context [if ?c then _ else _] => destruct c end; done.
Qed.

Lemma save_tidy now db doc doc' db' :
  allTidy db → tidy doc → save now db doc = inr (doc', db') → allTidy db' ∧ tidy doc'.
Proof.
  intros Hall Hdoc (_ & -> & ->)%save_inv. split; [|by apply preSave_tidy].
  intros k d. simpl. rewrite lookup_insert. case_decide as Hk.
  - intros [= <-]. by apply preSave_tidy.
  - apply Hall.
Qed.

Lemma create_tidy now db doc doc' db' :
  allTidy db → tidy (schemaSetters doc) → create now db doc = inr (doc', db') → allTidy db'.
Proof.
  intros Hall Hdoc (_ & _ & -> & ->)%create_inv.
  intros k d. simpl. rewrite lookup_insert. case_decide as Hk.
  - intros [= <-]. by apply preSave_tidy.
  - apply Hall.
Qed.

Lemma NoDup_fmap_filter {A B} (f : A → B) (P : A → Prop) `{∀ x, Decision (P x)} (l : list A) :
  NoDup (f <$> l) → NoDup (f <$> filter P l).
Proof.
  intros Hnd. eapply sublist_NoDup; [exact Hnd|apply fmap_sublist, sublist_filter].
Qed.

Lemma throwIf_ok cond err u : throwIf cond err = inr u → cond = false.
Proof. by destruct cond. Qed.

Lemma route_tidy now newId db reqUserId todoId request db' :
  allTidy db → route now newId db reqUserId todoId request = inr db' → allTidy db'.
Proof.
  intros Hall Hrun.
  destruct request; simpl in Hrun; unfold_controllers Hrun; walk;
    repeat match goal with
           | H : todos db !! todoId = Some ?t |- _ =>
               lazymatch goal with
               | _ : tidy t |- _ => fail
               | _ => pose proof (Hall _ _ H)
               end
           end;
    repeat match goal with p : (Todo * DB)%type |- _ => destruct p end;
    simpl in *; try (injection Hrun as <-).
  all: try match goal with
       | Ha : allTidy ?d0, Hs : save _ ?d0 ?x = inr (_, ?d) |- allTidy ?d =>
           by (eapply (save_tidy _ d0 x); [exact Ha| |exact Hs])
       end.
  - assert (tidy t0) as Ht0.
    { change t0 with (t0, l).1. rewrite <- Hpair, applyTodoBody_eq. exact H. }
    match goal with
    | Hs : save _ _ _ = inr _ |- _ => eapply save_tidy; [exact Hall| |exact Hs]
    end. by destruct (bool_decide _).
  - unfold softDelete. intros k doc. simpl. destruct (decide (k = todoId)) as [->|Hne].
    + rewrite lookup_alter_eq. destruct (todos db !! todoId) as [t0|] eqn:E; [|done].
      simpl. intros [= <-]. by apply (Hall _ _ E).
    + rewrite lookup_alter_ne by done. apply Hall.
  - match goal with
    | Hs1 : save _ db ?x = inr (_, ?d1), Hs2 : save _ ?d1 _ = inr _ |- _ =>
        pose proof (save_tidy _ _ x _ _ Hall H Hs1) as [Hall1 Ht];
        eapply save_tidy; [exact Hall1| |exact Hs2]; exact Ht
    end.
  - match goal with
    | Hs : save _ _ _ = inr _ |- _ => eapply save_tidy; [exact Hall| |exact Hs]
    end. destruct H as [Hw Hs].
    split; [done|]. simpl. rewrite fmap_app. apply NoDup_app. split; [done|].
    split; [|apply NoDup_singleton].
    intros x Hx ->%list_elem_of_singleton. simpl in *.
    match goal with
    | Hc : throwIf (isSharedWith _ _) _ = inr _ |- _ => apply throwIf_ok in Hc
    end.
    apply isSharedWith_elem in Hx. congruence.
  - match goal with
    | Hs : save _ _ _ = inr _ |- _ => eapply save_tidy; [exact Hall| |exact Hs]
    end. destruct H as [Hw Hs].
    split; [done|]. simpl. by apply NoDup_fmap_filter.
  - match goal with
    | Hs : save _ _ _ = inr _ |- _ => eapply save_tidy; [exact Hall| |exact Hs]
    end. destruct H as [Hw Hs].
    split; [|done]. simpl. apply NoDup_app. split; [done|].
    split; [|apply NoDup_singleton].
    intros x Hx ->%list_elem_of_singleton.
    match goal with
    | Hc : throwIf (bool_decide (_ ∈ watchers _)) _ = inr _ |- _ =>
        apply throwIf_ok, bool_decide_eq_false in Hc
    end. done.
  - match goal with
    | Hs : save _ _ _ = inr _ |- _ => eapply save_tidy; [exact Hall| |exact Hs]
    end. destruct H as [Hw Hs].
    split; [|done]. simpl. by apply NoDup_filter.
  - match goal with
    | Hs : create _ _ _ = inr _ |- _ => eapply create_tidy; [exact Hall| |exact Hs]
    end. split; simpl; constructor.
Qed.

(** X16. If in every stored todo no user watches twice and no user has
    two entries in [sharedWith], the same holds after every accepted request
    on one todo: [addWatcher] and [shareTodo] refuse a user who is there
    already, the removals take out every entry of the user they name, and the
    other requests leave both arrays alone. *)
Theorem requests_keep_tidy now newId db reqUserId todoId request db' k doc' :
  allTidy db → route now newId db reqUserId todoId request = inr db' →
  todos db' !! k = Some doc' →
  NoDup (watchers doc') ∧ NoDup (sh_userId <$> sharedWith doc').
Proof.
  intros Hall Hrun Hk. by apply (route_tidy _ _ _ _ _ _ _ Hall Hrun k).
Qed.

Lemma requests_keep_tidy_witness :
  allTidy shop
  ∧ route 200 "n1" shop "alice" "t1" (POST_share (Some "alice") None) = inr self_shared.2
  ∧ todos self_shared.2 !! "t1" = Some self_shared.1
  ∧ NoDup (watchers self_shared.1) ∧ NoDup (sh_userId <$> sharedWith self_shared.1).
Proof.
  assert (allTidy shop) as H0.
  { intros k doc Hk. unfold shop in Hk. simpl in Hk.
    apply lookup_singleton_Some in Hk as [_ <-]. split; constructor. }
  assert (route 200 "n1" shop "alice" "t1" (POST_share (Some "alice") None)
          = inr self_shared.2) as H1 by (vm_compute; reflexivity).
  assert (todos self_shared.2 !! "t1" = Some self_shared.1) as H2
    by (vm_compute; reflexivity).
  split; [exact H0|]. split; [exact H1|]. split; [exact H2|].
  exact (requests_keep_tidy 200 "n1" shop "alice" "t1" _ _ "t1" _ H0 H1 H2).
Defined.

(** ** Round trips *)

Lemma preSave_rest isNew snapshot now doc :
  let doc' := preSave isNew snapshot now doc in
  isArchived doc' = isArchived doc ∧ parentId doc' = parentId doc
  ∧ priority doc' = priority doc ∧ dueDate doc' = dueDate doc
  ∧ assignee doc' = assignee doc ∧ watchers doc' = watchers doc
  ∧ deletedAt doc' = deletedAt doc ∧ category doc' = category doc
  ∧ estimatedTime doc' = estimatedTime doc.
Proof.
  unfold preSave, activityHook, progressHook, timestampsHook.
  destruct (isNew || isModified snapshot doc); simpl;
    match goal with |- context [if ?c then _ else _] => destruct c end; done.
Qed.

Lemma filter_all {A} (P : A → Prop) `{∀ x, Decision (P x)} (l : list A) :
  Forall P l → filter P l = l.
Proof.
  induction 1 as [|x l Hx _ IH]; [done|]. rewrite filter_cons_True by done. by rewrite IH.
Qed.

(** What a save of a valid document stores. *)
Lemma save_stored now db doc :
  validateDoc doc = inr tt →
  ∃ doc' db',
    save now db doc = inr (doc', db')
    ∧ doc' = preSave false (todos db !! _id doc) now doc
    ∧ todos db' !! _id doc = Some doc' ∧ validateDoc doc' = inr tt
    ∧ _id doc' = _id doc ∧ userId doc' = userId doc.
Proof.
  intros Hvalid. rewrite save_valid by done. eexists _, _. split; [reflexivity|].
  split; [reflexivity|]. simpl. split; [apply lookup_insert_eq|].
  split; [by rewrite validateDoc_preSave|].
  match goal with
  | |- context [preSave ?a ?b ?c ?d] => destruct (preSave_frame a b c d) as (?&?&_)
  end. done.
Qed.

(** X17. Revoking a share that was just granted gives back the
    [sharedWith] the todo had before: [shareTodo] accepts a user who has no
    entry and appends one, and [revokeTodoShare] then removes that entry and
    no other. *)
Theorem share_then_revoke now now' db todoId todo target perm doc1 db1 :
  todos db !! todoId = Some todo → _id todo = todoId →
  shareTodo now db (userId todo) todoId (Some target) perm = inr (doc1, db1) →
  sharedWith doc1 = sharedWith todo ++ [mkShareEntry target (default View perm) now]
  ∧ ∃ doc2 db2,
      revokeTodoShare now' db1 (userId todo) todoId target = inr (doc2, db2)
      ∧ todos db2 !! todoId = Some doc2
      ∧ sharedWith doc2 = sharedWith todo.
Proof.
  intros Hlook Hid Hrun. unfold shareTodo in Hrun. simpl in Hrun.
  rewrite Hlook in Hrun. simpl in Hrun.
  apply bind_inr in Hrun as ([] & _ & Hrun).
  apply bind_inr in Hrun as ([] & _ & Hrun).
  apply bind_inr in Hrun as ([] & Hnew & Hrun).
  apply bind_inr in Hrun as ([] & _ & Hrun).
  apply throwIf_inr in Hnew.
  pose proof (save_inv _ _ _ _ _ Hrun) as (Hvalid & Hdoc1 & Hdb1).
  assert (sharedWith doc1 = sharedWith todo ++ [mkShareEntry target (default View perm) now]
          ∧ _id doc1 = todoId ∧ userId doc1 = userId todo ∧ validateDoc doc1 = inr tt)
    as (Hshared & Hid1 & Hu1 & Hv1).
  { rewrite Hdoc1. rewrite validateDoc_preSave.
    match goal with
    | |- context [preSave ?a ?b ?c ?d] =>
        destruct (preSave_frame a b c d) as (->&->&_&_&_&_&->&_)
    end. done. }
  split; [exact Hshared|].
  assert (todos db1 !! todoId = Some doc1) as Hlook1.
  { rewrite Hdb1. simpl. rewrite Hid. apply lookup_insert_eq. }
  unfold revokeTodoShare, throwIf, isOwner. rewrite Hlook1. simpl.
  rewrite bool_decide_eq_true_2 by done. simpl.
  destruct (save_stored now' db1
              (doc1 <| sharedWith := filter (λ s, sh_userId s ≠ target) (sharedWith doc1) |>))
    as (doc2 & db2 & -> & Hdoc2 & Hlook2 & _).
  { by erewrite validateDoc_frame. }
  exists doc2, db2. split; [done|]. simpl in Hlook2. rewrite Hid1 in Hlook2.
  split; [done|]. rewrite Hdoc2.
  match goal with
  | |- context [preSave ?a ?b ?c ?d] =>
      destruct (preSave_frame a b c d) as (_&_&_&_&_&_&->&_)
  end. simpl. rewrite Hshared, filter_app.
  rewrite (filter_cons (λ s, sh_userId s ≠ target)). simpl.
  rewrite decide_False by (by intros ?). rewrite filter_nil, app_nil_r.
  apply filter_all, Forall_forall.
  intros s Hs Heq. apply not_true_iff_false in Hnew. apply Hnew.
  apply isSharedWith_elem, list_elem_of_fmap. by exists s.
Qed.

Lemma share_then_revoke_witness :
  (todos shop !! "t1" = Some milk ∧ _id milk = "t1"
   ∧ shareTodo 200 shop (userId milk) "t1" (Some "alice") None
       = inr (self_shared.1, self_shared.2))
  ∧ ∃ doc2 db2,
      revokeTodoShare 300 self_shared.2 (userId milk) "t1" "alice" = inr (doc2, db2)
      ∧ todos db2 !! "t1" = Some doc2
      ∧ sharedWith doc2 = sharedWith milk.
Proof.
  assert (todos shop !! "t1" = Some milk) as H1 by (vm_compute; reflexivity).
  assert (shareTodo 200 shop (userId milk) "t1" (Some "alice") None
          = inr (self_shared.1, self_shared.2)) as H2 by (vm_compute; reflexivity).
  split; [split; [exact H1|split; [reflexivity|exact H2]]|].
  exact (proj2 (share_then_revoke 200 300 shop "t1" milk "alice" None
                  self_shared.1 self_shared.2 H1 eq_refl H2)).
Defined.

(** X18. Archiving does not hide a todo: after [archiveTodo] by its
    owner a todo that is not deleted is in [getArchivedTodos] and still in
    [getAllTodos], which does not look at [isArchived]; [unarchiveTodo] takes
    it out of the archive again. *)
Theorem archived_todo_still_listed now now' db todoId todo sortBy :
  todos db !! todoId = Some todo → _id todo = todoId → validateDoc todo = inr tt →
  isDeleted todo = false → parentId todo = None →
  ∃ doc1 db1 doc2 db2,
    archiveTodo now db (userId todo) todoId = inr (doc1, db1)
    ∧ isArchived doc1 = true
    ∧ doc1 ∈ getArchivedTodos db1 (userId todo)
    ∧ doc1 ∈ getAllTodos db1 (userId todo) None None None sortBy
    ∧ unarchiveTodo now' db1 (userId todo) todoId = inr (doc2, db2)
    ∧ isArchived doc2 = false
    ∧ (doc2 ∉ getArchivedTodos db2 (userId todo))
    ∧ doc2 ∈ getAllTodos db2 (userId todo) None None None sortBy.
Proof.
  intros Hlook Hid Hvalid Hdel Hpar.
  destruct (save_stored now db (todo <| isArchived := true |>))
    as (doc1 & db1 & Hrun1 & Hdoc1 & Hlook1 & Hv1 & Hid1 & Hu1);
    [by erewrite validateDoc_frame|].
  assert (isArchived doc1 = true ∧ isDeleted doc1 = false ∧ parentId doc1 = None)
    as (Ha1 & Hd1 & Hp1).
  { rewrite Hdoc1.
    match goal with
    | |- context [preSave ?a ?b ?c ?d] =>
        destruct (preSave_rest a b c d) as (->&->&_);
        destruct (preSave_frame a b c d) as (_&_&_&_&_&_&_&_&_&->&_)
    end. done. }
  simpl in Hlook1, Hid1, Hu1. rewrite Hid in Hlook1, Hid1.
  destruct (save_stored now' db1 (doc1 <| isArchived := false |>))
    as (doc2 & db2 & Hrun2 & Hdoc2 & Hlook2 & Hv2 & Hid2 & Hu2);
    [by erewrite validateDoc_frame|].
  assert (isArchived doc2 = false ∧ isDeleted doc2 = false ∧ parentId doc2 = None)
    as (Ha2 & Hd2 & Hp2).
  { rewrite Hdoc2.
    match goal with
    | |- context [preSave ?a ?b ?c ?d] =>
        destruct (preSave_rest a b c d) as (->&->&_);
        destruct (preSave_frame a b c d) as (_&_&_&_&_&_&_&_&_&->&_)
    end. done. }
  simpl in Hlook2, Hid2, Hu2. rewrite Hid1 in Hlook2.
  exists doc1, db1, doc2, db2.
  unfold archiveTodo, unarchiveTodo, throwIf, isOwner. rewrite Hlook, Hlook1. simpl.
  rewrite Hu1. rewrite !(bool_decide_eq_true_2 (userId todo = userId todo)) by done. simpl.
  split; [exact Hrun1|]. split; [exact Ha1|].
  split.
  { unfold getArchivedTodos. eapply elem_of_find_exec; [exact Hlook1|].
    rewrite Hu1, Ha1, Hd1. by rewrite !bool_decide_eq_true_2. }
  split.
  { unfold getAllTodos. eapply elem_of_find_exec; [exact Hlook1|].
    rewrite Hu1, Hd1, Hp1. simpl. by rewrite !bool_decide_eq_true_2. }
  split; [exact Hrun2|]. split; [exact Ha2|].
  split.
  { unfold getArchivedTodos. apply not_in_exec_find. rewrite Ha2. simpl.
    by rewrite andb_false_r. }
  unfold getAllTodos. eapply elem_of_find_exec; [exact Hlook2|].
  rewrite Hu2, Hu1, Hd2, Hp2. simpl. by rewrite !bool_decide_eq_true_2.
Qed.

Lemma archived_todo_still_listed_witness :
  (todos shop !! "t1" = Some milk ∧ _id milk = "t1" ∧ validateDoc milk = inr tt
   ∧ isDeleted milk = false ∧ parentId milk = None)
  ∧ ∃ doc1 db1,
      archiveTodo 200 shop (userId milk) "t1" = inr (doc1, db1)
      ∧ isArchived doc1 = true
      ∧ doc1 ∈ getAllTodos db1 (userId milk) None None None None.
Proof.
  assert (todos shop !! "t1" = Some milk) as H1 by (vm_compute; reflexivity).
  assert (validateDoc milk = inr tt) as H2 by (vm_compute; reflexivity).
  split; [split; [exact H1|split; [reflexivity|split; [exact H2|split; reflexivity]]]|].
  destruct (archived_todo_still_listed 200 300 shop "t1" milk None H1 eq_refl H2
              eq_refl eq_refl)
    as (doc1 & db1 & _ & _ & Hrun & Ha & _ & Hin & _).
  exists doc1, db1. split; [exact Hrun|]. split; [exact Ha|exact Hin].
Defined.

(** X19. [completeTodo] by the owner sets [completed], [status]
    'completed' and [completedAt] together and logs a [completed] entry;
    [incompleteTodo] afterwards clears [completed] and [completedAt] and puts
    [status] to 'todo', whatever the status was before the todo was
    completed. *)
Theorem complete_then_incomplete now now' db todoId todo :
  todos db !! todoId = Some todo → _id todo = todoId → validateDoc todo = inr tt →
  ∃ doc1 db1 doc2 db2,
    completeTodo now db (userId todo) todoId = inr (doc1, db1)
    ∧ todos db1 !! todoId = Some doc1
    ∧ completed doc1 = true ∧ status doc1 = St_completed ∧ completedAt doc1 = Some now
    ∧ mkActivityEntry Completed (userId todo) None now ∈ activityLog doc1
    ∧ incompleteTodo now' db1 (userId todo) todoId = inr (doc2, db2)
    ∧ todos db2 !! todoId = Some doc2
    ∧ completed doc2 = false ∧ status doc2 = St_todo ∧ completedAt doc2 = None.
Proof.
  intros Hlook Hid Hvalid.
  destruct (save_stored now db
              (todo <| completed := true |> <| status := St_completed |>
                    <| completedAt := Some now |>))
    as (doc0 & db0 & Hrun0 & Hdoc0 & Hlook0 & Hv0 & Hid0 & Hu0);
    [by erewrite validateDoc_frame|].
  simpl in Hlook0, Hid0, Hu0.
  assert (completed doc0 = true ∧ status doc0 = St_completed ∧ completedAt doc0 = Some now)
    as (Hc0 & Hs0 & Ht0).
  { rewrite Hdoc0.
    match goal with
    | |- context [preSave ?a ?b ?c ?d] =>
        destruct (preSave_frame a b c d) as (_&_&_&->&->&->&_)
    end. done. }
  destruct (save_stored now db0
              (pushActivity (mkActivityEntry Completed (userId todo) None now) doc0))
    as (doc1 & db1 & Hrun1 & Hdoc1 & Hlook1 & Hv1 & Hid1 & Hu1);
    [by rewrite validateDoc_push|].
  simpl in Hlook1, Hid1, Hu1. rewrite Hid0, Hid in Hlook1.
  assert (completed doc1 = true ∧ status doc1 = St_completed ∧ completedAt doc1 = Some now
          ∧ mkActivityEntry Completed (userId todo) None now ∈ activityLog doc1)
    as (Hc1 & Hs1 & Ht1 & Hl1).
  { rewrite Hdoc1.
    match goal with
    | |- context [preSave ?a ?b ?c ?d] =>
        destruct (preSave_frame a b c d) as (_&_&_&->&->&->&_);
        destruct (preSave_keeps a b c d) as (_&_&_&_&_&Hp)
    end. split_and!; try done.
    eapply elem_of_prefix; [|exact Hp]. simpl. apply elem_of_app. right. by left. }
  destruct (save_stored now' db1
              (doc1 <| completed := false |> <| status := St_todo |> <| completedAt := None |>))
    as (doc2 & db2 & Hrun2 & Hdoc2 & Hlook2 & Hv2 & Hid2 & Hu2);
    [by erewrite validateDoc_frame|].
  simpl in Hlook2, Hid2, Hu2. rewrite Hid1, Hid0, Hid in Hlook2.
  assert (completeTodo now db (userId todo) todoId = inr (doc1, db1)) as R1.
  { unfold completeTodo, complete, throwIf, isOwner. rewrite Hlook. simpl.
    rewrite bool_decide_eq_true_2 by done. simpl. rewrite Hrun0. simpl.
    exact Hrun1. }
  assert (incompleteTodo now' db1 (userId todo) todoId = inr (doc2, db2)) as R2.
  { unfold incompleteTodo, incomplete, throwIf, isOwner. rewrite Hlook1. simpl.
    rewrite Hu1, Hu0. rewrite bool_decide_eq_true_2 by done. simpl. exact Hrun2. }
  exists doc1, db1, doc2, db2.
  split; [exact R1|].
  split; [exact Hlook1|]. split; [exact Hc1|]. split; [exact Hs1|]. split; [exact Ht1|].
  split; [exact Hl1|]. split; [exact R2|]. split; [exact Hlook2|].
  rewrite Hdoc2.
  match goal with
  | |- context [preSave ?a ?b ?c ?d] =>
      destruct (preSave_frame a b c d) as (_&_&_&->&->&->&_)
  end. done.
Qed.

Lemma complete_then_incomplete_witness :
  (todos shop !! "t1" = Some milk ∧ _id milk = "t1" ∧ validateDoc milk = inr tt)
  ∧ ∃ doc1 db1 doc2 db2,
      completeTodo 200 shop (userId milk) "t1" = inr (doc1, db1)
      ∧ status doc1 = St_completed
      ∧ incompleteTodo 300 db1 (userId milk) "t1" = inr (doc2, db2)
      ∧ status doc2 = St_todo.
Proof.
  assert (todos shop !! "t1" = Some milk) as H1 by (vm_compute; reflexivity).
  assert (validateDoc milk = inr tt) as H2 by (vm_compute; reflexivity).
  split; [split; [exact H1|split; [reflexivity|exact H2]]|].
  destruct (complete_then_incomplete 200 300 shop "t1" milk H1 eq_refl H2)
    as (doc1 & db1 & doc2 & db2 & Hr1 & _ & _ & Hs1 & _ & _ & Hr2 & _ & _ & Hs2 & _).
  exists doc1, db1, doc2, db2. split; [exact Hr1|]. split; [exact Hs1|].
  split; [exact Hr2|exact Hs2].
Defined.

(** ** Statistics *)

Lemma size_filter_insert (P : string * Todo → Prop) `{∀ kv, Decision (P kv)}
    (m : gmap string Todo) i x :
  m !! i = None →
  size (filter P (<[i := x]> m))
    = ((if decide (P (i, x)) then 1 else 0) + size (filter P m))%nat.
Proof.
  intros Hi. case_decide as E.
  - rewrite map_filter_insert_True by done.
    rewrite map_size_insert_None; [done|]. by rewrite map_lookup_filter_None; left.
  - rewrite map_filter_insert_False by done. by rewrite delete_id.
Qed.

(** X20. The [total] of [getTodoStats] is the sum of the counts of four
    statuses: a todo that is 'on-hold' is counted in none of them, so the
    total falls short of the number of the user's todos that are not deleted
    by the number of those on hold. *)
Theorem getTodoStats_total now db reqUserId :
  let stats := getTodoStats now db reqUserId in
  st_total stats = (st_todo stats + st_inProgress stats + st_completed stats
                    + st_blocked stats)%nat
  ∧ (st_total stats + countByStatus db reqUserId St_on_hold)%nat
      = countDocuments db (λ t, bool_decide (userId t = reqUserId)
                                && bool_decide (isDeleted t = false)).
Proof.
  simpl. split; [reflexivity|].
  unfold countByStatus, countDocuments, find. generalize (todos db). clear db.
  intros m. induction m as [|i x m Hi _ IH] using map_first_key_ind.
  - by rewrite !map_filter_empty, !map_size_empty.
  - rewrite !size_filter_insert by done. rewrite <- IH. simpl.
    destruct (bool_decide (userId x = reqUserId)), (bool_decide (isDeleted x = false)),
      (status x); simpl; repeat case_decide; try done; lia.
Qed.

(** ** An update that changes nothing *)

Lemma logged_nil {A} key old (new : A → Val) choice :
  logged key old new choice = [] → choice = None.
Proof. by destruct choice. Qed.

Lemma applyTodoBody_unchanged body todo :
  (applyTodoBody body todo).2 = [] → (applyTodoBody body todo).1 = todo.
Proof.
  rewrite applyTodoBody_eq. simpl. intros H.
  repeat (apply app_eq_nil in H as [?%logged_nil H]). apply logged_nil in H.
  repeat match goal with Hx : _ = None |- _ => rewrite Hx; clear Hx end.
  by destruct todo.
Qed.

Lemma preSave_unchanged now doc :
  checklistProgress doc = calculateProgress (subtasks doc) →
  preSave false (Some doc) now doc = doc.
Proof.
  intros Hp. unfold preSave, activityHook, progressHook, timestampsHook.
  assert (isModified (Some doc) doc = false) as Hm.
  { unfold isModified. by rewrite bool_decide_eq_false_2 by (by intros ?). }
  rewrite Hm. simpl.
  assert (doc <| checklistProgress := calculateProgress (subtasks doc) |> = doc) as ->.
  { rewrite <- Hp. by destruct doc. }
  by rewrite Hm.
Qed.

(** X21. An update by the owner that gives [updateTodo] nothing to
    record, such as a body that only repeats the stored title, leaves no
    trace: the stored document is the same afterwards, [updatedAt] and the
    activity log included, and so is the whole collection. *)
Theorem updateTodo_without_change now db todoId todo body :
  todos db !! todoId = Some todo → _id todo = todoId → validateDoc todo = inr tt →
  checklistProgress todo = calculateProgress (subtasks todo) →
  (applyTodoBody body todo).2 = [] →
  updateTodo now db (userId todo) todoId body = inr (todo, db).
Proof.
  intros Hlook Hid Hvalid Hp Hnone.
  pose proof (applyTodoBody_unchanged body todo Hnone) as Hsame.
  unfold updateTodo, throwIf, isOwner. rewrite Hlook. simpl.
  rewrite bool_decide_eq_true_2 by done. simpl.
  destruct (applyTodoBody body todo) as [todo' changes_]. simpl in *. subst.
  simpl. rewrite save_valid by done. rewrite Hlook, preSave_unchanged by done.
  f_equal. f_equal. apply DB_eq; [done|].
  intros k. simpl. by rewrite insert_id.
Qed.

Lemma updateTodo_without_change_witness :
  (todos shop !! "t1" = Some milk ∧ _id milk = "t1" ∧ validateDoc milk = inr tt
   ∧ checklistProgress milk = calculateProgress (subtasks milk)
   ∧ (applyTodoBody same_body milk).2 = [])
  ∧ validateTodo 200 same_body = inr tt
  ∧ updateTodo 200 shop (userId milk) "t1" same_body = inr (milk, shop).
Proof.
  assert (todos shop !! "t1" = Some milk) as H1 by (vm_compute; reflexivity).
  assert (validateDoc milk = inr tt) as H2 by (vm_compute; reflexivity).
  assert (checklistProgress milk = calculateProgress (subtasks milk)) as H3
    by (vm_compute; reflexivity).
  assert ((applyTodoBody same_body milk).2 = []) as H4 by (vm_compute; reflexivity).
  split; [split; [exact H1|split; [reflexivity|split; [exact H2|split; [exact H3|exact H4]]]]|].
  split; [vm_compute; reflexivity|].
  exact (updateTodo_without_change 200 shop "t1" milk same_body H1 eq_refl H2 H3 H4).
Defined.

(** ** The attempt counter *)

Lemma admitted_in_window maxAttempts windowMs identifier requests :
  ∀ loginAttempts attempts,
    loginAttempts !! identifier = Some attempts →
    (∀ request, request ∈ from identifier requests → request.2 ≤ resetTime attempts) →
    from identifier (admitted maxAttempts windowMs loginAttempts requests)
      = take (Z.to_nat (maxAttempts - count attempts)) (from identifier requests).
Proof.
  induction requests as [|[id now] rest IH]; intros s a Hs Hin.
  { by destruct (Z.to_nat _). }
  unfold from in *. simpl. unfold rateLimitAuth. simpl.
  destruct (decide (id = identifier)) as [->|Hne].
  - rewrite Hs. rewrite filter_cons_True in Hin by done.
    assert (now ≤ resetTime a) as Hnow.
    { apply (Hin (identifier, now)). by left. }
    rewrite bool_decide_eq_false_2 by lia.
    rewrite filter_cons_True by done.
    case_bool_decide as Hmax.
    + rewrite (IH s a); [|done|by intros r Hr; apply Hin; right].
      by replace (Z.to_nat (maxAttempts - count a)) with 0%nat by lia.
    + rewrite filter_cons_True by done.
      rewrite (IH _ (mkAttempts (count a + 1) (resetTime a)));
        [|by rewrite lookup_insert_eq|by intros r Hr; apply Hin; right].
      simpl.
      replace (Z.to_nat (maxAttempts - count a))
        with (S (Z.to_nat (maxAttempts - (count a + 1)))) by lia.
      done.
  - rewrite filter_cons_False in Hin by done.
    rewrite filter_cons_False by done.
    destruct (s !! id) as [b|] eqn:Hb.
    + repeat case_bool_decide.
      * rewrite filter_cons_False by done.
        apply IH; [by rewrite lookup_insert_ne|done].
      * by apply IH.
      * rewrite filter_cons_False by done.
        apply IH; [by rewrite lookup_insert_ne|done].
    + rewrite filter_cons_False by done.
      apply IH; [by rewrite lookup_insert_ne|done].
Qed.

(** X22. From the request of an address that opens a window (the
    address is unknown or its window is over) to the end of that window, the
    counter lets through the first [maxAttempts] requests of the address and
    no other one, whatever other addresses do in between; a limit below one
    still lets the opening request through. *)
Theorem rateLimitAuth_window maxAttempts windowMs loginAttempts identifier now requests :
  (∀ attempts, loginAttempts !! identifier = Some attempts → resetTime attempts < now) →
  (∀ request, request ∈ from identifier requests → request.2 ≤ now + windowMs) →
  from identifier (admitted maxAttempts windowMs loginAttempts ((identifier, now) :: requests))
    = take (Z.to_nat (Z.max 1 maxAttempts)) ((identifier, now) :: from identifier requests).
Proof.
  intros Hopen Hin.
  replace (Z.to_nat (Z.max 1 maxAttempts)) with (S (Z.to_nat (maxAttempts - 1))) by lia.
  assert (rateLimitAuth maxAttempts windowMs loginAttempts identifier now
          = (<[identifier := mkAttempts 1 (now + windowMs)]> loginAttempts, inr tt)) as Hfirst.
  { unfold rateLimitAuth. destruct (loginAttempts !! identifier) as [a|] eqn:Ha; [|done].
    by rewrite bool_decide_eq_true_2 by by apply Hopen. }
  cbn [admitted fst snd]. rewrite Hfirst. unfold from at 1.
  rewrite filter_cons_True by done. cbn [take]. f_equal.
  by apply (admitted_in_window _ _ _ _ _ (mkAttempts 1 (now + windowMs)));
    [rewrite lookup_insert_eq|].
Qed.

Lemma rateLimitAuth_window_witness :
  let requests := [("10.0.0.1", 10); ("10.0.0.2", 11); ("10.0.0.1", 20); ("10.0.0.1", 30);
                   ("10.0.0.1", 100)] in
  from "10.0.0.1" (admitted 2 100 ∅ (("10.0.0.1", 0) :: requests))
    = [("10.0.0.1", 0); ("10.0.0.1", 10)].
Proof.
  intros requests.
  refine (rateLimitAuth_window 2 100 ∅ "10.0.0.1" 0 requests _ _).
  - intros attempts H. by rewrite lookup_empty in H.
  - intros request H. vm_compute in H.
    repeat (apply elem_of_cons in H as [->|H]; [simpl; lia|]).
    by apply elem_of_nil in H.
Defined.

(** ** Refresh tokens *)

Lemma slice_last_app {A} n (a b : list A) :
  slice_last n (slice_last n a ++ b) = slice_last n (a ++ b).
Proof.
  unfold slice_last.
  destruct (decide (length a ≤ n)%nat) as [Hle|Hgt].
  - by replace (length a - n)%nat with 0%nat by lia.
  - rewrite !length_app, length_drop.
    replace (length a + length b - n)%nat with ((length a - n) + length b)%nat by lia.
    rewrite <- drop_drop, (drop_app_le a b (length a - n)) by lia.
    f_equal. lia.
Qed.

Lemma slice_last_short {A} n (a : list A) : (length a ≤ n)%nat → slice_last n a = a.
Proof. intros H. unfold slice_last. by replace (length a - n)%nat with 0%nat by lia. Qed.

Lemma slice_last_fmap {A B} (f : A → B) n (a : list A) :
  f <$> slice_last n a = slice_last n (f <$> a).
Proof. unfold slice_last. by rewrite fmap_drop, length_fmap. Qed.

Lemma slice_last_Forall {A} (P : A → Prop) n (a : list A) :
  Forall P a → Forall P (slice_last n a).
Proof. apply Forall_drop. Qed.

(** What a user document must satisfy for [save] to accept it. *)
Lemma validateUser_iff doc :
  validateUser doc = inr tt
  ↔ googleId doc ≠ EmptyString ∧ email doc ≠ EmptyString ∧ name doc ≠ EmptyString
    ∧ Forall (λ rt, token rt ≠ EmptyString) (refreshTokens doc).
Proof.
  assert (forallb (λ rt, truthy (token rt)) (refreshTokens doc) = true
          ↔ Forall (λ rt, token rt ≠ EmptyString) (refreshTokens doc)) as Hall.
  { rewrite forallb_Forall. apply Forall_proper; [|done].
    intros rt. unfold truthy. by rewrite negb_true_iff, bool_decide_eq_false. }
  unfold validateUser, throwIf, truthy in *.
  split.
  - intros H.
    repeat (case_bool_decide; simpl in H; [done|]).
    destruct (forallb _ _) eqn:Hb; [|done].
    split_and!; try done. by apply Hall.
  - intros (? & ? & ? & Hf).
    rewrite !bool_decide_eq_false_2 by done. simpl.
    apply Hall in Hf. by rewrite Hf.
Qed.

Lemma saveUser_valid now users_ doc :
  validateUser doc = inr tt →
  ∃ doc', saveUser now users_ doc = inr (doc', <[u_id doc := doc']> users_)
          ∧ u_id doc' = u_id doc ∧ googleId doc' = googleId doc ∧ email doc' = email doc
          ∧ name doc' = name doc ∧ isActive doc' = isActive doc
          ∧ refreshTokens doc' = refreshTokens doc.
Proof.
  intros Hv. unfold saveUser. rewrite Hv. simpl.
  case_bool_decide; eexists; (split; [reflexivity|]); by destruct doc.
Qed.

Lemma saved_valid doc doc' :
  validateUser doc = inr tt →
  googleId doc' = googleId doc → email doc' = email doc → name doc' = name doc →
  Forall (λ rt, token rt ≠ EmptyString) (refreshTokens doc') →
  validateUser doc' = inr tt.
Proof.
  rewrite !validateUser_iff. intros (? & ? & ? & ?) -> -> -> ?. done.
Qed.

Lemma addRefreshToken_valid now newId users_ this token_ :
  validateUser this = inr tt → token_ ≠ EmptyString →
  ∃ user, addRefreshToken now newId users_ this token_
            = inr (user, <[u_id this := user]> users_)
          ∧ validateUser user = inr tt
          ∧ u_id user = u_id this ∧ isActive user = isActive this
          ∧ refreshTokens user
              = slice_last 5 (refreshTokens this ++ [mkRefreshToken newId token_ now]).
Proof.
  intros Hv Htok. unfold addRefreshToken.
  set (pushed := this <| refreshTokens := refreshTokens this ++ [mkRefreshToken newId token_ now] |>).
  set (cut := if bool_decide (5 < length (refreshTokens pushed))%nat
              then pushed <| refreshTokens := slice_last 5 (refreshTokens pushed) |>
              else pushed).
  assert (u_id cut = u_id this ∧ googleId cut = googleId this ∧ email cut = email this
          ∧ name cut = name this ∧ isActive cut = isActive this
          ∧ refreshTokens cut
              = slice_last 5 (refreshTokens this ++ [mkRefreshToken newId token_ now]))
    as (Hid & Hg & He & Hn & Ha & Hr).
  { subst cut pushed. case_bool_decide as Hlen.
    - by destruct this.
    - split_and!; try by destruct this.
      rewrite slice_last_short; [by destruct this|].
      assert (refreshTokens (this <| refreshTokens :=
                refreshTokens this ++ [mkRefreshToken newId token_ now] |>)
              = refreshTokens this ++ [mkRefreshToken newId token_ now]) as Heq
        by by destruct this.
      rewrite Heq in Hlen. lia. }
  clearbody cut. clear pushed.
  assert (validateUser cut = inr tt) as Hvc.
  { apply (saved_valid this); try done. rewrite Hr.
    apply slice_last_Forall, Forall_app. split; [by apply validateUser_iff in Hv as (_&_&_&?)|].
    by apply Forall_singleton. }
  destruct (saveUser_valid now users_ cut Hvc) as (doc' & Hs & Hid' & Hg' & He' & Hn' & Ha' & Hr').
  exists doc'. rewrite Hs, Hid. split_and!; try congruence.
  apply (saved_valid cut); try congruence.
  rewrite Hr'. by apply validateUser_iff in Hvc as (_&_&_&?).
Qed.

(** X23. An account keeps the five newest sessions: after one or
    more logins of a user whose document is valid, each with a token that is
    not empty, the stored tokens are the last five of the earlier tokens
    followed by the new ones, in that order. After five logins no earlier
    token is left. *)
Theorem addRefreshToken_keeps_last_five users_ this logins :
  validateUser this = inr tt →
  Forall (λ login, login.2 ≠ EmptyString) logins →
  logins ≠ [] →
  ∃ user users',
    addEach users_ this logins = inr (user, users')
    ∧ users' !! u_id this = Some user
    ∧ token <$> refreshTokens user
        = slice_last 5 ((token <$> refreshTokens this) ++ (snd <$> logins))
    ∧ ((5 ≤ length logins)%nat →
       token <$> refreshTokens user = slice_last 5 (snd <$> logins)).
Proof.
  intros Hv Hall Hne.
  assert (∃ user users',
    addEach users_ this logins = inr (user, users')
    ∧ users' !! u_id this = Some user
    ∧ token <$> refreshTokens user
        = slice_last 5 ((token <$> refreshTokens this) ++ (snd <$> logins)))
    as (user & users' & Hrun & Hlook & Htok).
  { clear -Hv Hall Hne.
    revert users_ this Hv Hne.
    induction Hall as [|[[now newId] tok] rest Htok Hrest IH]; intros users_ this Hv Hne; [done|].
    simpl in Htok.
    destruct (addRefreshToken_valid now newId users_ this tok Hv Htok)
      as (user1 & Hadd & Hv1 & Hid1 & _ & Hr1).
    cbn [addEach]. rewrite Hadd. cbn [fst snd].
    destruct rest as [|login rest'].
    - exists user1, (<[u_id this := user1]> users_). cbn [addEach].
      split; [done|]. split; [by rewrite lookup_insert_eq|].
      rewrite Hr1, slice_last_fmap, fmap_app. done.
    - destruct (IH (<[u_id this := user1]> users_) user1 Hv1) as (user & users' & Hrun & Hlook & Htoks); [done|].
      exists user, users'. split; [done|]. split; [by rewrite <- Hid1|].
      rewrite Htoks, Hr1, slice_last_fmap, fmap_app, slice_last_app.
      cbn [fmap list_fmap snd]. by rewrite <- app_assoc. }
  exists user, users'. split_and!; try done.
  intros Hlen. rewrite Htok. unfold slice_last.
  rewrite length_app, !length_fmap.
  rewrite drop_app, length_fmap.
  rewrite drop_ge by (rewrite length_fmap; lia). simpl. f_equal. lia.
Qed.

Lemma addRefreshToken_keeps_last_five_witness :
  let logins := [(1, "r2", "tok-1"); (2, "r3", "tok-2"); (3, "r4", "tok-3");
                 (4, "r5", "tok-4"); (5, "r6", "tok-5")] in
  ∃ user users',
    addEach people ann logins = inr (user, users')
    ∧ users' !! "u1" = Some user
    ∧ token <$> refreshTokens user
        = ["tok-1"; "tok-2"; "tok-3"; "tok-4"; "tok-5"]
    ∧ ((5 ≤ 5)%nat →
       token <$> refreshTokens user = ["tok-1"; "tok-2"; "tok-3"; "tok-4"; "tok-5"]).
Proof.
  intros logins.
  refine (addRefreshToken_keeps_last_five people ann logins _ _ _).
  - vm_compute; reflexivity.
  - repeat (apply Forall_cons; split; [by intros ?|]). apply Forall_nil_2.
  - by intros ?.
Defined.

Lemma removeRefreshToken_valid now users_ this token_ :
  validateUser this = inr tt →
  ∃ user, removeRefreshToken now users_ this token_
            = inr (user, <[u_id this := user]> users_)
          ∧ validateUser user = inr tt
          ∧ u_id user = u_id this ∧ isActive user = isActive this
          ∧ refreshTokens user = filter (λ rt, token rt ≠ token_) (refreshTokens this).
Proof.
  intros Hv. unfold removeRefreshToken.
  set (cut := this <| refreshTokens := filter (λ rt, token rt ≠ token_) (refreshTokens this) |>).
  assert (u_id cut = u_id this ∧ googleId cut = googleId this ∧ email cut = email this
          ∧ name cut = name this ∧ isActive cut = isActive this
          ∧ refreshTokens cut = filter (λ rt, token rt ≠ token_) (refreshTokens this))
    as (Hid & Hg & He & Hn & Ha & Hr) by by destruct this.
  clearbody cut.
  assert (validateUser cut = inr tt) as Hvc.
  { apply (saved_valid this); try done. rewrite Hr.
    apply Forall_filter_keep. by apply validateUser_iff in Hv as (_&_&_&?). }
  destruct (saveUser_valid now users_ cut Hvc) as (doc' & Hs & Hid' & Hg' & He' & Hn' & Ha' & Hr').
  exists doc'. rewrite Hs, Hid. split_and!; try congruence.
  apply (saved_valid cut); try congruence.
  rewrite Hr'. by apply validateUser_iff in Hvc as (_&_&_&?).
Qed.

Lemma existsb_token old (l : list RefreshToken) :
  existsb (λ rt, bool_decide (token rt = old)) l = true ↔ old ∈ token <$> l.
Proof.
  induction l as [|rt l IH]; simpl.
  - split; [done|]. by intros ?%elem_of_nil.
  - rewrite orb_true_iff, IH, bool_decide_eq_true, elem_of_cons.
    split; (intros [?|?]; [by left|by right]).
Qed.

(** X24. A refresh with a stored token of an active, valid user
    succeeds and replaces that token: the stored tokens become the last five
    of the others followed by the new one. Unless the signer gave the same
    token again, the old token is refused with 401 from then on, and the
    collection is left as it is. *)
Theorem refreshAccessToken_rotates
    (generateTokens : Z → User → Tokens) (verifyRefreshToken : Z → string → JwtError + string)
    now newId users_ user old :
  users_ !! u_id user = Some user → validateUser user = inr tt → isActive user = true →
  old ∈ token <$> refreshTokens user →
  verifyRefreshToken now old = inr (u_id user) →
  refreshToken (generateTokens now user) ≠ EmptyString →
  ∃ user',
    refreshAccessToken generateTokens verifyRefreshToken now newId users_ (Some old)
      = (<[u_id user := user']> users_, inr (generateTokens now user))
    ∧ token <$> refreshTokens user'
        = slice_last 5 (filter (λ t, t ≠ old) (token <$> refreshTokens user)
                        ++ [refreshToken (generateTokens now user)])
    ∧ (refreshToken (generateTokens now user) ≠ old →
       ∀ now' newId',
         (∀ id, verifyRefreshToken now' old = inr id → id = u_id user) →
         ∃ msg,
           refreshAccessToken generateTokens verifyRefreshToken now' newId'
               (<[u_id user := user']> users_) (Some old)
             = (<[u_id user := user']> users_, inl (ApiError 401 msg))).
Proof.
  intros Hlook Hv Hact Hold Hver Hnew.
  assert (old ≠ EmptyString) as Hne.
  { apply validateUser_iff in Hv as (_&_&_&Hall).
    apply list_elem_of_fmap in Hold as (rt & -> & Hrt).
    by eapply Forall_forall in Hall. }
  destruct (removeRefreshToken_valid now users_ user old Hv)
    as (user1 & Hrem & Hv1 & Hid1 & Hact1 & Hr1).
  destruct (addRefreshToken_valid now newId (<[u_id user := user1]> users_) user1
              (refreshToken (generateTokens now user)) Hv1 Hnew)
    as (user2 & Hadd & Hv2 & Hid2 & Hact2 & Hr2).
  assert (token <$> refreshTokens user2
          = slice_last 5 (filter (λ t, t ≠ old) (token <$> refreshTokens user)
                          ++ [refreshToken (generateTokens now user)])) as Htoks.
  { rewrite Hr2, Hr1, slice_last_fmap, fmap_app. f_equal. f_equal.
    clear. induction (refreshTokens user) as [|rt l IH]; [done|].
    rewrite fmap_cons, !filter_cons.
    destruct (decide (token rt ≠ old)); [rewrite fmap_cons; f_equal; exact IH|exact IH]. }
  exists user2. split_and!.
  - unfold refreshAccessToken. destruct old as [|c old']; [done|].
    rewrite Hver, Hlook, Hact. simpl.
    apply existsb_token in Hold. rewrite Hold. simpl.
    rewrite Hrem, Hadd, Hid1. by rewrite insert_insert_eq.
  - done.
  - intros Hfresh now' newId' Hver'.
    unfold refreshAccessToken. destruct old as [|c old']; [done|].
    destruct (verifyRefreshToken now' _) as [e|id] eqn:Hv'; [by eexists|].
    rewrite (Hver' id eq_refl), lookup_insert_eq.
    rewrite Hact2, Hact1, Hact. simpl.
    assert (existsb (λ rt, bool_decide (token rt = String c old')) (refreshTokens user2) = false)
      as ->; [|by eexists].
    apply not_true_is_false. rewrite existsb_token, Htoks.
    unfold slice_last. intros Hin%subseteq_drop.
    apply elem_of_app in Hin as [Hin%list_elem_of_filter|Hin%list_elem_of_singleton];
      [by destruct Hin|done].
Qed.

Lemma refreshAccessToken_rotates_witness :
  ∃ user',
    refreshAccessToken sign verify 7 "r2" people (Some "tok-0")
      = (<["u1" := user']> people, inr (sign 7 ann))
    ∧ token <$> refreshTokens user' = ["tok-7"]
    ∧ ("tok-7" ≠ "tok-0" →
       ∀ now' newId',
         (∀ id, verify now' "tok-0" = inr id → id = "u1") →
         ∃ msg,
           refreshAccessToken sign verify now' newId' (<["u1" := user']> people) (Some "tok-0")
             = (<["u1" := user']> people, inl (ApiError 401 msg))).
Proof.
  refine (refreshAccessToken_rotates sign verify 7 "r2" people ann "tok-0" _ _ _ _ _ _).
  - vm_compute; reflexivity.
  - vm_compute; reflexivity.
  - reflexivity.
  - simpl. by left.
  - reflexivity.
  - by intros ?.
Defined.

(** X25. Deleting an account clears its refresh tokens and marks
    it inactive, and afterwards every refresh with a token that verifies to
    the account is answered 403, at any time and without a change of the
    collection. *)
Theorem deactivated_account_cannot_refresh
    (generateTokens : Z → User → Tokens) (verifyRefreshToken : Z → string → JwtError + string)
    now users_ user users' :
  users_ !! u_id user = Some user →
  deleteUserAccount now users_ (u_id user) = inr users' →
  (∃ user', users' = <[u_id user := user']> users_
            ∧ isActive user' = false ∧ refreshTokens user' = [])
  ∧ ∀ now' newId tok,
      tok ≠ EmptyString → verifyRefreshToken now' tok = inr (u_id user) →
      refreshAccessToken generateTokens verifyRefreshToken now' newId users' (Some tok)
        = (users', inl (ApiError 403 "Account is deactivated")).
Proof.
  intros Hlook Hdel. unfold deleteUserAccount, orNotFound in Hdel.
  rewrite Hlook in Hdel.
  set (off := user <| isActive := false |> <| refreshTokens := [] |>) in Hdel.
  assert (u_id off = u_id user ∧ isActive off = false ∧ refreshTokens off = [])
    as (Hid & Hact & Hr) by by destruct user.
  clearbody off.
  destruct (saveUser now users_ off) as [e|[doc' users1]] eqn:Hsave; [done|].
  simpl in Hdel. injection Hdel as <-.
  unfold saveUser in Hsave.
  destruct (validateUser off) as [e|[]] eqn:Hv; [done|]. simpl in Hsave.
  injection Hsave as <- <-.
  set (doc' := if bool_decide (users_ !! u_id off ≠ Some off) then off <| u_updatedAt := now |> else off).
  assert (u_id doc' = u_id user ∧ isActive doc' = false ∧ refreshTokens doc' = [])
    as (Hid' & Hact' & Hr').
  { subst doc'. case_bool_decide; [|done]. by destruct off. }
  clearbody doc'. rewrite Hid'.
  split; [by exists doc'|].
  intros now' newId tok Htok Hver.
  unfold refreshAccessToken. destruct tok as [|c tok']; [done|].
  by rewrite Hver, lookup_insert_eq, Hact'.
Qed.

Lemma deactivated_account_cannot_refresh_witness :
  (∃ user', <["u1" := ann <| isActive := false |> <| refreshTokens := [] |> <| u_updatedAt := 9 |>]> people
              = <["u1" := user']> people
            ∧ isActive user' = false ∧ refreshTokens user' = [])
  ∧ ∀ now' newId tok,
      tok ≠ EmptyString → verify now' tok = inr "u1" →
      refreshAccessToken sign verify now' newId
          (<["u1" := ann <| isActive := false |> <| refreshTokens := [] |> <| u_updatedAt := 9 |>]> people)
          (Some tok)
        = (<["u1" := ann <| isActive := false |> <| refreshTokens := [] |> <| u_updatedAt := 9 |>]> people,
           inl (ApiError 403 "Account is deactivated")).
Proof.
  refine (deactivated_account_cannot_refresh sign verify 9 people ann _ _ _).
  - vm_compute; reflexivity.
  - vm_compute; reflexivity.
Defined.
